(** * AI news agent: text normalizer, summary synthesizer, trending scorer,
      duplicate detector and news store

    A shallow embedding of the decision logic of [Agent.py] and [AI.py].
    Python [str] values are sequences of Unicode code points; the store is
    the [news] table of the SQLite file, with its schema and its
    uniqueness constraints. *)

From Stdlib Require Import ZArith NArith Lia Bool List Ascii String.
From stdpp Require Import base tactics option list strings gmap.

Local Open Scope N_scope.

(** ** Python strings *)

Module PyStr.

(** A Python [str]: a sequence of code points. *)
Abbreviation pystr := (list N).

(** An ASCII literal of the source as a [pystr]. *)
Definition py (s : string) : pystr :=
  List.map N_of_ascii (list_ascii_of_string s).

Definition in_range (lo hi c : N) : bool := (lo <=? c) && (c <=? hi).

(** [str.lower()] on the Basic Latin and Latin-1 ranges; the keyword tables
    of the program are all lowercase ASCII.  Code points outside these two
    ranges are left as they are. *)
Definition lower_cp (c : N) : N :=
  if in_range 65 90 c then c + 32
  else if in_range 192 222 c && negb (c =? 215) then c + 32
  else c.

Definition lower (s : pystr) : pystr := List.map lower_cp s.

Definition upper_cp (c : N) : N :=
  if in_range 97 122 c then c - 32 else c.

(** [str.capitalize()]: first character upper-cased, the rest lower-cased. *)
Definition capitalize (s : pystr) : pystr :=
  match s with
  | [] => []
  | c :: r => upper_cp c :: lower r
  end.

(** [s.startswith(p)] *)
Fixpoint startswith (p s : pystr) : bool :=
  match p, s with
  | [], _ => true
  | _ :: _, [] => false
  | a :: p', b :: s' => (a =? b) && startswith p' s'
  end.

(** [s.endswith(p)] *)
Definition endswith (p s : pystr) : bool :=
  startswith (rev p) (rev s).

(** [needle in hay]: substring test. *)
Fixpoint contains (needle hay : pystr) : bool :=
  startswith needle hay ||
  match hay with
  | [] => false
  | _ :: hay' => contains needle hay'
  end.

(** [s.replace(old, new)]: every non-overlapping occurrence of [old], from
    the left.  [skip] counts the characters of a match still to be dropped. *)
Fixpoint replace_from (old new : pystr) (skip : nat) (s : pystr) : pystr :=
  match s with
  | [] => []
  | c :: s' =>
      match skip with
      | S k => replace_from old new k s'
      | O =>
          if startswith old s
          then new ++ replace_from old new (length old - 1) s'
          else c :: replace_from old new 0 s'
      end
  end.

Definition replace (old new s : pystr) : pystr :=
  match old with
  | [] => new ++ flat_map (fun c => c :: new) s
  | _ :: _ => replace_from old new 0 s
  end.

(** Whitespace as [str.split()] and [str.strip()] see it
    (the interpreter's [Py_UNICODE_ISSPACE]). *)
Definition is_space (c : N) : bool :=
  in_range 9 13 c || in_range 28 32 c || (c =? 133) || (c =? 160)
  || (c =? 5760) || in_range 8192 8202 c || (c =? 8232) || (c =? 8233)
  || (c =? 8239) || (c =? 8287) || (c =? 12288).

Fixpoint lstrip (s : pystr) : pystr :=
  match s with
  | [] => []
  | c :: s' => if is_space c then lstrip s' else s
  end.

Definition rstrip (s : pystr) : pystr := rev (lstrip (rev s)).

(** [s.strip()] *)
Definition strip (s : pystr) : pystr := rstrip (lstrip s).

Definition cons_word (w : pystr) (ws : list pystr) : list pystr :=
  match w with
  | [] => ws
  | _ :: _ => w :: ws
  end.

(** The word being read at the head of [s], and the words after it. *)
Fixpoint words_from (s : pystr) : pystr * list pystr :=
  match s with
  | [] => ([], [])
  | c :: s' =>
      let (w, ws) := words_from s' in
      if is_space c then ([], cons_word w ws) else (c :: w, ws)
  end.

(** [s.split()]: the maximal runs of non-whitespace. *)
Definition split (s : pystr) : list pystr :=
  let (w, ws) := words_from s in cons_word w ws.

(** [sep.join(ws)] *)
Fixpoint join (sep : pystr) (ws : list pystr) : pystr :=
  match ws with
  | [] => []
  | [w] => w
  | w :: ws' => w ++ sep ++ join sep ws'
  end.

(** [s[:n]] for a non-negative [n]. *)
Definition slice_to (n : nat) (s : pystr) : pystr := take n s.

End PyStr.

Import PyStr.

(** ** Python values reaching the text functions

    The pipeline passes strings, and [None] where a field is missing; any
    other object is described by its truth value and by what [str()] gives
    on it ([None] when [__str__] raises). *)
Inductive pyval :=
  | VNone
  | VStr (s : pystr)
  | VObj (truth : bool) (repr : option pystr).

Definition truthy (v : pyval) : bool :=
  match v with
  | VNone => false
  | VStr s => negb (length s =? 0)%nat
  | VObj t _ => t
  end.

(** [str(v)] *)
Definition py_str (v : pyval) : option pystr :=
  match v with
  | VNone => Some (py "None")
  | VStr s => Some s
  | VObj _ r => r
  end.

(** ** Text normalizer ([clean_text_for_db]) *)

(** The [replacements] table as the interpreter reads the literal of the
    source: the first two entries share the key of one double quote and map
    it to itself; the third and fourth entries are written with three
    apostrophes in a row, which open and close one long string, so that
    they form a single entry whose key is the seven characters
    colon, space, double quote, apostrophe, double quote, comma, space. *)
Definition replacements : list (pystr * pystr) :=
  [ ([34], [34]);
    ([58; 32; 34; 39; 34; 44; 32], py "'");
    ([8211], py "-");
    ([8212], py "-");
    ([8230], py "...") ].

(** The class of [re.sub(r'[\x00-\x08\x0b\x0c\x0e-\x1f\x7f]', '', text)]. *)
Definition is_control (c : N) : bool :=
  in_range 0 8 c || (c =? 11) || (c =? 12) || in_range 14 31 c || (c =? 127).

Definition strip_controls (s : pystr) : pystr :=
  List.filter (fun c => negb (is_control c)) s.

Definition apply_replacements (s : pystr) : pystr :=
  fold_left (fun t kv => replace (fst kv) (snd kv) t) replacements s.

(** The body of the [try] block, on the text [str(text)]. *)
Definition clean_steps (s : pystr) : pystr :=
  let s := replace [0] [] s in
  let s := replace [13] [32] s in
  let s := replace [10] [32] s in
  let s := replace [9] [32] s in
  let s := apply_replacements s in
  let s := strip_controls s in
  let s := join [32] (split s) in
  strip s.

Definition clean_text_for_db (text : pyval) : pystr :=
  if negb (truthy text) then []
  else match py_str text with
       | Some s => clean_steps s
       | None => py "Text cleaning failed"
       end.

(** ** Summary synthesizer ([create_crispy_summary]) *)

Fixpoint str_eqb (a b : pystr) : bool :=
  match a, b with
  | [], [] => true
  | x :: a', y :: b' => (x =? y) && str_eqb a' b'
  | _, _ => false
  end.

Definition companies : list pystr :=
  List.map py ["openai"; "google"; "microsoft"; "meta"; "apple"; "nvidia";
               "amazon"; "anthropic"; "deepmind"; "tesla"; "salesforce"]%string.

Definition actions : list pystr :=
  List.map py ["announce"; "launch"; "release"; "develop"; "create";
               "introduce"; "unveil"; "reveal"; "debut"; "rollout"]%string.

Definition ai_topics : list pystr :=
  List.map py ["ai"; "artificial intelligence"; "gpt"; "chatgpt";
               "machine learning"; "neural"; "llm"; "generative ai";
               "automation"; "robotics"]%string.

(** The value [company] is given when the loop stops at [comp]. *)
Definition company_name (comp : pystr) : pystr :=
  let company := capitalize comp in
  if str_eqb comp (py "openai") then py "OpenAI"
  else if str_eqb comp (py "deepmind") then py "DeepMind"
  else company.

(** The value [action] is given when the loop stops at [act]. *)
Definition past_tense (act : pystr) : pystr :=
  let action := if endswith (py "e") act then act ++ py "d"
                else act ++ py "ed" in
  if str_eqb act (py "announce") then py "announced"
  else if str_eqb act (py "launch") then py "launched"
  else if str_eqb act (py "release") then py "released"
  else action.

(** The value [topic] is given when the loop stops at [ai_topic]. *)
Definition topic_phrase (ai_topic : pystr) : pystr :=
  if contains (py "gpt") ai_topic || contains (py "chatgpt") ai_topic
  then py "ChatGPT technology"
  else if contains (py "machine learning") ai_topic
  then py "machine learning capabilities"
  else if contains (py "robotics") ai_topic then py "robotics technology"
  else if contains (py "automation") ai_topic then py "automation solutions"
  else py "AI technology".

(** A [for ... if ...: x = f(k); break] loop with [x] preset to [dflt]. *)
Definition first_match (test : pystr -> bool) (f : pystr -> pystr)
    (dflt : pystr) (keys : list pystr) : pystr :=
  match List.find test keys with
  | Some k => f k
  | None => dflt
  end.

(** [any(word in text for word in words)] *)
Definition any_in (words : list pystr) (text : pystr) : bool :=
  existsb (fun w => contains w text) words.

Definition impact_sentence (title_lower : pystr) : pystr :=
  if any_in (List.map py ["breakthrough"; "revolutionary"; "game-changing"]%string) title_lower
  then py "This breakthrough could transform the tech industry."
  else if any_in (List.map py ["partnership"; "collaboration"; "deal"]%string) title_lower
  then py "This partnership accelerates AI development progress."
  else if any_in (List.map py ["funding"; "investment"; "raises"]%string) title_lower
  then py "This investment signals strong market confidence in AI."
  else if any_in (List.map py ["research"; "study"; "paper"]%string) title_lower
  then py "This research advances our understanding of AI capabilities."
  else py "This development marks continued innovation in artificial intelligence.".

(** The variable [summary] before the final slice, for string arguments. *)
Definition summary_text (title content : pystr) : pystr :=
  let title_lower := lower title in
  let content_lower := lower content in
  let company :=
    first_match (fun comp => contains comp title_lower || contains comp content_lower)
                company_name (py "A tech company") companies in
  let action :=
    first_match (fun act => contains act title_lower)
                past_tense (py "introduced") actions in
  let topic :=
    first_match (fun t => contains t title_lower || contains t content_lower)
                topic_phrase (py "AI technology") ai_topics in
  company ++ py " has " ++ action ++ py " new " ++ topic ++ py ". "
  ++ impact_sentence title_lower.

(** [summary[:200] + "..." if len(summary) > 200 else summary] *)
Definition truncate_summary (summary : pystr) : pystr :=
  if (200 <? length summary)%nat then slice_to 200 summary ++ py "..."
  else summary.

(** The string only, for the calls of a [str] method: a value of another
    type has no [lower] and the call raises. *)
Definition as_str (v : pyval) : option pystr :=
  match v with
  | VStr s => Some s
  | _ => None
  end.

(** The [except] branch; [str(title)] may itself raise, and nothing
    catches that. *)
Definition summary_fallback (title : pyval) : option pystr :=
  match py_str title with
  | Some t =>
      Some (py "Latest AI technology update: " ++ slice_to 100 t
            ++ py ". This represents new progress in artificial intelligence.")
  | None => None
  end.

(** [create_crispy_summary(title, content)]; [None] when the call raises. *)
Definition create_crispy_summary (title content : pyval) : option pystr :=
  let title := if truthy title then title else VStr (py "AI News Update") in
  let content := if truthy content then content else VStr [] in
  match as_str title, as_str content with
  | Some t, Some c => Some (truncate_summary (summary_text t c))
  | _, _ => summary_fallback title
  end.

(** ** Trending scorer ([calculate_trending_score] of [AI.py]) *)

Definition trending_keywords : list pystr :=
  List.map py ["breaking"; "just in"; "latest"; "new"; "announces"; "launches";
               "today"; "this week"; "now"; "update"; "development";
               "breakthrough"; "major"; "revolutionary"; "game-changing"]%string.

Definition ai_companies : list pystr :=
  List.map py ["openai"; "google"; "microsoft"; "meta"; "apple"; "nvidia";
               "anthropic"; "deepmind"; "hugging face"; "stability ai"]%string.

Definition hot_topics : list pystr :=
  List.map py ["gpt"; "chatgpt"; "claude"; "gemini"; "llama"; "copilot";
               "agi"; "autonomous"; "robotics"; "ai safety"; "regulation"]%string.

(** [for k in keys: if k in title: score += points] *)
Definition score_keywords (points : Z) (keys : list pystr) (title : pystr)
    (score : Z) : Z :=
  fold_left (fun sc k => if contains k title then (sc + points)%Z else sc)
            keys score.

(** The reliability bonus of the [if]/[elif] on the source. *)
Definition source_bonus (source : pystr) : Z :=
  if contains (py "techcrunch") source then 10%Z
  else if contains (py "google news") source then 15%Z
  else 0%Z.

(** An article is the dictionary the page script returns; [dict.get(k, '')]
    on it. *)
Definition dict_get (d : gmap string pystr) (k : string) : pystr :=
  default [] (d !! k).

Definition calculate_trending_score (article : gmap string pystr) : Z :=
  let score := 0%Z in
  let title := lower (dict_get article "title") in
  let score := score_keywords 20 trending_keywords title score in
  let score := score_keywords 15 ai_companies title score in
  let score := score_keywords 10 hot_topics title score in
  let source := lower (dict_get article "source") in
  (score + source_bonus source)%Z.

(** ** Fingerprints: UTF-8 and MD5

    [hashlib.md5(hash_input.encode()).hexdigest()]. *)

Module MD5.

Local Open Scope Z_scope.

Definition w32 (x : Z) : Z := Z.land x 4294967295.

Definition not32 (x : Z) : Z := Z.lxor x 4294967295.

Definition rotl (x c : Z) : Z :=
  w32 (Z.lor (Z.shiftl x c) (Z.shiftr x (32 - c))).

Definition shifts : list Z :=
  [7; 12; 17; 22; 7; 12; 17; 22; 7; 12; 17; 22; 7; 12; 17; 22;
   5; 9; 14; 20; 5; 9; 14; 20; 5; 9; 14; 20; 5; 9; 14; 20;
   4; 11; 16; 23; 4; 11; 16; 23; 4; 11; 16; 23; 4; 11; 16; 23;
   6; 10; 15; 21; 6; 10; 15; 21; 6; 10; 15; 21; 6; 10; 15; 21].

(** [floor(2^32 * abs(sin(i + 1)))] for [i] from 0 to 63. *)
Definition sines : list Z :=
  [3614090360; 3905402710; 606105819; 3250441966; 4118548399; 1200080426;
   2821735955; 4249261313; 1770035416; 2336552879; 4294925233; 2304563134;
   1804603682; 4254626195; 2792965006; 1236535329; 4129170786; 3225465664;
   643717713; 3921069994; 3593408605; 38016083; 3634488961; 3889429448;
   568446438; 3275163606; 4107603335; 1163531501; 2850285829; 4243563512;
   1735328473; 2368359562; 4294588738; 2272392833; 1839030562; 4259657740;
   2763975236; 1272893353; 4139469664; 3200236656; 681279174; 3936430074;
   3572445317; 76029189; 3654602809; 3873151461; 530742520; 3299628645;
   4096336452; 1126891415; 2878612391; 4237533241; 1700485571; 2399980690;
   4293915773; 2240044497; 1873313359; 4264355552; 2734768916; 1309151649;
   4149444226; 3174756917; 718787259; 3951481745].

(** [n] bytes of [x], least significant first. *)
Fixpoint le_bytes (n : nat) (x : Z) : list Z :=
  match n with
  | O => []
  | S k => Z.land x 255 :: le_bytes k (Z.shiftr x 8)
  end.

Fixpoint le_word (bs : list Z) : Z :=
  match bs with
  | [] => 0
  | b :: r => Z.lor b (Z.shiftl (le_word r) 8)
  end.

(** The message, one 1 bit, zeros up to 56 modulo 64, and the length in
    bits on 64 bits. *)
Definition pad (m : list Z) : list Z :=
  let len := Z.of_nat (length m) in
  m ++ [128] ++ List.repeat 0 (Z.to_nat ((55 - len) mod 64))
    ++ le_bytes 8 (len * 8).

(** Cut [l] in pieces of [n] elements ([k] bounds the number of pieces). *)
Fixpoint pieces {A} (n k : nat) (l : list A) : list (list A) :=
  match k, l with
  | O, _ | _, [] => []
  | S k', _ => take n l :: pieces n k' (drop n l)
  end.

Definition chunk_words (chunk : list Z) : list Z :=
  List.map le_word (pieces 4 16 chunk).

Definition round (M : list Z) (st : Z * Z * Z * Z) (i : nat) : Z * Z * Z * Z :=
  let '(a, b, c, d) := st in
  let iz := Z.of_nat i in
  let '(f, g) :=
    if iz <? 16 then (Z.lor (Z.land b c) (Z.land (not32 b) d), iz)
    else if iz <? 32 then (Z.lor (Z.land d b) (Z.land (not32 d) c), (5 * iz + 1) mod 16)
    else if iz <? 48 then (Z.lxor (Z.lxor b c) d, (3 * iz + 5) mod 16)
    else (Z.lxor c (Z.lor b (not32 d)), (7 * iz) mod 16) in
  let f := w32 (f + a + nth i sines 0 + nth (Z.to_nat g) M 0) in
  (d, w32 (b + rotl f (nth i shifts 0)), b, c).

Definition compress (st : Z * Z * Z * Z) (chunk : list Z) : Z * Z * Z * Z :=
  let '(a0, b0, c0, d0) := st in
  let '(a, b, c, d) := fold_left (round (chunk_words chunk)) (seq 0 64) st in
  (w32 (a0 + a), w32 (b0 + b), w32 (c0 + c), w32 (d0 + d)).

Definition digest (m : list Z) : list Z :=
  let p := pad m in
  let '(a, b, c, d) :=
    fold_left compress (pieces 64 (length p) p)
              (1732584193, 4023233417, 2562383102, 271733878) in
  le_bytes 4 a ++ le_bytes 4 b ++ le_bytes 4 c ++ le_bytes 4 d.

Definition hex_digit (x : Z) : N :=
  if x <? 10 then Z.to_N (48 + x) else Z.to_N (87 + x).

(** [hexdigest()] *)
Definition hexdigest (m : list Z) : pystr :=
  flat_map (fun b => [hex_digit (Z.shiftr b 4); hex_digit (Z.land b 15)])
           (digest m).

End MD5.

(** [s.encode()]: UTF-8; a surrogate code point cannot be encoded and the
    call raises. *)
Definition utf8_cp (c : N) : option (list Z) :=
  let z := Z.of_N c in
  if c <? 128 then Some [z]
  else if c <? 2048 then
    Some [Z.lor 192 (Z.shiftr z 6); Z.lor 128 (Z.land z 63)]
  else if in_range 55296 57343 c then None
  else if c <? 65536 then
    Some [Z.lor 224 (Z.shiftr z 12); Z.lor 128 (Z.land (Z.shiftr z 6) 63);
          Z.lor 128 (Z.land z 63)]
  else
    Some [Z.lor 240 (Z.shiftr z 18); Z.lor 128 (Z.land (Z.shiftr z 12) 63);
          Z.lor 128 (Z.land (Z.shiftr z 6) 63); Z.lor 128 (Z.land z 63)].

Fixpoint encode (s : pystr) : option (list Z) :=
  match s with
  | [] => Some []
  | c :: s' =>
      match utf8_cp c, encode s' with
      | Some bs, Some r => Some (bs ++ r)
      | _, _ => None
      end
  end.

(** [hashlib.md5(hash_input.encode()).hexdigest()]; [None] when [encode]
    raises. *)
Definition md5_hex (hash_input : pystr) : option pystr :=
  option_map MD5.hexdigest (encode hash_input).

(** ** The clock *)

Record datetime := mk_datetime {
  dt_year : nat; dt_month : nat; dt_day : nat;
  dt_hour : nat; dt_minute : nat; dt_second : nat; dt_microsecond : nat }.

(** [n] in decimal on [width] digits, padded with zeros. *)
Fixpoint zero_padded (width n : nat) : pystr :=
  match width with
  | O => []
  | S w => zero_padded w (n / 10) ++ [48 + N.of_nat (n mod 10)]
  end.

Definition month_names : list pystr :=
  List.map py ["January"; "February"; "March"; "April"; "May"; "June"; "July";
               "August"; "September"; "October"; "November"; "December"]%string.

(** [%B] *)
Definition month_name (m : nat) : pystr := nth (m - 1) month_names [].

(** [strftime('%B %d, %Y')] *)
Definition strftime_B_d_Y (t : datetime) : pystr :=
  month_name (dt_month t) ++ py " " ++ zero_padded 2 (dt_day t) ++ py ", "
  ++ zero_padded 4 (dt_year t).

(** [strftime('%Y%m%d')] *)
Definition strftime_Ymd (t : datetime) : pystr :=
  zero_padded 4 (dt_year t) ++ zero_padded 2 (dt_month t)
  ++ zero_padded 2 (dt_day t).

(** [strftime('%B %d, %Y at %H:%M')] *)
Definition strftime_B_d_Y_at_HM (t : datetime) : pystr :=
  strftime_B_d_Y t ++ py " at " ++ zero_padded 2 (dt_hour t) ++ py ":"
  ++ zero_padded 2 (dt_minute t).

(** [strftime('%Y%m%d%H%M')] *)
Definition strftime_YmdHM (t : datetime) : pystr :=
  strftime_Ymd t ++ zero_padded 2 (dt_hour t) ++ zero_padded 2 (dt_minute t).

(** [strftime('%Y%m%d_%H%M%S')] *)
Definition strftime_Ymd_HMS (t : datetime) : pystr :=
  strftime_Ymd t ++ py "_" ++ zero_padded 2 (dt_hour t)
  ++ zero_padded 2 (dt_minute t) ++ zero_padded 2 (dt_second t).

(** [isoformat()] *)
Definition isoformat (t : datetime) : pystr :=
  zero_padded 4 (dt_year t) ++ py "-" ++ zero_padded 2 (dt_month t) ++ py "-"
  ++ zero_padded 2 (dt_day t) ++ py "T" ++ zero_padded 2 (dt_hour t) ++ py ":"
  ++ zero_padded 2 (dt_minute t) ++ py ":" ++ zero_padded 2 (dt_second t)
  ++ (if (dt_microsecond t =? 0)%nat then []
      else py "." ++ zero_padded 6 (dt_microsecond t)).

(** ** The store: the [news] table of the SQLite file *)

Record row := mk_row {
  r_id : N;
  r_title : pystr;
  r_url : pystr;
  r_content : pystr;
  r_summarize : option pystr;
  r_source : pystr;
  r_scraped_date : pystr;
  r_content_hash : option pystr;
  r_created_at : datetime }.

(** The table: its columns (what [PRAGMA table_info] lists), the columns
    declared UNIQUE, its rows in insertion order, and the last id given by
    AUTOINCREMENT. *)
Record table := mk_table {
  t_columns : list string;
  t_unique : list string;
  t_rows : list row;
  t_seq : N }.

(** The [CREATE TABLE] statement of [Agent.py]. *)
Definition fresh_table : table :=
  mk_table ["id"; "title"; "url"; "content"; "summarize"; "source";
            "scraped_date"; "content_hash"; "created_at"]%string
           ["url"; "content_hash"]%string [] 0.

(** The [CREATE TABLE] statement of [AI.py], which writes the same file. *)
Definition legacy_table : table :=
  mk_table ["id"; "title"; "url"; "content"; "source"; "scraped_date";
            "created_at"]%string
           ["url"]%string [] 0.

Definition has_column (c : string) (t : table) : bool :=
  bool_decide (c ∈ t_columns t).

Definition is_unique (c : string) (t : table) : bool :=
  bool_decide (c ∈ t_unique t).

(** [ALTER TABLE news ADD COLUMN c TEXT]: a plain column, NULL in the rows
    already there, and without any constraint. *)
Definition add_column (c : string) (t : table) : table :=
  mk_table (t_columns t ++ [c]) (t_unique t) (t_rows t) (t_seq t).

(** The two [if ... not in columns] repairs. *)
Definition add_missing_columns (t : table) : table :=
  let t := if has_column "summarize" t then t else add_column "summarize" t in
  if has_column "content_hash" t then t else add_column "content_hash" t.

(** The values bound to the seven placeholders of the INSERT. *)
Record fields := mk_fields {
  f_title : pystr; f_url : pystr; f_content : pystr; f_summarize : pystr;
  f_source : pystr; f_scraped_date : pystr; f_content_hash : pystr }.

(** A row already there conflicts with the new values when a UNIQUE column
    holds the same value in both (NULL never conflicts). *)
Definition conflicts (t : table) (new : fields) (old : row) : bool :=
  (is_unique "url" t && str_eqb (r_url old) (f_url new))
  || (is_unique "content_hash" t
      && match r_content_hash old with
         | Some h => str_eqb h (f_content_hash new)
         | None => false
         end).

Definition insert_columns : list string :=
  ["title"; "url"; "content"; "summarize"; "source"; "scraped_date";
   "content_hash"]%string.

(** [INSERT OR REPLACE]: the conflicting rows are deleted, then the new row
    is added under a new id; [None] when the table lacks a named column. *)
Definition insert_or_replace (t : table) (new : fields) (now : datetime)
    : option table :=
  if forallb (fun c => has_column c t) insert_columns then
    let id := t_seq t + 1 in
    Some (mk_table (t_columns t) (t_unique t)
            (List.filter (fun old => negb (conflicts t new old)) (t_rows t)
             ++ [mk_row id (f_title new) (f_url new) (f_content new)
                        (Some (f_summarize new)) (f_source new)
                        (f_scraped_date new) (Some (f_content_hash new)) now])
            id)
  else None.

(** [SELECT id FROM news WHERE content_hash = ?] and [fetchone()]; the outer
    [None] when the table has no such column. *)
Definition select_by_hash (t : table) (h : pystr) : option (option N) :=
  if has_column "content_hash" t then
    Some (option_map r_id
            (List.find (fun r => match r_content_hash r with
                                 | Some h' => str_eqb h' h
                                 | None => false
                                 end) (t_rows t)))
  else None.

(** ** The world around the store *)

(** What the handlers of the store tell apart: an [sqlite3.OperationalError],
    with whether its message holds the words "no such column", and any
    other exception. *)
Inductive exn :=
  | OperationalError (no_such_column : bool)
  | OtherError.

(** The file at [db_path]: absent, or a database with or without the
    [news] table. *)
Inductive db_file :=
  | NoFile
  | DbFile (t : option table).

(** The lines the store writes to the logger. *)
Inductive log_line :=
  | LogDatabaseReady
  | LogDatabaseError
  | LogCreatingFresh
  | LogBackedUp (backup_path : pystr)
  | LogFreshCreated
  | LogFreshFailed
  | LogDuplicateCheckFailed
  | LogAddedColumn (c : string)
  | LogSaved
  | LogColumnMissing
  | LogOperationalError
  | LogSaveError
  | LogFixing.

Record world := mk_world {
  w_db : db_file;
  w_backups : gmap pystr db_file;
  w_tick : nat;
  w_log : list log_line }.

(** What the program cannot decide: at its [n]-th access to the store,
    whether the access raises, and what the clock shows. *)
Record env := mk_env {
  fault_at : nat -> option exn;
  now_at : nat -> datetime }.

Definition db_path : pystr := py "ai_news.db".

Definition now (e : env) (w : world) : datetime := now_at e (w_tick w).

Definition tick (w : world) : world :=
  mk_world (w_db w) (w_backups w) (S (w_tick w)) (w_log w).

Definition set_db (f : db_file) (w : world) : world :=
  mk_world f (w_backups w) (w_tick w) (w_log w).

(** [logger.info], [logger.warning] and [logger.error] *)
Definition log (l : log_line) (w : world) : world :=
  mk_world (w_db w) (w_backups w) (w_tick w) (w_log w ++ [l]).

(** [os.rename(db_path, backup_path)] under [if os.path.exists(db_path)]. *)
Definition rename_aside (backup_path : pystr) (w : world) : world :=
  match w_db w with
  | NoFile => w
  | DbFile _ =>
      log (LogBackedUp backup_path)
          (mk_world NoFile (<[backup_path := w_db w]> (w_backups w))
                    (w_tick w) (w_log w))
  end.

Definition backup_path (t : datetime) : pystr :=
  db_path ++ py ".backup_" ++ strftime_Ymd_HMS t.

(** [create_fresh_database]: each failed attempt calls the function again.
    An [OperationalError] comes from SQLite, so after the rename; any other
    exception is the rename's.  [fuel] bounds the depth of the calls;
    [None] when it does not suffice. *)
Fixpoint create_fresh_database (fuel : nat) (e : env) (w : world)
    : option world :=
  match fuel with
  | O => None
  | S fuel' =>
      let t := now e w in
      let fault := fault_at e (w_tick w) in
      let w := log LogCreatingFresh (tick w) in
      match fault with
      | None =>
          Some (log LogFreshCreated
                  (set_db (DbFile (Some fresh_table))
                          (rename_aside (backup_path t) w)))
      | Some (OperationalError _) =>
          create_fresh_database fuel' e
            (log LogFreshFailed
               (set_db (DbFile None) (rename_aside (backup_path t) w)))
      | Some OtherError => create_fresh_database fuel' e (log LogFreshFailed w)
      end
  end.

(** The table [CREATE TABLE IF NOT EXISTS] leaves. *)
Definition table_or_fresh (f : db_file) : table :=
  match f with
  | DbFile (Some t) => t
  | _ => fresh_table
  end.

(** The [logger.info] of each repair that runs. *)
Definition log_added_columns (t : table) (w : world) : world :=
  let w := if has_column "summarize" t then w
           else log (LogAddedColumn "summarize") w in
  if has_column "content_hash" t then w
  else log (LogAddedColumn "content_hash") w.

(** [init_database], run when the module builds [db]. *)
Definition init_database (fuel : nat) (e : env) (w : world) : option world :=
  let fault := fault_at e (w_tick w) in
  let w := tick w in
  match fault with
  | None =>
      let t := table_or_fresh (w_db w) in
      Some (log LogDatabaseReady
              (set_db (DbFile (Some (add_missing_columns t)))
                      (log_added_columns t w)))
  | Some _ => create_fresh_database fuel e (log LogDatabaseError w)
  end.

(** ** Duplicate detector ([is_duplicate]) *)

(** The [hash_input] of [is_duplicate]; [None] when the [try] block raises
    before the hash: a title or a content that is no string has no
    [lower]. *)
Definition duplicate_hash_input (title content : pyval) : option pystr :=
  let content_snippet :=
    if truthy content then option_map (slice_to 200) (as_str content)
    else Some [] in
  match as_str title, content_snippet with
  | Some t, Some c => Some (strip (lower t) ++ strip (lower c))
  | _, _ => None
  end.

(** The [content_hash] of [is_duplicate]. *)
Definition fingerprint (title content : pyval) : option pystr :=
  match duplicate_hash_input title content with
  | Some hash_input => md5_hex hash_input
  | None => None
  end.

(** How the lookup of a fingerprint ends. *)
Inductive lookup :=
  | Found (id : N)
  | NotFound
  | LookupFailed.

(** The [try] block of [is_duplicate]: hash, connect, SELECT, fetchone. *)
Definition lookup_fingerprint (e : env) (w : world) (title content : pyval)
    : lookup * world :=
  match fingerprint title content with
  | None => (LookupFailed, w)
  | Some h =>
      let fault := fault_at e (w_tick w) in
      let w := tick w in
      match fault, w_db w with
      | Some _, _ => (LookupFailed, w)
      | None, DbFile (Some t) =>
          match select_by_hash t h with
          | Some (Some id) => (Found id, w)
          | Some None => (NotFound, w)
          | None => (LookupFailed, w)
          end
      | None, _ => (LookupFailed, set_db (DbFile None) w)
      end
  end.

(** [return result is not None], and the handler's [return False]. *)
Definition is_duplicate (e : env) (w : world) (title content : pyval)
    : bool * world :=
  let (r, w) := lookup_fingerprint e w title content in
  match r with
  | Found _ => (true, w)
  | NotFound => (false, w)
  | LookupFailed => (false, log LogDuplicateCheckFailed w)
  end.

(** ** Saving ([save_news], [fix_database_and_retry]) *)

(** [clean_text_for_db(v)[:n] if v else dflt] *)
Definition clean_bounded (n : nat) (dflt : pystr) (v : pyval) : pystr :=
  if truthy v then slice_to n (clean_text_for_db v) else dflt.

Definition clean_title (title : pyval) : pystr :=
  clean_bounded 500 (py "AI News Article") title.

Definition clean_content (content : pyval) : pystr :=
  clean_bounded 5000 [] content.

(** The [hash_input] of [save_news]. *)
Definition save_hash_input (title content : pyval) : pystr :=
  let clean_title := clean_title title in
  let clean_content := clean_content content in
  let content_snippet :=
    if negb (length clean_content =? 0)%nat then slice_to 200 clean_content
    else clean_title in
  strip (lower clean_title) ++ strip (lower content_snippet).

(** The [content_hash] of [save_news]; [None] when [encode] raises. *)
Definition save_content_hash (title content : pyval) : option pystr :=
  md5_hex (save_hash_input title content).

(** The tuple bound to the INSERT. *)
Definition save_fields (title url content summarize source : pyval)
    (t : datetime) (content_hash : pystr) : fields :=
  mk_fields (clean_title title)
            (clean_bounded 1000 (py "https://unknown-source.com") url)
            (clean_content content)
            (clean_bounded 500 (py "AI technology news update.") summarize)
            (clean_bounded 200 (py "Unknown Source") source)
            (isoformat t) content_hash.

(** The [try] block of [save_news]: the exception it ends with, if any.
    The columns added by the repairs stay, whatever happens next; a fault
    of the environment strikes at the INSERT. *)
Definition save_attempt (e : env) (w : world)
    (title url content summarize source : pyval) : option exn * world :=
  match save_content_hash title content with
  | None => (Some OtherError, w)
  | Some h =>
      let t_now := now e w in
      let fault := fault_at e (w_tick w) in
      let w := tick w in
      match w_db w with
      | DbFile (Some t) =>
          let w := set_db (DbFile (Some (add_missing_columns t)))
                          (log_added_columns t w) in
          match fault with
          | Some x => (Some x, w)
          | None =>
              match insert_or_replace (add_missing_columns t)
                      (save_fields title url content summarize source t_now h)
                      t_now with
              | Some t' => (None, log LogSaved (set_db (DbFile (Some t')) w))
              | None => (Some (OperationalError false), w)
              end
          end
      | _ => (Some (OperationalError false), set_db (DbFile None) w)
      end
  end.

(** [fix_database_and_retry], with the retried save as [retry]. *)
Definition fix_database_and_retry (retry : world -> option (bool * world))
    (fuel : nat) (e : env) (w : world) : option (bool * world) :=
  match create_fresh_database fuel e (log LogFixing w) with
  | Some w' => retry w'
  | None => None
  end.

(** [save_news]: [True] or [False] and the world it leaves; [None] when
    [fuel] does not suffice for the depth of the calls. *)
Fixpoint save_news (fuel : nat) (e : env) (w : world)
    (title url content summarize source : pyval) : option (bool * world) :=
  match fuel with
  | O => None
  | S fuel' =>
      match save_attempt e w title url content summarize source with
      | (None, w') => Some (true, w')
      | (Some (OperationalError true), w') =>
          fix_database_and_retry
            (fun w'' => save_news fuel' e w'' title url content summarize source)
            fuel' e (log LogColumnMissing w')
      | (Some (OperationalError false), w') =>
          Some (false, log LogOperationalError w')
      | (Some OtherError, w') => Some (false, log LogSaveError w')
      end
  end.

(** How many times a line was logged. *)
Definition logged (sel : log_line -> bool) (w : world) : nat :=
  length (List.filter sel (w_log w)).

Definition is_fixing (l : log_line) : bool :=
  match l with LogFixing => true | _ => false end.

Definition is_creating (l : log_line) : bool :=
  match l with LogCreatingFresh => true | _ => false end.

(** ** Source fallback orchestrator ([search_fresh_ai_news]) *)

Record source := mk_source {
  src_name : pystr; src_url : pystr; src_type : pystr }.

Definition AI_NEWS_SOURCES : list source :=
  [ mk_source (py "TechCrunch AI")
      (py "https://techcrunch.com/category/artificial-intelligence/")
      (py "tech_blog");
    mk_source (py "The Verge AI")
      (py "https://www.theverge.com/ai-artificial-intelligence")
      (py "tech_blog");
    mk_source (py "VentureBeat AI") (py "https://venturebeat.com/ai/")
      (py "tech_blog");
    mk_source (py "AI News") (py "https://artificialintelligence-news.com/")
      (py "ai_focused");
    mk_source (py "MIT Tech Review AI")
      (py "https://www.technologyreview.com/topic/artificial-intelligence/")
      (py "academic");
    mk_source (py "Google AI Search")
      (py "https://www.google.com/search?q=AI+artificial+intelligence+news+today&tbm=nws&tbs=qdr:d")
      (py "search");
    mk_source (py "Bing AI News")
      (py "https://www.bing.com/news/search?q=artificial+intelligence+AI+technology&qft=interval%3d%227%22")
      (py "search") ].

(** The page content fetcher, outside the program: whether the browser
    starts and closes, what [extract_articles_from_source] returns for a
    source (the empty list when the fetch fails), and what
    [get_article_content] returns for a url ([None] when it raises). *)
Record fetcher := mk_fetcher {
  launch_ok : bool;
  listing : source -> list (gmap string pystr);
  full_content : pystr -> option (pystr * pystr);
  close_ok : bool }.

(** The loop over the articles of one source: whether it raised (an
    article without title), and the articles found so far. *)
Fixpoint scan_articles (e : env) (articles : list (gmap string pystr))
    (name : pystr) (found : list (gmap string pystr)) (w : world)
    : bool * list (gmap string pystr) * world :=
  match articles with
  | [] => (false, found, w)
  | article :: rest =>
      match article !! "title"%string with
      | None => (true, found, w)
      | Some title =>
          let (dup, w) := is_duplicate e w (VStr title) (VStr []) in
          let found :=
            if dup then found
            else found ++ [<["source_name"%string := name]> article] in
          if (3 <=? length found)%nat then (false, found, w)
          else scan_articles e rest name found w
      end
  end.

(** The loop over the sources: a source whose loop raised is skipped, and
    the first source after which an article is there ends the search. *)
Fixpoint scan_sources (e : env) (f : fetcher) (sources : list source)
    (found : list (gmap string pystr)) (w : world)
    : list (gmap string pystr) * world :=
  match sources with
  | [] => (found, w)
  | s :: rest =>
      let '(raised, found, w) :=
        scan_articles e (listing f s) (src_name s) found w in
      if raised then scan_sources e f rest found w
      else if (1 <=? length found)%nat then (found, w)
      else scan_sources e f rest found w
  end.

(** The article made up when nothing was found. *)
Definition time_based_article (t : datetime) : gmap string pystr :=
  <["title"%string := py "AI Technology Update - " ++ strftime_B_d_Y t]>
    (<["url"%string := py "https://ai-update.com/" ++ strftime_Ymd t]>
       (<["source_name"%string := py "AI Update Service"]> ∅)).

Definition stock_content (source_name : pystr) : pystr :=
  py "Fresh AI news from " ++ source_name
  ++ py ". This article discusses the latest developments in artificial intelligence technology, including new breakthroughs in machine learning, natural language processing, and AI applications across various industries.".

Definition fallback_content : pystr :=
  [10] ++ py "    The AI industry continues to evolve rapidly with new developments across multiple sectors. " ++ [10]
  ++ py "    Today's highlights include ongoing research in large language models, computer vision breakthroughs, " ++ [10]
  ++ py "    and practical AI applications in healthcare, finance, and education. Major tech companies are " ++ [10]
  ++ py "    investing heavily in AI infrastructure and talent acquisition. The focus remains on developing " ++ [10]
  ++ py "    more efficient, safer, and more capable AI systems that can benefit society while addressing " ++ [10]
  ++ py "    ethical considerations and regulatory requirements." ++ [10]
  ++ py "    ".

Definition fallback_summary : pystr :=
  py "AI industry shows continued growth with new developments in machine learning and practical applications. This progress represents ongoing innovation in artificial intelligence technology.".

Definition fallback_title (t : datetime) : pystr :=
  py "AI Industry Update - " ++ strftime_B_d_Y_at_HM t.

Definition fallback_url (t : datetime) : pystr :=
  py "https://ai-update.com/fallback/" ++ strftime_YmdHM t.

(** [create_fallback_article] *)
Definition create_fallback_article (fuel : nat) (e : env) (w : world)
    : option world :=
  let current_time := now e w in
  option_map snd
    (save_news fuel e w (VStr (fallback_title current_time))
       (VStr (fallback_url current_time)) (VStr (strip fallback_content))
       (VStr fallback_summary) (VStr (py "AI Update Service"))).

(** How the [try] block of the search ends. *)
Inductive outcome :=
  | Done (w : world)
  | Raised (w : world).

(** The part of the [try] block after the loops: select, fetch the
    content, summarize, save, report, close.  A key that the selected
    article lacks raises where it is read: the title when the selection is
    logged, the url at the fetch (inside the inner [try]) and again at the
    save, the source name in the inner handler and in the report of a
    successful save. *)
Definition process_found (fuel : nat) (e : env) (f : fetcher)
    (found : list (gmap string pystr)) (w : world) : option outcome :=
  let found := match found with
               | [] => [time_based_article (now e w)]
               | _ :: _ => found
               end in
  match found with
  | [] => Some (Raised w)
  | selected :: _ =>
      match selected !! "title"%string with
      | None => Some (Raised w)
      | Some title =>
          let fetched :=
            match selected !! "url"%string with
            | Some url => full_content f url
            | None => None
            end in
          let fetched :=
            match fetched with
            | Some p => Some p
            | None =>
                option_map (fun source_name =>
                              (stock_content source_name, source_name))
                           (selected !! "source_name"%string)
            end in
          match fetched with
          | None => Some (Raised w)
          | Some (content, source) =>
              let content := slice_to 3000 (clean_text_for_db (VStr content)) in
              match create_crispy_summary (VStr title) (VStr content),
                    selected !! "url"%string with
              | Some summary, Some url =>
                  match save_news fuel e w (VStr title) (VStr url)
                                  (VStr content) (VStr summary) (VStr source) with
                  | Some (success, w') =>
                      if success && negb (bool_decide (is_Some (selected !! "source_name"%string)))
                      then Some (Raised w')
                      else Some (if close_ok f then Done w' else Raised w')
                  | None => None
                  end
              | _, _ => Some (Raised w)
              end
          end
      end
  end.

(** [search_fresh_ai_news]: any exception of the [try] block leads to
    [create_fallback_article]. *)
Definition search_fresh_ai_news (fuel : nat) (e : env) (f : fetcher)
    (w : world) : option world :=
  if launch_ok f then
    let (found, w) := scan_sources e f AI_NEWS_SOURCES [] w in
    match process_found fuel e f found w with
    | Some (Done w') => Some w'
    | Some (Raised w') => create_fallback_article fuel e w'
    | None => None
    end
  else create_fallback_article fuel e w.

(** The rows of the store, none when there is no table. *)
Definition stored (w : world) : list row :=
  match w_db w with
  | DbFile (Some t) => t_rows t
  | _ => []
  end.

(** ** The store as [AI.py] uses it *)

Module AI.

(** The table [CREATE TABLE IF NOT EXISTS] of [AI.py] leaves. *)
Definition table_or_legacy (f : db_file) : table :=
  match f with
  | DbFile (Some t) => t
  | _ => legacy_table
  end.

(** [init_database] of [AI.py]: the handler only logs. *)
Definition init_database (e : env) (w : world) : world :=
  let fault := fault_at e (w_tick w) in
  let w := tick w in
  match fault with
  | None =>
      log LogDatabaseReady
          (set_db (DbFile (Some (table_or_legacy (w_db w)))) w)
  | Some _ => log LogDatabaseError w
  end.

Definition insert_columns : list string :=
  ["title"; "url"; "content"; "source"; "scraped_date"]%string.

(** [INSERT OR REPLACE INTO news (title, url, content, source,
    scraped_date)]: the columns the statement does not name are NULL in the
    new row, and a NULL never conflicts. *)
Definition insert_or_replace (t : table)
    (title url content source scraped_date : pystr) (now : datetime)
    : option table :=
  if forallb (fun c => has_column c t) insert_columns then
    let id := t_seq t + 1 in
    Some (mk_table (t_columns t) (t_unique t)
            (List.filter
               (fun old => negb (is_unique "url" t && str_eqb (r_url old) url))
               (t_rows t)
             ++ [mk_row id title url content None source scraped_date None now])
            id)
  else None.

(** [save_news] of [AI.py], on strings: the values are bound as they are.
    Binding a string encodes it, which raises on a surrogate. *)
Definition save_news (e : env) (w : world) (title url content source : pystr)
    : bool * world :=
  let t_now := now e w in
  let fault := fault_at e (w_tick w) in
  let w := tick w in
  match fault, w_db w with
  | Some _, _ => (false, log LogSaveError w)
  | None, DbFile (Some t) =>
      match encode (title ++ url ++ content ++ source),
            insert_or_replace t title url content source (isoformat t_now)
                              t_now with
      | Some _, Some t' => (true, log LogSaved (set_db (DbFile (Some t')) w))
      | _, _ => (false, log LogSaveError w)
      end
  | None, _ => (false, log LogSaveError (set_db (DbFile None) w))
  end.

(** The [trending_sources] of [search_trending_ai_news]; [src_type] holds
    the strategy. *)
Definition trending_sources : list source :=
  [ mk_source (py "Google News - AI Trending")
      (py "https://news.google.com/search?q=AI%20artificial%20intelligence%20latest%20breaking&hl=en-US&gl=US&ceid=US%3Aen")
      (py "google_news");
    mk_source (py "TechCrunch AI - Latest")
      (py "https://techcrunch.com/category/artificial-intelligence/")
      (py "techcrunch");
    mk_source (py "Google Search - Today's AI News")
      (py "https://www.google.com/search?q=" ++ [34] ++ py "AI+news" ++ [34]
       ++ py "+OR+" ++ [34] ++ py "artificial+intelligence" ++ [34]
       ++ py "+today+breaking+latest&tbm=nws&tbs=qdr:d")
      (py "google_search") ].

(** The browser, outside the program: whether it starts, what the extractor
    of a source returns ([None] when it returns [None] or when loading the
    page raises), and the text and the host name of the page at a url
    ([None] when loading or reading it raises). *)
Record browser := mk_browser {
  launch_ok : bool;
  extract : source -> option (gmap string pystr);
  page_text : pystr -> option (pystr * pystr) }.

(** An article with the number under its key [trending_score]. *)
Record scored := mk_scored {
  s_article : gmap string pystr;
  s_score : Z }.

(** One turn of the loop over the sources, on the article the extractor
    returned. *)
Definition consider (name : pystr) (article : option (gmap string pystr))
    (best_article : option scored) : option scored :=
  match article with
  | None => best_article
  | Some article =>
      if bool_decide (article = ∅) then best_article
      else
        let article := <["source_type"%string := name]> article in
        let score := calculate_trending_score article in
        match best_article with
        | None => Some (mk_scored article score)
        | Some best =>
            if (s_score best <? score)%Z then Some (mk_scored article score)
            else best_article
        end
  end.

(** The loop over the sources. *)
Definition best_of (b : browser) (sources : list source) (best_article : option scored)
    : option scored :=
  fold_left (fun best s => consider (src_name s) (extract b s) best)
            sources best_article.

(** [content[:3000] + "..."] under [if len(content) > 3000]. *)
Definition limit_content (content : pystr) : pystr :=
  if (3000 <? length content)%nat then slice_to 3000 content ++ py "..."
  else content.

Definition extraction_failed (article : gmap string pystr) : pystr :=
  py "Trending AI article from "
  ++ default (py "unknown source") (article !! "source"%string)
  ++ py ". Full content extraction failed.".

(** [get_full_article_content]; [None] when it raises: the title is read
    before the [try] block.  The entry [content_extracted], which nothing
    reads, is left out. *)
Definition get_full_article_content (b : browser)
    (article : gmap string pystr) : option (gmap string pystr) :=
  match article !! "title"%string with
  | None => None
  | Some _ =>
      let page := match article !! "url"%string with
                  | Some url => page_text b url
                  | None => None
                  end in
      Some match page with
           | Some (content, source) =>
               <["source"%string := source]>
                 (<["content"%string := limit_content content]> article)
           | None =>
               <["content"%string := extraction_failed article]> article
           end
  end.

(** [search_trending_ai_news]: without an article, and on any exception,
    the function returns and the store is as it was. *)
Definition search_trending_ai_news (e : env) (b : browser) (w : world)
    : world :=
  if launch_ok b then
    match best_of b trending_sources None with
    | None => w
    | Some best =>
        match get_full_article_content b (s_article best) with
        | None => w
        | Some article =>
            match article !! "title"%string, article !! "url"%string with
            | Some title, Some url =>
                snd (save_news e w title url (dict_get article "content")
                       (default (py "Unknown") (article !! "source"%string)))
            | _, _ => w
            end
        end
    end
  else w.

End AI.

(** ** Notions used in the statements *)

(** The keywords of [keys] that occur in [title]. *)
Definition matched (keys : list pystr) (title : pystr) : list pystr :=
  List.filter (fun k => contains k title) keys.

(** The two titles the specification compares. *)
Definition headline_a : pystr := py "Breaking: OpenAI announces GPT breakthrough".

Definition headline_b : pystr := py "OpenAI update".

(** The title the function works on. *)
Definition title_or_default (title : pystr) : pystr :=
  if (length title =? 0)%nat then py "AI News Update" else title.

(** The row carries the hash [h]. *)
Definition hash_is (h : pystr) (r : row) : bool :=
  match r_content_hash r with
  | Some h' => str_eqb h' h
  | None => false
  end.

(** The table, if there is one, declares [url] UNIQUE, as both
    [CREATE TABLE] statements of the repository do. *)
Definition url_constraint (w : world) : Prop :=
  match w_db w with
  | DbFile (Some t) => is_unique "url" t = true
  | _ => True
  end.

(** The table, if there is one, declares [content_hash] UNIQUE. *)
Definition hash_constraint (w : world) : Prop :=
  match w_db w with
  | DbFile (Some t) => is_unique "content_hash" t = true
  | _ => True
  end.

(** A property of the file at [db_path] that the fresh table has and that
    adding a column keeps. *)
Definition kept_by_repairs (P : option table -> Prop) : Prop :=
  P None /\ P (Some fresh_table)
  /\ (forall t, P (Some t) -> P (Some (add_missing_columns t)))
  /\ (forall t t' f d, P (Some t) -> insert_or_replace t f d = Some t' -> P (Some t')).

(** [P] holds of the database file of [w], if there is one. *)
Definition on_db (P : option table -> Prop) (w : world) : Prop :=
  match w_db w with
  | DbFile t => P t
  | NoFile => True
  end.

(** The rows whose url is [u]. *)
Definition rows_with_url (u : pystr) (w : world) : list row :=
  List.filter (fun r => str_eqb (r_url r) u) (stored w).

(** The rows whose content_hash is [h]. *)
Definition rows_with_hash (h : pystr) (w : world) : list row :=
  List.filter (hash_is h) (stored w).

(** The [clean_url] of [save_news]. *)
Definition clean_url (url : pyval) : pystr :=
  clean_bounded 1000 (py "https://unknown-source.com") url.

(** A clock reading for the examples. *)
Definition noon : datetime := mk_datetime 2026 11 3 12 0 0 0.

(** No access to the store ever fails. *)
Definition calm : env := mk_env (fun _ => None) (fun _ => noon).

(** The first [n] saves fail for a missing column; each repair between two
    of them succeeds. *)
Definition storm (n : nat) : env :=
  mk_env (fun k => if (k <? 2 * n)%nat && Nat.even k
                   then Some (OperationalError true) else None)
         (fun _ => noon).

(** The first [n] accesses fail outside SQLite. *)
Definition gale (n : nat) : env :=
  mk_env (fun k => if (k <? n)%nat then Some OtherError else None)
         (fun _ => noon).

(** The file as [Agent.py] creates it, before any save. *)
Definition fresh_world : world :=
  mk_world (DbFile (Some fresh_table)) ∅ 0 [].

(** The file as [AI.py] leaves it. *)
Definition legacy_world : world :=
  mk_world (DbFile (Some legacy_table)) ∅ 0 [].

(** The table has, once repaired, every column the INSERT names. *)
Definition insertable (t : table) : bool :=
  forallb (fun c => has_column c (add_missing_columns t)) insert_columns.

(** The faults of [n] rounds from the tick of [w] on: each save fails for
    a missing column and each repair succeeds at once; then the save goes
    through. *)
Definition rounds (e : env) (w : world) (n : nat) : Prop :=
  (forall i, (i < n)%nat ->
     fault_at e (w_tick w + 2 * i)%nat = Some (OperationalError true)
     /\ fault_at e (w_tick w + 2 * i + 1)%nat = None)
  /\ fault_at e (w_tick w + 2 * n)%nat = None.

(** An article to save in the examples. *)
Definition sample_title : pyval := VStr (py "OpenAI update").

Definition sample_content : pyval := VStr (py "OpenAI shipped an update today.").

Definition sample_summary : pyval := VStr (py "OpenAI has introduced new AI technology.").

Definition sample_source : pyval := VStr (py "example.com").

Definition sample_url : pyval := VStr (py "https://example.com/a").

Definition other_url : pyval := VStr (py "https://example.org/b").

Definition other_title : pyval := VStr (py "OpenAI update, revised").

(** The world a save leaves, when it returns. *)
Definition after_save (fuel : nat) (e : env) (w : world)
    (title url content summarize source : pyval) : world :=
  match save_news fuel e w title url content summarize source with
  | Some (_, w') => w'
  | None => w
  end.

(** The store after [init_database] found the table of [AI.py], and two
    saves of the same text under two urls. *)
Definition migrated_twice : option world :=
  match init_database 1 calm legacy_world with
  | Some w0 =>
      match save_news 1 calm w0 sample_title sample_url sample_content
                      sample_summary sample_source with
      | Some (true, w1) =>
          option_map snd
            (save_news 1 calm w1 sample_title other_url sample_content
                       sample_summary sample_source)
      | _ => None
      end
  | None => None
  end.

(** A word: a run of characters that are no whitespace. *)
Definition word (w : pystr) : Prop :=
  w <> [] /\ Forall (fun c => is_space c = false) w.

(** The key of seven characters in the [replacements] table. *)
Definition replacement_key : pystr := [58; 32; 34; 39; 34; 44; 32].

(** A character the steps before the split leave in place. *)
Definition settled (c : N) : Prop :=
  is_control c = false /\ c <> 8211 /\ c <> 8212 /\ c <> 8230.

(** A character no step touches: no whitespace, no control character, no
    double quote, no dash and no ellipsis of the table. *)
Definition plain (c : N) : bool :=
  negb (is_space c) && negb (is_control c) && negb (c =? 34)
  && negb (c =? 8211) && negb (c =? 8212) && negb (c =? 8230).

(** The hash input as the specification words it: the normalized title
    and the first 200 characters of the normalized content, lower-cased,
    before any field bound. *)
Definition spec_hash_input (title content : pyval) : pystr :=
  strip (lower (clean_text_for_db title))
  ++ strip (lower (slice_to 200 (clean_text_for_db content))).

(** A title of 501 characters. *)
Definition long_title : pyval := VStr (List.repeat 97 501).

(** A character [encode] accepts: no surrogate. *)
Definition encodable (c : N) : bool := negb (in_range 55296 57343 c).

(** A plain character of the ASCII range. *)
Definition plain_ascii (c : N) : bool := plain c && (c <? 128).

(** A word of plain ASCII characters. *)
Definition plain_word (w : pystr) : Prop :=
  w <> [] /\ Forall (fun c => plain_ascii c = true) w.

(** A fetcher for which every source fails, and the page of the article
    too. *)
Definition dead_fetcher : fetcher :=
  mk_fetcher true (fun _ => []) (fun _ => None) true.

(** The month of a [datetime] object is one of the twelve. *)
Definition valid_date (t : datetime) : Prop :=
  (1 <= dt_month t <= 12)%nat.

(** The table has every column the INSERT names, as after
    [init_database]. *)
Definition initialised (t : table) : Prop :=
  forallb (fun c => has_column c t) insert_columns = true.

(** An article the store has already: a row carries the fingerprint of its
    title. *)
Definition seen (t : table) (article : gmap string pystr) : Prop :=
  exists title h r,
    article !! "title"%string = Some title
    /\ fingerprint (VStr title) (VStr []) = Some h
    /\ r ∈ t_rows t /\ r_content_hash r = Some h.

(** ** Further notions used in the statements *)

(** The urls of the rows are pairwise distinct, under a UNIQUE url. *)
Definition distinct_urls (o : option table) : Prop :=
  match o with
  | Some t => is_unique "url" t = true /\ NoDup (List.map r_url (t_rows t))
  | None => True
  end.

(** The hashes that are not NULL are pairwise distinct, under a UNIQUE
    content_hash. *)
Definition distinct_hashes (o : option table) : Prop :=
  match o with
  | Some t =>
      is_unique "content_hash" t = true /\ NoDup (omap r_content_hash (t_rows t))
  | None => True
  end.


(** No row carries the fingerprint of the title. *)
Definition unseen (t : table) (title : pystr) : Prop :=
  forall h r, fingerprint (VStr title) (VStr []) = Some h ->
              r ∈ t_rows t -> r_content_hash r <> Some h.

(** An article as the page script returns it: a title and a url. *)
Definition listed (title url : pystr) : gmap string pystr :=
  <["title"%string := title]> (<["url"%string := url]> ∅).

(** A fetcher for which every source lists the same article, and every
    page gives the same text. *)
Definition one_article_fetcher : fetcher :=
  mk_fetcher true
    (fun _ => [listed (py "OpenAI update") (py "https://example.com/a")])
    (fun _ => Some (py "OpenAI shipped an update today.", py "example.com"))
    true.

(** An article the loop can put on its list: it has a title, and the name
    of its source. *)
Definition collected (article : gmap string pystr) : Prop :=
  is_Some (article !! "title"%string)
  /\ is_Some (article !! "source_name"%string).

(** What a source contributes to the choice of [search_trending_ai_news]:
    its article with its score, when the extractor returned one. *)
Definition trending_candidate (b : AI.browser) (s : source)
    : option AI.scored :=
  AI.consider (src_name s) (AI.extract b s) None.

(** A browser whose every source gives the same article, and every page
    the same text. *)
Definition one_article_browser : AI.browser :=
  AI.mk_browser true
    (fun _ => Some (<["source"%string := py "TechCrunch"]>
                      (listed (py "OpenAI update") (py "https://example.com/a"))))
    (fun _ => Some (py "OpenAI shipped an update today.", py "example.com")).

(** * Properties *)

(** ** Trending scorer *)

Section Scorer.

Local Open Scope Z_scope.

Lemma score_keywords_count points keys title score :
  score_keywords points keys title score
  = score + points * Z.of_nat (length (matched keys title)).
Proof.
  unfold score_keywords, matched.
  revert score; induction keys as [|k keys IH]; intros score; simpl.
  - lia.
  - rewrite IH. destruct (contains k title); simpl length; lia.
Qed.

Lemma keyword_tables_distinct :
  NoDup trending_keywords /\ NoDup ai_companies /\ NoDup hot_topics.
Proof.
  repeat split; apply (bool_decide_unpack _); vm_compute; reflexivity.
Qed.

Lemma matched_NoDup keys title : NoDup keys -> NoDup (matched keys title).
Proof.
  intros H. unfold matched. induction H as [|k keys Hk _ IH]; simpl.
  - constructor.
  - destruct (contains k title); [|exact IH].
    constructor; [|exact IH].
    rewrite list_elem_of_In, filter_In, <- list_elem_of_In. tauto.
Qed.

Lemma score_of_title (t : pystr) (article : gmap string pystr) :
  calculate_trending_score (<["title"%string := t]> article)
  = 20 * Z.of_nat (length (matched trending_keywords (lower t)))
    + 15 * Z.of_nat (length (matched ai_companies (lower t)))
    + 10 * Z.of_nat (length (matched hot_topics (lower t)))
    + source_bonus (lower (dict_get article "source")).
Proof.
  unfold calculate_trending_score, dict_get.
  rewrite lookup_insert_eq, lookup_insert_ne by done.
  rewrite !score_keywords_count.
  change (default [] (Some t)) with t. lia.
Qed.

Lemma score_of_counts (t : pystr) (article : gmap string pystr) a b c :
  length (matched trending_keywords (lower t)) = a ->
  length (matched ai_companies (lower t)) = b ->
  length (matched hot_topics (lower t)) = c ->
  calculate_trending_score (<["title"%string := t]> article)
  = 20 * Z.of_nat a + 15 * Z.of_nat b + 10 * Z.of_nat c
    + source_bonus (lower (dict_get article "source")).
Proof. intros <- <- <-. apply score_of_title. Qed.

(** C8: the score is 20 per trending keyword present, 15 per company
    present and 10 per hot topic present, plus the source bonus; a keyword
    of the three fixed tables is counted once however often it occurs; and
    with the same source, the title "Breaking: OpenAI announces GPT
    breakthrough" scores strictly more than "OpenAI update". *)
Theorem trending_score_additive :
  (forall article : gmap string pystr,
     let title := lower (dict_get article "title") in
     calculate_trending_score article
     = 20 * Z.of_nat (length (matched trending_keywords title))
       + 15 * Z.of_nat (length (matched ai_companies title))
       + 10 * Z.of_nat (length (matched hot_topics title))
       + source_bonus (lower (dict_get article "source"))
     /\ NoDup (matched trending_keywords title)
     /\ NoDup (matched ai_companies title)
     /\ NoDup (matched hot_topics title))
  /\ (forall article : gmap string pystr,
        calculate_trending_score
          (<["title"%string := py "Breaking breaking BREAKING"]> article)
        = calculate_trending_score
            (<["title"%string := py "breaking"]> article))
  /\ (forall article : gmap string pystr,
        calculate_trending_score (<["title"%string := headline_a]> article)
        > calculate_trending_score (<["title"%string := headline_b]> article)).
Proof.
  destruct keyword_tables_distinct as (D1 & D2 & D3).
  split; [|split].
  - intros article title. split; [|auto using matched_NoDup].
    unfold calculate_trending_score. rewrite !score_keywords_count.
    subst title. lia.
  - intros article.
    rewrite (score_of_counts (py "Breaking breaking BREAKING") article 1 0 0)
      by (vm_compute; reflexivity).
    rewrite (score_of_counts (py "breaking") article 1 0 0)
      by (vm_compute; reflexivity).
    reflexivity.
  - intros article.
    rewrite (score_of_counts headline_a article 3 1 1)
      by (vm_compute; reflexivity).
    rewrite (score_of_counts headline_b article 1 1 0)
      by (vm_compute; reflexivity).
    lia.
Qed.

End Scorer.

(** ** Summary synthesizer *)

Section Summary.

Local Open Scope nat_scope.

Lemma first_match_length test f dflt keys n :
  length dflt <= n ->
  Forall (fun k => length (f k) <= n) keys ->
  length (first_match test f dflt keys) <= n.
Proof.
  intros Hd Hk. unfold first_match.
  destruct (List.find test keys) as [k|] eqn:E; [|exact Hd].
  apply find_some in E as [Hin _].
  rewrite Forall_forall in Hk. apply Hk. by apply list_elem_of_In.
Qed.

Lemma company_name_length :
  Forall (fun k => length (company_name k) <= 14) companies.
Proof. apply (bool_decide_unpack _). vm_compute. reflexivity. Qed.

Lemma past_tense_length :
  Forall (fun k => length (past_tense k) <= 10) actions.
Proof. apply (bool_decide_unpack _). vm_compute. reflexivity. Qed.

Lemma topic_phrase_length :
  Forall (fun k => length (topic_phrase k) <= 29) ai_topics.
Proof. apply (bool_decide_unpack _). vm_compute. reflexivity. Qed.

Lemma impact_sentence_length title_lower :
  length (impact_sentence title_lower) <= 71.
Proof.
  unfold impact_sentence.
  repeat (match goal with |- context [any_in ?l ?t] => destruct (any_in l t) end);
    vm_compute; lia.
Qed.

(** The sentence built from the templates never reaches the 200 characters
    at which the final slice would cut. *)
Lemma summary_text_length title content :
  length (summary_text title content) <= 136.
Proof.
  unfold summary_text. cbv zeta.
  rewrite !length_app.
  pose proof (impact_sentence_length (lower title)).
  pose proof (first_match_length
    (fun comp => contains comp (lower title) || contains comp (lower content))
    company_name (py "A tech company") companies 14
    ltac:(vm_compute; lia) company_name_length).
  pose proof (first_match_length
    (fun act => contains act (lower title))
    past_tense (py "introduced") actions 10
    ltac:(vm_compute; lia) past_tense_length).
  pose proof (first_match_length
    (fun t => contains t (lower title) || contains t (lower content))
    topic_phrase (py "AI technology") ai_topics 29
    ltac:(vm_compute; lia) topic_phrase_length).
  change (length (py " has ")) with 5.
  change (length (py " new ")) with 5.
  change (length (py ". ")) with 2.
  lia.
Qed.

Lemma truncate_summary_short s :
  length s <= 200 -> truncate_summary s = s.
Proof.
  intros H. unfold truncate_summary.
  destruct (Nat.ltb_spec 200 (length s)); [lia|reflexivity].
Qed.

Lemma startswith_app p s : startswith p (p ++ s) = true.
Proof.
  induction p as [|c p IH]; simpl; [reflexivity|].
  by rewrite N.eqb_refl, IH.
Qed.

Lemma endswith_app p s : endswith p (s ++ p) = true.
Proof. unfold endswith. rewrite rev_app_distr. apply startswith_app. Qed.

(** What the cutting branch gives, were it ever taken: the ellipsis after
    the first 200 characters. *)
Lemma truncate_summary_long s :
  200 < length s ->
  truncate_summary s = slice_to 200 s ++ py "..."
  /\ endswith (py "...") (truncate_summary s) = true
  /\ length (truncate_summary s) = 203.
Proof.
  intros H. unfold truncate_summary.
  destruct (Nat.ltb_spec 200 (length s)); [|lia].
  split; [reflexivity|]. split; [apply endswith_app|].
  unfold slice_to. rewrite length_app, length_take.
  change (length (py "...")) with 3. lia.
Qed.

Lemma create_crispy_summary_str (title content : pystr) :
  create_crispy_summary (VStr title) (VStr content)
  = Some (truncate_summary (summary_text (title_or_default title) content)).
Proof.
  unfold create_crispy_summary, title_or_default.
  destruct title as [|a t], content as [|b c]; reflexivity.
Qed.

(** C2: for every title and content, the summary returned is at most 200
    characters long; when the final slice cuts, the result ends with the
    ellipsis, and otherwise it is the composed sentence itself. *)
Theorem summary_at_most_200 (title content : pystr) :
  let summary := summary_text (title_or_default title) content in
  create_crispy_summary (VStr title) (VStr content)
  = Some (truncate_summary summary)
  /\ length (truncate_summary summary) <= 200
  /\ (if 200 <? length summary
      then endswith (py "...") (truncate_summary summary) = true
      else truncate_summary summary = summary).
Proof.
  intros summary.
  pose proof (summary_text_length (title_or_default title) content) as Hlen.
  fold summary in Hlen.
  split; [apply create_crispy_summary_str|]. split.
  - rewrite truncate_summary_short; lia.
  - destruct (Nat.ltb_spec 200 (length summary)); [lia|].
    apply truncate_summary_short; lia.
Qed.

(** Whatever the arguments, a summary that is returned is at most 200
    characters long; the call raises only for a title that is no string
    and whose [str()] raises. *)
Lemma create_crispy_summary_any (title content : pyval) :
  match create_crispy_summary title content with
  | Some s => length s <= 200
  | None => truthy title = true /\ py_str title = None
  end.
Proof.
  assert (Hfb : forall t : pyval,
    match summary_fallback t with
    | Some s => length s <= 200
    | None => py_str t = None
    end).
  { intros t. unfold summary_fallback. destruct (py_str t) as [r|]; [|done].
    rewrite !length_app. unfold slice_to. rewrite length_take.
    change (length (py "Latest AI technology update: ")) with 29.
    change (length (py ". This represents new progress in artificial intelligence.")) with 58.
    lia. }
  assert (Hok : forall t c, length (truncate_summary (summary_text t c)) <= 200).
  { intros t c. pose proof (summary_text_length t c).
    rewrite truncate_summary_short; lia. }
  unfold create_crispy_summary.
  destruct title as [|[|a t]|[] tr]; destruct content as [|[|b c]|[] cr];
    cbn [truthy as_str length Nat.eqb negb];
    try apply Hok;
    lazymatch goal with
    | |- context [summary_fallback ?v] =>
        pose proof (Hfb v) as H; destruct (summary_fallback v);
        [exact H | try (split; [reflexivity | exact H])]
    end.
  all: vm_compute in H; discriminate.
Qed.

End Summary.

(** ** The store *)

Lemma str_eqb_eq a b : str_eqb a b = true <-> a = b.
Proof.
  revert b; induction a as [|x a IH]; intros [|y b]; simpl; try done.
  rewrite andb_true_iff, N.eqb_eq, IH. split.
  - intros [-> ->]; reflexivity.
  - intros [= -> ->]; done.
Qed.

Lemma str_eqb_refl a : str_eqb a a = true.
Proof. by apply str_eqb_eq. Qed.

Section Store.

Local Open Scope nat_scope.

(** *** The duplicate check *)

Lemma select_by_hash_found t h id :
  select_by_hash t h = Some (Some id) ->
  exists r, r ∈ t_rows t /\ r_content_hash r = Some h /\ r_id r = id.
Proof.
  unfold select_by_hash. destruct (has_column _ t); [|done].
  destruct (List.find _ (t_rows t)) as [r|] eqn:E; [|done].
  intros [= <-]. apply find_some in E as [Hin Hh].
  exists r. split; [by apply list_elem_of_In|]. split; [|done].
  destruct (r_content_hash r) as [h'|]; [|done].
  by apply str_eqb_eq in Hh as ->.
Qed.

Lemma select_by_hash_present t h r :
  has_column "content_hash" t = true ->
  r ∈ t_rows t -> r_content_hash r = Some h ->
  exists id, select_by_hash t h = Some (Some id).
Proof.
  intros Hc Hin Hh. unfold select_by_hash. rewrite Hc.
  destruct (List.find _ (t_rows t)) as [r'|] eqn:E; [by eexists|].
  apply list_elem_of_In in Hin.
  pose proof (find_none _ _ E r Hin) as Hn. simpl in Hn.
  rewrite Hh, str_eqb_refl in Hn. done.
Qed.

(** C9: [is_duplicate] answers true exactly when the lookup went through
    and a stored row carries the fingerprint; whenever the lookup fails,
    for a value without string methods, a fingerprint that cannot be
    encoded, a fault of the store, a missing table or a missing column, the
    answer is false. *)
Theorem is_duplicate_fail_open (e : env) (w : world) (title content : pyval) :
  (fst (is_duplicate e w title content) = true <->
   exists t h r,
     fingerprint title content = Some h /\ fault_at e (w_tick w) = None
     /\ w_db w = DbFile (Some t) /\ has_column "content_hash" t = true
     /\ r ∈ t_rows t /\ r_content_hash r = Some h)
  /\ (fst (lookup_fingerprint e w title content) = LookupFailed ->
      fst (is_duplicate e w title content) = false)
  /\ (fingerprint title content = None
      \/ fault_at e (w_tick w) <> None
      \/ (forall t, w_db w <> DbFile (Some t))
      \/ (exists t, w_db w = DbFile (Some t)
                    /\ has_column "content_hash" t = false) ->
      fst (lookup_fingerprint e w title content) = LookupFailed).
Proof.
  unfold is_duplicate, lookup_fingerprint.
  destruct (fingerprint title content) as [h|] eqn:Hf; simpl.
  2:{ split; [|split]; try done.
      split; [done|]. intros (t & h & r & ? & _); done. }
  destruct (fault_at e (w_tick w)) as [x|] eqn:Hx; simpl.
  { split; [|split]; try done.
    split; [done|]. intros (t & h' & r & _ & ? & _); done. }
  destruct (w_db w) as [|[t|]] eqn:Hdb; simpl.
  - split; [|split]; try done.
    split; [done|]. intros (t & h' & r & _ & _ & ? & _); done.
  - destruct (select_by_hash t h) as [[id|]|] eqn:Hs; simpl.
    + split; [|split]; try done.
      * split; [|done]. intros _.
        assert (has_column "content_hash" t = true) as Hc.
        { unfold select_by_hash in Hs. by destruct (has_column _ t). }
        apply select_by_hash_found in Hs as (r & Hin & Hh & _).
        exists t, h, r. done.
      * intros [?|[?|[H|(t' & [= <-] & Hc)]]]; try done.
        -- by destruct (H t).
        -- unfold select_by_hash in Hs. rewrite Hc in Hs. done.
    + split; [|split]; try done.
      * split; [done|]. intros (t' & h' & r & [= <-] & _ & [= <-] & Hc & Hin & Hh).
        destruct (select_by_hash_present t h r Hc Hin Hh) as [id Hid].
        congruence.
      * intros [?|[?|[H|(t' & [= <-] & Hc)]]]; try done.
        -- by destruct (H t).
        -- unfold select_by_hash in Hs. rewrite Hc in Hs. done.
    + split; [|split]; try done.
      split; [done|]. intros (t' & h' & r & [= <-] & _ & [= <-] & Hc & _).
      unfold select_by_hash in Hs. rewrite Hc in Hs. done.
  - split; [|split]; try done.
    split; [done|]. intros (t & h' & r & _ & _ & ? & _); done.
Qed.

End Store.

Section Saving.

Local Open Scope nat_scope.

(** *** Saving *)

Lemma add_missing_columns_unique t :
  t_unique (add_missing_columns t) = t_unique t.
Proof.
  unfold add_missing_columns.
  destruct (has_column "summarize" t);
    match goal with |- context [has_column "content_hash" ?u] =>
      destruct (has_column "content_hash" u) end; reflexivity.
Qed.

Lemma add_missing_columns_rows t :
  t_rows (add_missing_columns t) = t_rows t.
Proof.
  unfold add_missing_columns.
  destruct (has_column "summarize" t);
    match goal with |- context [has_column "content_hash" ?u] =>
      destruct (has_column "content_hash" u) end; reflexivity.
Qed.

Lemma insert_or_replace_inv t f d t' :
  insert_or_replace t f d = Some t' ->
  t_unique t' = t_unique t
  /\ t_columns t' = t_columns t
  /\ t_rows t'
     = List.filter (fun old => negb (conflicts t f old)) (t_rows t)
       ++ [mk_row (t_seq t + 1)%N (f_title f) (f_url f) (f_content f)
                  (Some (f_summarize f)) (f_source f) (f_scraped_date f)
                  (Some (f_content_hash f)) d].
Proof.
  unfold insert_or_replace. destruct (forallb _ _); [|done].
  intros [= <-]. done.
Qed.

Lemma unique_kept c :
  kept_by_repairs (fun o => match o with
                            | Some t => is_unique c t = true
                            | None => True
                            end)
  <-> is_unique c fresh_table = true.
Proof.
  split; [intros (_ & H & _); exact H|]. intros H.
  split; [done|]. split; [done|]. split.
  - intros t. unfold is_unique. by rewrite add_missing_columns_unique.
  - intros t t' f d Ht Hi. apply insert_or_replace_inv in Hi as (Hu & _).
    unfold is_unique in *. by rewrite Hu.
Qed.

Lemma on_db_log P l w : on_db P (log l w) <-> on_db P w.
Proof. done. Qed.

Lemma on_db_tick P w : on_db P (tick w) <-> on_db P w.
Proof. done. Qed.

Lemma on_db_rename P p w : P None -> on_db P w -> on_db P (rename_aside p w).
Proof. intros H0 H. unfold rename_aside. by destruct (w_db w). Qed.

Lemma create_fresh_database_keeps P fuel e w w' :
  kept_by_repairs P -> on_db P w ->
  create_fresh_database fuel e w = Some w' ->
  w_db w' = DbFile (Some fresh_table).
Proof.
  intros HP. revert w. induction fuel as [|fuel IH]; intros w Hw; [done|].
  simpl. destruct (fault_at e (w_tick w)) as [[b|]|].
  - apply IH. destruct HP as (H0 & _). exact H0.
  - apply IH. exact Hw.
  - intros [= <-]. reflexivity.
Qed.

Lemma save_attempt_keeps P e w title url content summarize source x w' :
  kept_by_repairs P -> on_db P w ->
  save_attempt e w title url content summarize source = (x, w') ->
  on_db P w'.
Proof.
  intros (H0 & Hf & Ha & Hi) Hw. unfold save_attempt.
  destruct (save_content_hash title content) as [h|]; [|by intros [= _ <-]].
  unfold on_db in Hw. simpl.
  destruct (w_db w) as [|[t|]] eqn:Hdb; simpl; try by intros [= _ <-].
  destruct (fault_at e (w_tick w)) as [y|].
  - intros [= _ <-]. simpl. by apply Ha.
  - destruct (insert_or_replace _ _ _) as [t'|] eqn:Hins.
    + intros [= _ <-]. simpl. eapply Hi; [|exact Hins]. by apply Ha.
    + intros [= _ <-]. simpl. by apply Ha.
Qed.

(** A save that returns [True] ends with an attempt that went through. *)
Lemma save_news_true P fuel e w title url content summarize source w' :
  kept_by_repairs P -> on_db P w ->
  save_news fuel e w title url content summarize source = Some (true, w') ->
  exists w0, on_db P w0
    /\ save_attempt e w0 title url content summarize source = (None, w').
Proof.
  intros HP. revert w. induction fuel as [|fuel IH]; intros w Hw; [done|].
  simpl.
  destruct (save_attempt e w title url content summarize source)
    as [[[[]|]|] w1] eqn:Ha; try done.
  - unfold fix_database_and_retry.
    destruct (create_fresh_database fuel e (log LogFixing (log LogColumnMissing w1)))
      as [w2|] eqn:Hc; [|done].
    apply IH. unfold on_db.
    erewrite (create_fresh_database_keeps P); [| exact HP | | exact Hc].
    + destruct HP as (_ & Hf & _). exact Hf.
    + apply on_db_log, on_db_log. eapply save_attempt_keeps; eauto.
  - intros [= <-]. eauto.
Qed.

Lemma save_attempt_ok e w title url content summarize source w' :
  save_attempt e w title url content summarize source = (None, w') ->
  exists t h t',
    w_db w = DbFile (Some t)
    /\ save_content_hash title content = Some h
    /\ insert_or_replace (add_missing_columns t)
         (save_fields title url content summarize source (now e w) h)
         (now e w) = Some t'
    /\ w_db w' = DbFile (Some t').
Proof.
  unfold save_attempt.
  destruct (save_content_hash title content) as [h|]; [|done].
  simpl. destruct (w_db w) as [|[t|]] eqn:Hdb; simpl; try done.
  destruct (fault_at e (w_tick w)) as [y|]; [done|].
  destruct (insert_or_replace _ _ _) as [t'|] eqn:Hins; [|done].
  intros [= <-]. exists t, h, t'. done.
Qed.

Lemma filter_filter_none {A} (p q : A -> bool) l :
  (forall x, p x = true -> q x = false) ->
  List.filter p (List.filter q l) = [].
Proof.
  intros H. induction l as [|x l IH]; simpl; [done|].
  destruct (q x) eqn:Hq; simpl; [|exact IH].
  destruct (p x) eqn:Hp; [|exact IH].
  apply H in Hp. congruence.
Qed.

(** After a save that returned [True], one row holds the saved url, and it
    holds the values of that save. *)
Lemma save_news_row fuel e w title url content summarize source w' :
  url_constraint w ->
  save_news fuel e w title url content summarize source = Some (true, w') ->
  exists r, rows_with_url (clean_url url) w' = [r]
    /\ r_title r = clean_title title
    /\ r_url r = clean_url url
    /\ r_content r = clean_content content
    /\ r_summarize r
       = Some (clean_bounded 500 (py "AI technology news update.") summarize)
    /\ r_source r = clean_bounded 200 (py "Unknown Source") source
    /\ r_content_hash r = save_content_hash title content.
Proof.
  intros Hu Hs.
  pose proof (proj2 (unique_kept "url") eq_refl) as HP.
  eapply (save_news_true _ _ _ _ _ _ _ _ _ _ HP) in Hs as (w0 & Hw0 & Ha).
  2:{ unfold on_db, url_constraint in *. by destruct (w_db w) as [|[t|]]. }
  apply save_attempt_ok in Ha as (t & h & t' & Hdb & Hh & Hi & Hdb').
  apply insert_or_replace_inv in Hi as (_ & _ & Hrows).
  unfold on_db in Hw0. rewrite Hdb in Hw0.
  unfold rows_with_url, stored. rewrite Hdb', Hrows.
  rewrite List.filter_app. simpl. rewrite str_eqb_refl.
  rewrite filter_filter_none.
  - eexists. split; [reflexivity|]. simpl. by rewrite Hh.
  - intros r Hr. unfold conflicts.
    unfold is_unique in *. rewrite add_missing_columns_unique, Hw0.
    simpl. unfold clean_url in Hr. by rewrite Hr.
Qed.

Lemma save_news_keeps P fuel e w title url content summarize source b w' :
  kept_by_repairs P -> on_db P w ->
  save_news fuel e w title url content summarize source = Some (b, w') ->
  on_db P w'.
Proof.
  intros HP. revert w. induction fuel as [|fuel IH]; intros w Hw; [done|].
  simpl.
  destruct (save_attempt e w title url content summarize source)
    as [[[[]|]|] w1] eqn:Ha.
  - unfold fix_database_and_retry.
    destruct (create_fresh_database fuel e (log LogFixing (log LogColumnMissing w1)))
      as [w2|] eqn:Hc; [|done].
    apply IH. unfold on_db.
    erewrite (create_fresh_database_keeps P); [| exact HP | | exact Hc].
    + destruct HP as (_ & Hf & _). exact Hf.
    + apply on_db_log, on_db_log. eapply save_attempt_keeps; eauto.
  - intros [= _ <-]. apply on_db_log. eapply save_attempt_keeps; eauto.
  - intros [= _ <-]. apply on_db_log. eapply save_attempt_keeps; eauto.
  - intros [= _ <-]. eapply save_attempt_keeps; eauto.
Qed.

Lemma url_constraint_on_db w :
  url_constraint w
  <-> on_db (fun o => match o with
                      | Some t => is_unique "url" t = true
                      | None => True
                      end) w.
Proof. unfold url_constraint, on_db. by destruct (w_db w) as [|[t|]]. Qed.

Lemma hash_constraint_on_db w :
  hash_constraint w
  <-> on_db (fun o => match o with
                      | Some t => is_unique "content_hash" t = true
                      | None => True
                      end) w.
Proof. unfold hash_constraint, on_db. by destruct (w_db w) as [|[t|]]. Qed.

(** C5: two saves under the same url, whatever their titles: after both,
    the store holds one row for that url, and it holds the title and the
    other values of the second save. *)
Theorem resave_same_url_replaces
    (fuel1 fuel2 : nat) (e : env) (w w1 w2 : world)
    (url title1 content1 summarize1 source1
         title2 content2 summarize2 source2 : pyval) :
  url_constraint w ->
  save_news fuel1 e w title1 url content1 summarize1 source1 = Some (true, w1) ->
  save_news fuel2 e w1 title2 url content2 summarize2 source2 = Some (true, w2) ->
  exists r, rows_with_url (clean_url url) w2 = [r]
    /\ r_title r = clean_title title2
    /\ r_content r = clean_content content2
    /\ r_summarize r
       = Some (clean_bounded 500 (py "AI technology news update.") summarize2)
    /\ r_source r = clean_bounded 200 (py "Unknown Source") source2
    /\ r_content_hash r = save_content_hash title2 content2.
Proof.
  intros Hu H1 H2.
  assert (url_constraint w1) as Hu1.
  { apply url_constraint_on_db.
    eapply save_news_keeps; [| |exact H1].
    - by apply unique_kept.
    - by apply url_constraint_on_db. }
  destruct (save_news_row _ _ _ _ _ _ _ _ _ Hu1 H2)
    as (r & Hr & Ht & _ & Hc & Hs & Hsrc & Hh).
  exists r. done.
Qed.

(** After a save that returned [True] into a table that declares
    [content_hash] UNIQUE, one row holds the saved hash: the row of that
    save. *)
Lemma save_news_hash_row fuel e w title url content summarize source w' h :
  hash_constraint w ->
  save_content_hash title content = Some h ->
  save_news fuel e w title url content summarize source = Some (true, w') ->
  exists r, rows_with_hash h w' = [r] /\ r_url r = clean_url url
    /\ r_title r = clean_title title.
Proof.
  intros Hu Hh Hs.
  pose proof (proj2 (unique_kept "content_hash") eq_refl) as HP.
  eapply (save_news_true _ _ _ _ _ _ _ _ _ _ HP) in Hs as (w0 & Hw0 & Ha).
  2:{ by apply hash_constraint_on_db. }
  apply save_attempt_ok in Ha as (t & h' & t' & Hdb & Hh' & Hi & Hdb').
  rewrite Hh in Hh'. injection Hh' as <-.
  apply insert_or_replace_inv in Hi as (_ & _ & Hrows).
  unfold on_db in Hw0. rewrite Hdb in Hw0.
  unfold rows_with_hash, stored. rewrite Hdb', Hrows.
  rewrite List.filter_app. simpl. unfold hash_is at 2. simpl.
  rewrite str_eqb_refl.
  rewrite filter_filter_none.
  - eexists. split; [reflexivity|]. done.
  - intros r Hr. unfold conflicts.
    unfold is_unique in *. rewrite add_missing_columns_unique, Hw0.
    unfold hash_is in Hr. simpl.
    destruct (r_content_hash r); [|done]. rewrite Hr.
    by rewrite orb_true_r.
Qed.

(** In a table that declares [content_hash] UNIQUE, as the table this
    program creates does, two saves of the same text under two urls leave
    one row: that of the second save. *)
Lemma equal_hash_replaces
    (fuel1 fuel2 : nat) (e : env) (w w1 w2 : world)
    (title content url1 summarize1 source1 url2 summarize2 source2 : pyval)
    (h : pystr) :
  hash_constraint w ->
  save_content_hash title content = Some h ->
  save_news fuel1 e w title url1 content summarize1 source1 = Some (true, w1) ->
  save_news fuel2 e w1 title url2 content summarize2 source2 = Some (true, w2) ->
  exists r, rows_with_hash h w2 = [r] /\ r_url r = clean_url url2.
Proof.
  intros Hu Hh H1 H2.
  assert (hash_constraint w1) as Hu1.
  { apply hash_constraint_on_db.
    eapply save_news_keeps; [| |exact H1].
    - by apply unique_kept.
    - by apply hash_constraint_on_db. }
  destruct (save_news_hash_row _ _ _ _ _ _ _ _ _ _ Hu1 Hh H2) as (r & Hr & Hurl & _).
  exists r. done.
Qed.

End Saving.

Section Repair.

Local Open Scope nat_scope.

(** *** Repair and retry *)

Lemma logged_log sel l w :
  logged sel (log l w) = logged sel w + (if sel l then 1 else 0).
Proof.
  unfold logged, log. simpl. rewrite List.filter_app, length_app. simpl.
  by destruct (sel l).
Qed.

Lemma logged_tick sel w : logged sel (tick w) = logged sel w.
Proof. reflexivity. Qed.

Lemma logged_set_db sel f w : logged sel (set_db f w) = logged sel w.
Proof. reflexivity. Qed.

Lemma logged_rename sel p w :
  sel (LogBackedUp p) = false ->
  logged sel (rename_aside p w) = logged sel w.
Proof.
  intros H. unfold rename_aside. destruct (w_db w); [done|].
  rewrite logged_log, H. unfold logged. simpl. lia.
Qed.

Lemma logged_added_columns sel t w :
  (forall c, sel (LogAddedColumn c) = false) ->
  logged sel (log_added_columns t w) = logged sel w.
Proof.
  intros H. unfold log_added_columns.
  destruct (has_column "summarize" t), (has_column "content_hash" t);
    rewrite ?logged_log, ?H; lia.
Qed.

Lemma tick_log l w : w_tick (log l w) = w_tick w.
Proof. reflexivity. Qed.

Lemma tick_tick w : w_tick (tick w) = S (w_tick w).
Proof. reflexivity. Qed.

Lemma tick_set_db f w : w_tick (set_db f w) = w_tick w.
Proof. reflexivity. Qed.

Lemma tick_rename p w : w_tick (rename_aside p w) = w_tick w.
Proof. unfold rename_aside. by destruct (w_db w). Qed.

Lemma tick_added_columns t w : w_tick (log_added_columns t w) = w_tick w.
Proof.
  unfold log_added_columns.
  by destruct (has_column "summarize" t), (has_column "content_hash" t).
Qed.

Lemma db_log l w : w_db (log l w) = w_db w.
Proof. reflexivity. Qed.

Lemma db_tick w : w_db (tick w) = w_db w.
Proof. reflexivity. Qed.

Lemma db_set_db f w : w_db (set_db f w) = f.
Proof. reflexivity. Qed.

Lemma db_added_columns t w : w_db (log_added_columns t w) = w_db w.
Proof.
  unfold log_added_columns.
  by destruct (has_column "summarize" t), (has_column "content_hash" t).
Qed.

Create Rewrite HintDb world.
#[local] Hint Rewrite logged_log logged_tick logged_set_db
  tick_log tick_tick tick_set_db tick_rename tick_added_columns
  db_log db_tick db_set_db db_added_columns : world.
#[local] Hint Rewrite logged_rename logged_added_columns using done : world.

Lemma create_fresh_database_eq fuel e w :
  create_fresh_database (S fuel) e w
  = match fault_at e (w_tick w) with
    | None =>
        Some (log LogFreshCreated
                (set_db (DbFile (Some fresh_table))
                   (rename_aside (backup_path (now e w))
                      (log LogCreatingFresh (tick w)))))
    | Some (OperationalError _) =>
        create_fresh_database fuel e
          (log LogFreshFailed
             (set_db (DbFile None)
                (rename_aside (backup_path (now e w))
                   (log LogCreatingFresh (tick w)))))
    | Some OtherError =>
        create_fresh_database fuel e
          (log LogFreshFailed (log LogCreatingFresh (tick w)))
    end.
Proof. reflexivity. Qed.

(** [create_fresh_database] returns at its first attempt that does not
    fail, after one entry per attempt. *)
Lemma create_fresh_database_returns e k : forall w fuel,
  (forall i, i < k -> fault_at e (w_tick w + i) <> None) ->
  fault_at e (w_tick w + k) = None ->
  k < fuel ->
  exists w', create_fresh_database fuel e w = Some w'
    /\ logged is_creating w' = logged is_creating w + k + 1
    /\ logged is_fixing w' = logged is_fixing w
    /\ w_tick w' = w_tick w + k + 1
    /\ w_db w' = DbFile (Some fresh_table).
Proof.
  induction k as [|k IH]; intros w fuel Hfail Hok Hfuel;
    (destruct fuel as [|fuel]; [lia|]); rewrite create_fresh_database_eq.
  - rewrite Nat.add_0_r in Hok. rewrite Hok.
    eexists. split; [reflexivity|].
    autorewrite with world. simpl. repeat split; lia.
  - pose proof (Hfail 0 ltac:(lia)) as H0. rewrite Nat.add_0_r in H0.
    destruct (fault_at e (w_tick w)) as [[b|]|] eqn:Hf; [| |done].
    + edestruct (IH (log LogFreshFailed
                   (set_db (DbFile None)
                      (rename_aside (backup_path (now e w))
                         (log LogCreatingFresh (tick w))))) fuel)
        as (w' & Hc & Hl & Hx & Ht & Hd).
      * intros i Hi. autorewrite with world.
        replace (S (w_tick w) + i) with (w_tick w + S i) by lia.
        apply Hfail. lia.
      * autorewrite with world.
        replace (S (w_tick w) + k) with (w_tick w + S k) by lia. exact Hok.
      * lia.
      * exists w'. split; [exact Hc|].
        rewrite Hl, Hx, Ht. autorewrite with world. simpl.
        repeat split; try lia. exact Hd.
    + edestruct (IH (log LogFreshFailed (log LogCreatingFresh (tick w))) fuel)
        as (w' & Hc & Hl & Hx & Ht & Hd).
      * intros i Hi. autorewrite with world.
        replace (S (w_tick w) + i) with (w_tick w + S i) by lia.
        apply Hfail. lia.
      * autorewrite with world.
        replace (S (w_tick w) + k) with (w_tick w + S k) by lia. exact Hok.
      * lia.
      * exists w'. split; [exact Hc|].
        rewrite Hl, Hx, Ht. autorewrite with world. simpl.
        repeat split; try lia. exact Hd.
Qed.

(** While every attempt fails, no depth of calls suffices. *)
Lemma create_fresh_database_diverges e : forall fuel w,
  (forall i, fault_at e (w_tick w + i) <> None) ->
  create_fresh_database fuel e w = None.
Proof.
  induction fuel as [|fuel IH]; intros w Hfail; [reflexivity|].
  rewrite create_fresh_database_eq.
  pose proof (Hfail 0) as H0. rewrite Nat.add_0_r in H0.
  destruct (fault_at e (w_tick w)) as [[b|]|]; [| |done].
  - apply IH. intros i. autorewrite with world.
    replace (S (w_tick w) + i) with (w_tick w + S i) by lia. apply Hfail.
  - apply IH. intros i. autorewrite with world.
    replace (S (w_tick w) + i) with (w_tick w + S i) by lia. apply Hfail.
Qed.

Lemma insert_or_replace_some t f d :
  forallb (fun c => has_column c t) insert_columns = true ->
  exists t', insert_or_replace t f d = Some t'.
Proof. intros H. unfold insert_or_replace. rewrite H. eauto. Qed.

Lemma save_attempt_fault e w title url content summarize source t h x :
  w_db w = DbFile (Some t) ->
  save_content_hash title content = Some h ->
  fault_at e (w_tick w) = Some x ->
  save_attempt e w title url content summarize source
  = (Some x, set_db (DbFile (Some (add_missing_columns t)))
               (log_added_columns t (tick w))).
Proof.
  intros Hdb Hh Hf. unfold save_attempt. rewrite Hh. cbv zeta.
  rewrite db_tick, Hdb, Hf. reflexivity.
Qed.

Lemma save_attempt_calm e w title url content summarize source t h :
  w_db w = DbFile (Some t) ->
  save_content_hash title content = Some h ->
  fault_at e (w_tick w) = None ->
  insertable t = true ->
  exists t',
    save_attempt e w title url content summarize source
    = (None, log LogSaved
               (set_db (DbFile (Some t'))
                  (set_db (DbFile (Some (add_missing_columns t)))
                     (log_added_columns t (tick w))))).
Proof.
  intros Hdb Hh Hf Hi. unfold save_attempt. rewrite Hh. cbv zeta.
  rewrite db_tick, Hdb, Hf.
  destruct (insert_or_replace_some (add_missing_columns t)
              (save_fields title url content summarize source (now e w) h)
              (now e w) Hi) as [t' ->].
  eauto.
Qed.

Lemma save_news_eq fuel e w title url content summarize source :
  save_news (S fuel) e w title url content summarize source
  = match save_attempt e w title url content summarize source with
    | (None, w') => Some (true, w')
    | (Some (OperationalError true), w') =>
        fix_database_and_retry
          (fun w'' => save_news fuel e w'' title url content summarize source)
          fuel e (log LogColumnMissing w')
    | (Some (OperationalError false), w') =>
        Some (false, log LogOperationalError w')
    | (Some OtherError, w') => Some (false, log LogSaveError w')
    end.
Proof. reflexivity. Qed.

(** A save is retried once per missing-column failure, however many
    there are, and returns [True] when the failures stop. *)
Lemma save_news_retries e title url content summarize source h n :
  save_content_hash title content = Some h ->
  forall w t fuel,
  w_db w = DbFile (Some t) -> insertable t = true ->
  rounds e w n -> n < fuel ->
  exists w', save_news fuel e w title url content summarize source
             = Some (true, w')
    /\ logged is_fixing w' = logged is_fixing w + n
    /\ logged is_creating w' = logged is_creating w + n.
Proof.
  intros Hh. induction n as [|n IH]; intros w t fuel Hdb Hins [Hr Hlast] Hfuel;
    (destruct fuel as [|fuel]; [lia|]); rewrite save_news_eq.
  - rewrite Nat.add_0_r in Hlast.
    destruct (save_attempt_calm e w title url content summarize source t h
                Hdb Hh Hlast Hins) as [t' ->].
    eexists. split; [reflexivity|].
    autorewrite with world. simpl. lia.
  - destruct (Hr 0 ltac:(lia)) as [H0 H1].
    rewrite Nat.add_0_r in H0. simpl in H1. rewrite Nat.add_0_r in H1.
    rewrite (save_attempt_fault e w title url content summarize source t h _
               Hdb Hh H0).
    unfold fix_database_and_retry.
    set (w1 := log LogFixing (log LogColumnMissing _)).
    destruct (create_fresh_database_returns e 0 w1 fuel)
      as (w2 & -> & Hc & Hx & Ht & Hd).
    { intros i Hi. lia. }
    { subst w1. autorewrite with world.
      replace (S (w_tick w) + 0) with (w_tick w + 1) by lia. exact H1. }
    { lia. }
    destruct (IH w2 fresh_table fuel Hd eq_refl) as (w' & Hs & Hfix & Hcre).
    { split.
      - intros i Hi. rewrite Ht. subst w1. autorewrite with world.
        replace (S (w_tick w) + 0 + 1 + 2 * i) with (w_tick w + 2 * S i) by lia.
        apply Hr. lia.
      - rewrite Ht. subst w1. autorewrite with world.
        replace (S (w_tick w) + 0 + 1 + 2 * n) with (w_tick w + 2 * S n) by lia.
        exact Hlast. }
    { lia. }
    exists w'. split; [exact Hs|].
    rewrite Hfix, Hcre, Hx, Hc. subst w1. autorewrite with world. simpl. lia.
Qed.

(** While every save fails for a missing column, no depth of calls
    suffices. *)
Lemma save_news_diverges e title url content summarize source h :
  save_content_hash title content = Some h ->
  forall fuel w t,
  w_db w = DbFile (Some t) ->
  (forall i, fault_at e (w_tick w + 2 * i) = Some (OperationalError true)
             /\ fault_at e (w_tick w + 2 * i + 1) = None) ->
  save_news fuel e w title url content summarize source = None.
Proof.
  intros Hh. induction fuel as [|fuel IH]; intros w t Hdb Hr; [reflexivity|].
  rewrite save_news_eq.
  destruct (Hr 0) as [H0 H1].
  rewrite Nat.add_0_r in H0. simpl in H1. rewrite Nat.add_0_r in H1.
  rewrite (save_attempt_fault e w title url content summarize source t h _
             Hdb Hh H0).
  unfold fix_database_and_retry.
  set (w1 := log LogFixing (log LogColumnMissing _)).
  destruct fuel as [|fuel']; [reflexivity|].
  destruct (create_fresh_database_returns e 0 w1 (S fuel'))
    as (w2 & -> & Hc & Hx & Ht & Hd).
  { intros i Hi. lia. }
  { subst w1. autorewrite with world.
    replace (S (w_tick w) + 0) with (w_tick w + 1) by lia. exact H1. }
  { lia. }
  apply (IH w2 fresh_table Hd).
  intros i. rewrite Ht. subst w1. autorewrite with world.
  replace (S (w_tick w) + 0 + 1 + 2 * i) with (w_tick w + 2 * S i) by lia.
  apply Hr.
Qed.

(** A save that fails for another reason is not retried. *)
Lemma save_news_no_retry fuel e w title url content summarize source x w1 :
  save_attempt e w title url content summarize source = (Some x, w1) ->
  x <> OperationalError true ->
  exists l, save_news (S fuel) e w title url content summarize source
            = Some (false, log l w1)
    /\ is_fixing l = false /\ is_creating l = false.
Proof.
  intros Ha Hx. rewrite save_news_eq, Ha.
  destruct x as [[]|]; [done| |]; eexists; split; try reflexivity; done.
Qed.

End Repair.

Section Scenarios.

Local Open Scope nat_scope.



Lemma storm_rounds : rounds (storm 2) fresh_world 2.
Proof.
  split.
  - intros [|[|i]] Hi; [split; reflexivity | split; reflexivity | lia].
  - reflexivity.
Defined.


Lemma resave_same_url_witness :
  exists r,
    rows_with_url (clean_url sample_url)
      (after_save 1 calm
         (after_save 1 calm fresh_world sample_title sample_url
                     sample_content sample_summary sample_source)
         other_title sample_url sample_content sample_summary sample_source)
    = [r]
    /\ r_title r = clean_title other_title
    /\ r_content r = clean_content sample_content
    /\ r_summarize r
       = Some (clean_bounded 500 (py "AI technology news update.") sample_summary)
    /\ r_source r = clean_bounded 200 (py "Unknown Source") sample_source
    /\ r_content_hash r = save_content_hash other_title sample_content.
Proof.
  apply (resave_same_url_replaces 1 1 calm fresh_world
           (after_save 1 calm fresh_world sample_title sample_url
                       sample_content sample_summary sample_source)
           _ sample_url sample_title sample_content sample_summary
           sample_source other_title sample_content sample_summary
           sample_source).
  - reflexivity.
  - vm_compute. reflexivity.
  - vm_compute. reflexivity.
Defined.

(** C6 fails on a migrated table: [ALTER TABLE] adds [content_hash]
    without the UNIQUE of [CREATE TABLE], and the two rows of equal hash
    both stay. *)
Theorem migrated_table_keeps_both_rows :
  option_map (fun w => is_unique "content_hash" (table_or_fresh (w_db w)))
             (init_database 1 calm legacy_world) = Some false
  /\ save_content_hash sample_title sample_content
     = Some (py "7ed685aa28d79ca86f27e466e7b03469")
  /\ option_map
       (fun w => List.map r_url
                   (rows_with_hash (py "7ed685aa28d79ca86f27e466e7b03469") w))
       migrated_twice
     = Some [py "https://example.com/a"; py "https://example.org/b"].
Proof. repeat split; vm_compute; reflexivity. Qed.

End Scenarios.

(** ** Python strings *)

Section Strings.

Local Open Scope nat_scope.

Implicit Types (s p old new w : pystr) (ws : list pystr) (c : N).

Lemma startswith_elem p s c :
  startswith p s = true -> c ∈ p -> c ∈ s.
Proof.
  revert s; induction p as [|a p IH]; intros [|b s] H Hc; simpl in H;
    try done; try by apply elem_of_nil in Hc.
  apply andb_true_iff in H as [Hab Hp]. apply N.eqb_eq in Hab as ->.
  apply elem_of_cons in Hc as [->|Hc]; [left|right; eauto].
Qed.

Lemma contains_elem old s c :
  contains old s = true -> c ∈ old -> c ∈ s.
Proof.
  induction s as [|b s IH]; simpl; intros H Hc.
  - rewrite orb_false_r in H. eauto using startswith_elem.
  - apply orb_true_iff in H as [H|H]; [eauto using startswith_elem|].
    right. eauto.
Qed.

(** A text in which a character of [old] does not occur does not hold
    [old]. *)
Lemma contains_without c old s :
  c ∈ old -> c ∉ s -> contains old s = false.
Proof.
  intros Hc Hs. destruct (contains old s) eqn:E; [|done].
  destruct Hs. eauto using contains_elem.
Qed.

Lemma replace_from_absent old new s :
  contains old s = false -> replace_from old new 0 s = s.
Proof.
  induction s as [|c s IH]; [done|].
  intros H. change (contains old (c :: s))
    with (startswith old (c :: s) || contains old s) in H.
  apply orb_false_iff in H as [H1 H2].
  cbn [replace_from]. rewrite H1. by rewrite IH.
Qed.

(** Where [old] does not occur, [replace] changes nothing. *)
Lemma replace_absent old new s :
  old <> [] -> contains old s = false -> replace old new s = s.
Proof.
  intros Ho H. destruct old; [done|]. by apply replace_from_absent.
Qed.

(** Replacing a character by itself changes nothing. *)
Lemma replace_same c s : replace [c] [c] s = s.
Proof.
  unfold replace. induction s as [|b s IH]; [done|].
  cbn [replace_from startswith]. rewrite andb_true_r.
  destruct (N.eqb_spec c b) as [->|Hne]; simpl; by rewrite IH.
Qed.

Lemma replace_from_char c new s :
  replace_from [c] new 0 s
  = flat_map (fun b => if c =? b then new else [b])%N s.
Proof.
  induction s as [|b s IH]; [done|].
  cbn [replace_from startswith flat_map]. rewrite andb_true_r.
  destruct (c =? b)%N; simpl; by rewrite IH.
Qed.

(** The characters of a text after the replacement of one character. *)
Lemma replace_char_Forall (P : N -> Prop) c new s :
  Forall P new -> Forall P s -> Forall P (replace [c] new s).
Proof.
  intros Hn Hs. unfold replace. rewrite replace_from_char.
  induction Hs as [|b s Hb Hs IH]; simpl; [constructor|].
  apply Forall_app. split; [|exact IH].
  destruct (c =? b)%N; [exact Hn|by constructor].
Qed.

Lemma replace_char_gone c new s :
  c ∉ new -> c ∉ replace [c] new s.
Proof.
  intros Hn. unfold replace. rewrite replace_from_char.
  induction s as [|b s IH]; simpl; [apply not_elem_of_nil|].
  rewrite elem_of_app. intros [H|H]; [|done].
  destruct (N.eqb_spec c b) as [->|Hne]; [done|].
  apply list_elem_of_singleton in H. done.
Qed.

Lemma replace_from_Forall (P : N -> Prop) old new : forall s k,
  Forall P new -> Forall P s -> Forall P (replace_from old new k s).
Proof.
  induction s as [|b s IH]; intros k Hn Hs; [constructor|].
  apply Forall_cons in Hs as [Hb Hs].
  cbn [replace_from]. destruct k as [|k]; [|by apply IH].
  destruct (startswith old (b :: s)).
  - apply Forall_app. split; [exact Hn|by apply IH].
  - constructor; [exact Hb|by apply IH].
Qed.

Lemma replace_Forall (P : N -> Prop) old new s :
  old <> [] -> Forall P new -> Forall P s -> Forall P (replace old new s).
Proof.
  intros Ho Hn Hs. destruct old; [done|]. by apply replace_from_Forall.
Qed.

Lemma words_from_app w s :
  Forall (fun c => is_space c = false) w ->
  words_from (w ++ s) = (w ++ fst (words_from s), snd (words_from s)).
Proof.
  induction 1 as [|c w Hc _ IH]; simpl.
  - by destruct (words_from s).
  - rewrite IH, Hc. reflexivity.
Qed.

Lemma words_from_space s :
  words_from (32%N :: s) = ([], split s).
Proof. unfold split. simpl. by destruct (words_from s). Qed.

(** Splitting what was joined by single spaces gives the words back. *)
Lemma split_join ws : Forall word ws -> split (join [32%N] ws) = ws.
Proof.
  induction 1 as [|w ws [Hne Hw] Hws IH]; [reflexivity|].
  destruct ws as [|w2 ws].
  - simpl. unfold split.
    rewrite <- (app_nil_r w) at 1. rewrite words_from_app by done.
    simpl. rewrite app_nil_r. by destruct w.
  - change (join [32%N] (w :: w2 :: ws))
      with (w ++ 32%N :: join [32%N] (w2 :: ws)).
    unfold split at 1. rewrite words_from_app by done.
    rewrite words_from_space, IH. simpl. rewrite app_nil_r. by destruct w.
Qed.

Lemma words_from_words s :
  (fst (words_from s) = [] \/ word (fst (words_from s)))
  /\ Forall word (snd (words_from s)).
Proof.
  induction s as [|c s [IH1 IH2]]; simpl.
  - split; [by left|constructor].
  - destruct (words_from s) as [w ws]. simpl in *.
    destruct (is_space c) eqn:Hc; simpl.
    + split; [by left|]. destruct IH1 as [->|Hw]; [done|].
      destruct w; [by destruct Hw|]. by constructor.
    + split; [|done]. right. split; [done|].
      constructor; [done|]. destruct IH1 as [->|[_ Hw]]; [constructor|done].
Qed.

(** [split] gives words. *)
Lemma split_words s : Forall word (split s).
Proof.
  unfold split. pose proof (words_from_words s) as [H1 H2].
  destruct (words_from s) as [w ws]. simpl in *.
  destruct H1 as [->|Hw]; [done|].
  destruct w; [by destruct Hw|]. by constructor.
Qed.

Lemma words_from_Forall (P : N -> Prop) s :
  Forall P s ->
  Forall P (fst (words_from s)) /\ Forall (Forall P) (snd (words_from s)).
Proof.
  induction 1 as [|c s Hc _ [IH1 IH2]]; simpl; [by split|].
  destruct (words_from s) as [w ws]. simpl in *.
  destruct (is_space c); simpl.
  - split; [constructor|]. destruct w; [done|]. by constructor.
  - split; [by constructor|done].
Qed.

(** The words of a text are made of characters of the text. *)
Lemma split_Forall (P : N -> Prop) s :
  Forall P s -> Forall (Forall P) (split s).
Proof.
  intros H. unfold split. apply words_from_Forall in H as [H1 H2].
  destruct (words_from s) as [w ws]. simpl in *.
  destruct w; [done|]. by constructor.
Qed.

Lemma join_Forall (P : N -> Prop) sep ws :
  Forall P sep -> Forall (Forall P) ws -> Forall P (join sep ws).
Proof.
  intros Hsep. induction 1 as [|w ws Hw Hws IH]; [constructor|].
  destruct ws as [|w2 ws]; [exact Hw|].
  change (join sep (w :: w2 :: ws)) with (w ++ sep ++ join sep (w2 :: ws)).
  rewrite !Forall_app. done.
Qed.

Lemma lstrip_head s :
  match s with
  | [] => True
  | c :: _ => is_space c = false
  end ->
  lstrip s = s.
Proof. destruct s as [|c s]; [done|]. simpl. by intros ->. Qed.

Lemma lstrip_suffix s : exists p, s = p ++ lstrip s.
Proof.
  induction s as [|c s [p IH]]; [by exists []|].
  simpl. destruct (is_space c).
  - exists (c :: p). simpl. by rewrite <- IH.
  - by exists [].
Qed.

Lemma rstrip_prefix s : exists q, s = rstrip s ++ q.
Proof.
  unfold rstrip. destruct (lstrip_suffix (rev s)) as [p Hp].
  exists (rev p). rewrite <- rev_app_distr, <- Hp. by rewrite rev_involutive.
Qed.

Lemma lstrip_Forall (P : N -> Prop) s : Forall P s -> Forall P (lstrip s).
Proof.
  intros H. destruct (lstrip_suffix s) as [p Hp]. rewrite Hp in H.
  by apply Forall_app in H as [_ H].
Qed.

Lemma rstrip_Forall (P : N -> Prop) s : Forall P s -> Forall P (rstrip s).
Proof.
  intros H. destruct (rstrip_prefix s) as [p Hp]. rewrite Hp in H.
  by apply Forall_app in H as [H _].
Qed.

Lemma strip_Forall (P : N -> Prop) s : Forall P s -> Forall P (strip s).
Proof. intros H. by apply rstrip_Forall, lstrip_Forall. Qed.

(** A text that neither begins nor ends with whitespace is left as it is
    by [strip]. *)
Lemma strip_fixed s :
  match s with
  | [] => True
  | c :: _ => is_space c = false
  end ->
  match rev s with
  | [] => True
  | c :: _ => is_space c = false
  end ->
  strip s = s.
Proof.
  intros H1 H2. unfold strip, rstrip.
  rewrite (lstrip_head s H1), (lstrip_head (rev s) H2).
  apply rev_involutive.
Qed.

Lemma join_head w ws :
  word w ->
  match join [32%N] (w :: ws) with
  | [] => True
  | c :: _ => is_space c = false
  end.
Proof.
  intros [Hne Hw]. destruct w as [|c w]; [done|].
  apply Forall_cons in Hw as [Hc _].
  destruct ws; exact Hc.
Qed.

Lemma join_last ws :
  Forall word ws ->
  match rev (join [32%N] ws) with
  | [] => True
  | c :: _ => is_space c = false
  end.
Proof.
  induction 1 as [|w ws [Hne Hw] Hws IH]; [done|].
  destruct ws as [|w2 ws].
  - simpl. destruct (rev w) as [|c r] eqn:E; [done|].
    assert (c ∈ w) as Hc.
    { apply elem_of_reverse. unfold reverse. rewrite <- rev_alt, E. left. }
    rewrite Forall_forall in Hw. by apply Hw.
  - change (join [32%N] (w :: w2 :: ws))
      with (w ++ 32%N :: join [32%N] (w2 :: ws)).
    assert (join [32%N] (w2 :: ws) <> []) as HJ.
    { apply Forall_cons in Hws as [[Hne2 _] _].
      destruct w2; [done|]. by destruct ws. }
    set (J := join [32%N] (w2 :: ws)) in *.
    rewrite rev_app_distr.
    change (rev (32%N :: J)) with (rev J ++ [32%N]).
    destruct (rev J) as [|c r] eqn:E; [|exact IH].
    apply (f_equal (@rev N)) in E. rewrite rev_involutive in E. done.
Qed.

(** [strip] leaves alone words joined by single spaces. *)
Lemma strip_join ws : Forall word ws -> strip (join [32%N] ws) = join [32%N] ws.
Proof.
  intros H. apply strip_fixed.
  - destruct H as [|w ws Hw _]; [done|]. by apply join_head.
  - by apply join_last.
Qed.

Lemma strip_controls_fixed s :
  Forall (fun c => is_control c = false) s -> strip_controls s = s.
Proof.
  unfold strip_controls. induction 1 as [|c s Hc _ IH]; [done|].
  simpl. rewrite Hc. simpl. by rewrite IH.
Qed.

Lemma strip_controls_Forall (P : N -> Prop) s :
  Forall P s -> Forall P (strip_controls s).
Proof.
  unfold strip_controls. induction 1 as [|c s Hc _ IH]; [constructor|].
  simpl. destruct (negb (is_control c)); [by constructor|done].
Qed.

Lemma strip_controls_none s :
  Forall (fun c => is_control c = false) (strip_controls s).
Proof.
  unfold strip_controls. induction s as [|c s IH]; [constructor|].
  simpl. destruct (is_control c) eqn:Hc; simpl; [done|by constructor].
Qed.

End Strings.

(** ** Text normalizer *)

Section Normalizer.

Local Open Scope nat_scope.

Lemma apply_replacements_eq s :
  apply_replacements s
  = replace [8230%N] (py "...")
      (replace [8212%N] (py "-")
         (replace [8211%N] (py "-")
            (replace replacement_key (py "'") (replace [34%N] [34%N] s)))).
Proof. reflexivity. Qed.

Lemma clean_steps_eq s :
  clean_steps s
  = strip (join [32%N] (split (strip_controls (apply_replacements
      (replace [9%N] [32%N] (replace [10%N] [32%N]
         (replace [13%N] [32%N] (replace [0%N] [] s)))))))).
Proof. reflexivity. Qed.

(** Words of settled characters, joined by single spaces and free of the
    seven-character key, are a fixed point of the steps. *)
Lemma clean_steps_fixed (ws : list pystr) :
  Forall word ws -> Forall (Forall settled) ws ->
  contains replacement_key (join [32%N] ws) = false ->
  clean_steps (join [32%N] ws) = join [32%N] ws.
Proof.
  intros Hw Hs Hkey.
  assert (Forall (fun c => (is_space c = false \/ c = 32%N) /\ settled c)
                 (join [32%N] ws)) as HJ.
  { apply join_Forall.
    - constructor; [|constructor]. split; [by right|]. by repeat split.
    - clear Hkey. induction Hw as [|w ws [_ Hw] _ IH]; [constructor|].
      apply Forall_cons in Hs as [Hs1 Hs2]. constructor; [|by apply IH].
      rewrite Forall_forall in *. intros c Hc. split; [left|]; auto. }
  set (J := join [32%N] ws) in *.
  assert (forall c, (is_space c = true /\ c <> 32%N) \/ is_control c = true
                    \/ c = 8211%N \/ c = 8212%N \/ c = 8230%N ->
                    contains [c] J = false) as Hno.
  { intros c Hc. apply (contains_without c); [left|].
    intros Hin. rewrite Forall_forall in HJ.
    destruct (HJ c Hin) as [Hsp (Hctl & H1 & H2 & H3)].
    destruct Hc as [[Hc1 Hc2]|[Hc|[Hc|[Hc|Hc]]]]; try congruence.
    destruct Hsp; congruence. }
  rewrite clean_steps_eq.
  rewrite (replace_absent [0%N]) by (try done; apply Hno; by right; left).
  rewrite (replace_absent [13%N]) by (try done; apply Hno; by left).
  rewrite (replace_absent [10%N]) by (try done; apply Hno; by left).
  rewrite (replace_absent [9%N]) by (try done; apply Hno; by left).
  rewrite apply_replacements_eq, replace_same.
  rewrite (replace_absent replacement_key) by done.
  rewrite (replace_absent [8211%N]) by (try done; apply Hno; tauto).
  rewrite (replace_absent [8212%N]) by (try done; apply Hno; tauto).
  rewrite (replace_absent [8230%N]) by (try done; apply Hno; tauto).
  rewrite strip_controls_fixed.
  2:{ eapply Forall_impl; [exact HJ|]. by intros c [_ [? _]]. }
  subst J. rewrite split_join by done. by apply strip_join.
Qed.

Lemma not_elem_Forall (c : N) (s : pystr) :
  c ∉ s -> Forall (fun b => b <> c) s.
Proof.
  intros H. apply Forall_forall. intros b Hb ->. done.
Qed.

(** What the steps return: words of settled characters joined by single
    spaces. *)
Lemma clean_steps_shape (s : pystr) :
  exists ws, clean_steps s = join [32%N] ws
    /\ Forall word ws /\ Forall (Forall settled) ws.
Proof.
  rewrite clean_steps_eq.
  set (x := replace [9%N] _ _).
  set (y := strip_controls (apply_replacements x)).
  exists (split y). split; [apply strip_join, split_words|].
  split; [apply split_words|].
  apply split_Forall.
  assert (Forall (fun b => b <> 8211%N) y /\ Forall (fun b => b <> 8212%N) y
          /\ Forall (fun b => b <> 8230%N) y) as (H1 & H2 & H3).
  { subst y. rewrite apply_replacements_eq.
    split; [|split]; apply strip_controls_Forall.
    - apply replace_char_Forall; [by repeat constructor|].
      apply replace_char_Forall; [by repeat constructor|].
      apply not_elem_Forall, replace_char_gone.
      by intros ?%list_elem_of_singleton.
    - apply replace_char_Forall; [by repeat constructor|].
      apply not_elem_Forall, replace_char_gone.
      by intros ?%list_elem_of_singleton.
    - apply not_elem_Forall, replace_char_gone.
      intros H. vm_compute in H.
      repeat (apply elem_of_cons in H as [H|H]; [done|]).
      by apply elem_of_nil in H. }
  pose proof (strip_controls_none (apply_replacements x)) as H0.
  fold y in H0.
  rewrite Forall_forall in *. intros c Hc. repeat split; auto.
Qed.

(** Out of reach of the seven-character key, the steps are idempotent. *)
Lemma clean_steps_idempotent_off_key (s : pystr) :
  contains replacement_key (clean_steps s) = false ->
  clean_steps (clean_steps s) = clean_steps s.
Proof.
  destruct (clean_steps_shape s) as (ws & -> & Hw & Hs).
  by apply clean_steps_fixed.
Qed.

Lemma plain_spec c :
  plain c = true ->
  is_space c = false /\ settled c /\ c <> 34%N.
Proof.
  unfold plain, settled. rewrite !andb_true_iff, !negb_true_iff.
  rewrite !N.eqb_neq. tauto.
Qed.

(** Words of plain characters joined by single spaces are a fixed point of
    the steps. *)
Lemma clean_steps_plain (ws : list pystr) :
  Forall (fun w => w <> [] /\ Forall (fun c => plain c = true) w) ws ->
  clean_steps (join [32%N] ws) = join [32%N] ws.
Proof.
  intros H. apply clean_steps_fixed.
  - eapply Forall_impl; [exact H|]. intros w [Hne Hw]. split; [done|].
    eapply Forall_impl; [exact Hw|]. by intros c (? & ? & ?)%plain_spec.
  - eapply Forall_impl; [exact H|]. intros w [Hne Hw].
    eapply Forall_impl; [exact Hw|]. by intros c (? & ? & ?)%plain_spec.
  - apply (contains_without 34%N).
    + unfold replacement_key. do 2 right. left.
    + intros Hin.
      assert (Forall (fun c => c <> 34%N) (join [32%N] ws)) as HF.
      { apply join_Forall; [by repeat constructor|].
        eapply Forall_impl; [exact H|]. intros w [Hne Hw].
        eapply Forall_impl; [exact Hw|]. by intros c (? & ? & ?)%plain_spec. }
      rewrite Forall_forall in HF. by apply (HF _ Hin).
Qed.

(** C7 fails on the table as it is written: two spaces between the colon
    and the double quote keep the seven-character key out of reach in the
    first pass; the first pass makes them one, and the second pass
    replaces the key. *)
Theorem clean_text_not_idempotent :
  let x := VStr [58; 32; 32; 34; 39; 34; 44; 32; 97]%N in
  clean_text_for_db x = [58; 32; 34; 39; 34; 44; 32; 97]%N
  /\ clean_text_for_db (VStr (clean_text_for_db x)) = [39; 97]%N
  /\ clean_text_for_db (VStr (clean_text_for_db x)) <> clean_text_for_db x.
Proof.
  cbv zeta. split; [vm_compute; reflexivity|].
  split; [vm_compute; reflexivity|]. vm_compute. discriminate.
Qed.

(** The normalizer returns a text for every value, and it is idempotent
    wherever its result does not hold the seven-character key. *)
Lemma clean_text_idempotent_off_key (v : pyval) :
  contains replacement_key (clean_text_for_db v) = false ->
  clean_text_for_db (VStr (clean_text_for_db v)) = clean_text_for_db v.
Proof.
  intros Hk. destruct (truthy v) eqn:Ht.
  - destruct (py_str v) as [s|] eqn:Hs.
    + assert (clean_text_for_db v = clean_steps s) as E.
      { unfold clean_text_for_db. by rewrite Ht, Hs. }
      rewrite E in *. unfold clean_text_for_db. cbn [truthy py_str].
      destruct (clean_steps s) as [|c r] eqn:E2; [reflexivity|].
      cbn [length Nat.eqb negb]. rewrite <- E2.
      apply clean_steps_idempotent_off_key. by rewrite E2.
    + assert (clean_text_for_db v = py "Text cleaning failed") as ->.
      { unfold clean_text_for_db. by rewrite Ht, Hs. }
      vm_compute. reflexivity.
  - assert (clean_text_for_db v = []) as ->.
    { unfold clean_text_for_db. by rewrite Ht. }
    reflexivity.
Qed.

End Normalizer.

Section Hashing.

Local Open Scope nat_scope.

(** *** The hash input of a save *)

Lemma clean_content_take content :
  clean_content content = slice_to 5000 (clean_text_for_db content).
Proof.
  unfold clean_content, clean_bounded, clean_text_for_db.
  by destruct (truthy content).
Qed.

Lemma clean_title_short title :
  truthy title = true -> length (clean_text_for_db title) <= 500 ->
  clean_title title = clean_text_for_db title.
Proof.
  intros Ht Hl. unfold clean_title, clean_bounded. rewrite Ht.
  unfold slice_to. by rewrite take_ge.
Qed.

Lemma save_hash_input_eq title content :
  save_hash_input title content
  = strip (lower (clean_title title))
    ++ strip (lower (match clean_text_for_db content with
                     | [] => clean_title title
                     | c :: r => slice_to 200 (c :: r)
                     end)).
Proof.
  unfold save_hash_input. cbv zeta. rewrite clean_content_take.
  destruct (clean_text_for_db content) as [|c r]; [reflexivity|].
  unfold slice_to. rewrite take_take. reflexivity.
Qed.

(** Against C3 as stated: the 501st character of a title is cut before
    the hash; the hashed text is one character shorter than the text the
    specification names, and the digests differ. *)
Lemma hash_input_after_title_bound :
  length (save_hash_input long_title sample_content) = 531
  /\ length (spec_hash_input long_title sample_content) = 532
  /\ save_content_hash long_title sample_content
     = Some (py "ed4e7042dc89da65f22a36d9de60295a")
  /\ md5_hex (spec_hash_input long_title sample_content)
     = Some (py "52690f1d730fa3cb4e77292277377e74").
Proof. repeat split; vm_compute; reflexivity. Qed.

(** C3, amended: the hash input is the lower-cased normalized title after
    its bound of 500 characters, followed by the lower-cased first 200
    characters of the normalized content, which the bound of 5000 leaves
    alone, or by the bounded title again when the normalized content is
    empty.  It is the text of the specification when the normalized title
    has at most 500 characters and the normalized content is not empty,
    and two titles that agree on their first 500 normalized characters
    have the same hash. *)
Theorem hash_input_from_bounded_title (title content : pyval) :
  save_hash_input title content
  = strip (lower (clean_title title))
    ++ strip (lower (match clean_text_for_db content with
                     | [] => clean_title title
                     | c :: r => slice_to 200 (c :: r)
                     end))
  /\ (truthy title = true -> length (clean_text_for_db title) <= 500 ->
      clean_text_for_db content <> [] ->
      save_hash_input title content = spec_hash_input title content)
  /\ (forall title',
        truthy title' = truthy title ->
        slice_to 500 (clean_text_for_db title')
        = slice_to 500 (clean_text_for_db title) ->
        save_content_hash title' content = save_content_hash title content).
Proof.
  split; [apply save_hash_input_eq|]. split.
  - intros Ht Hl Hc. rewrite save_hash_input_eq. unfold spec_hash_input.
    rewrite clean_title_short by done.
    by destruct (clean_text_for_db content).
  - intros title' Ht Hs. unfold save_content_hash.
    rewrite !save_hash_input_eq.
    assert (clean_title title' = clean_title title) as ->; [|reflexivity].
    unfold clean_title, clean_bounded. rewrite Ht.
    by destruct (truthy title).
Qed.

Lemma hash_input_from_bounded_title_witness :
  save_hash_input sample_title sample_content
  = spec_hash_input sample_title sample_content.
Proof.
  apply (proj1 (proj2 (hash_input_from_bounded_title sample_title sample_content))).
  - reflexivity.
  - vm_compute. lia.
  - vm_compute. discriminate.
Defined.

(** Against C10 as stated: for a title of whitespace only, and for a title
    of a thousand times the same letter, the hash a save stores and the
    fingerprint of the duplicate check are the same. *)
Lemma blank_title_hashes_agree :
  save_content_hash (VStr [32%N]) (VStr [])
  = Some (py "d41d8cd98f00b204e9800998ecf8427e")
  /\ fingerprint (VStr [32%N]) (VStr [])
     = Some (py "d41d8cd98f00b204e9800998ecf8427e")
  /\ save_content_hash (VStr (List.repeat 97%N 1000)) VNone
     = Some (py "cabe45dcc9ae5b66ba86600cca6b8ba8")
  /\ fingerprint (VStr (List.repeat 97%N 1000)) VNone
     = Some (py "cabe45dcc9ae5b66ba86600cca6b8ba8").
Proof. repeat split; vm_compute; reflexivity. Qed.

Lemma app_self_ne (x : pystr) : x <> [] -> x ++ x <> x.
Proof.
  intros Hx E. apply (f_equal length) in E. rewrite length_app in E.
  destruct x; [done|]. simpl in E. lia.
Qed.

(** C10, amended: with a content that is empty or missing, a save hashes
    the lower-cased cleaned title twice, while the duplicate check hashes
    the lower-cased title once; the two texts differ for every title that
    the cleaning and its bound leave as it is and that is not blank. *)
Theorem empty_content_hashes_title_twice (t : pystr) (content : pyval) :
  truthy content = false ->
  let x := strip (lower (clean_title (VStr t))) in
  save_hash_input (VStr t) content = x ++ x
  /\ save_content_hash (VStr t) content = md5_hex (x ++ x)
  /\ duplicate_hash_input (VStr t) content = Some (strip (lower t))
  /\ fingerprint (VStr t) content = md5_hex (strip (lower t))
  /\ (clean_title (VStr t) = t -> strip (lower t) <> [] ->
      save_hash_input (VStr t) content <> strip (lower t)).
Proof.
  intros Hc x.
  assert (save_hash_input (VStr t) content = x ++ x) as Hx.
  { rewrite save_hash_input_eq. unfold clean_text_for_db. rewrite Hc.
    reflexivity. }
  assert (duplicate_hash_input (VStr t) content = Some (strip (lower t))) as Hd.
  { unfold duplicate_hash_input. rewrite Hc. cbn [as_str].
    change (strip (lower [])) with (@nil N). by rewrite app_nil_r. }
  split; [exact Hx|]. split; [unfold save_content_hash; by rewrite Hx|].
  split; [exact Hd|]. split; [unfold fingerprint; by rewrite Hd|].
  intros Ht Hne. rewrite Hx. subst x. rewrite Ht. by apply app_self_ne.
Qed.

Lemma empty_content_hashes_title_twice_witness :
  save_hash_input sample_title (VStr []) <> strip (lower (py "OpenAI update"))
  /\ save_content_hash sample_title (VStr [])
     = Some (py "7f9540a9feece457d9417f0cd973e486")
  /\ fingerprint sample_title (VStr [])
     = Some (py "c803b6c5beff1b34e97f0d5073d35355").
Proof.
  destruct (empty_content_hashes_title_twice (py "OpenAI update") (VStr [])
              eq_refl) as (_ & _ & _ & _ & H).
  split.
  - apply H; vm_compute; [reflexivity | discriminate].
  - split; vm_compute; reflexivity.
Defined.

End Hashing.

Section Encoding.

Local Open Scope nat_scope.

Lemma utf8_cp_encodable c : encodable c = true -> exists bs, utf8_cp c = Some bs.
Proof.
  unfold encodable, utf8_cp. intros H. apply negb_true_iff in H. rewrite H.
  destruct (c <? 128)%N; [eauto|]. destruct (c <? 2048)%N; [eauto|].
  destruct (c <? 65536)%N; eauto.
Qed.

Lemma encode_encodable s :
  Forall (fun c => encodable c = true) s -> exists bs, encode s = Some bs.
Proof.
  induction 1 as [|c s Hc _ [bs IH]]; simpl; [eauto|].
  destruct (utf8_cp_encodable c Hc) as [b ->]. rewrite IH. eauto.
Qed.

Lemma md5_hex_encodable s :
  Forall (fun c => encodable c = true) s -> exists h, md5_hex s = Some h.
Proof.
  intros H. unfold md5_hex. destruct (encode_encodable s H) as [bs ->].
  simpl. eauto.
Qed.

Lemma lower_cp_encodable c : encodable c = true -> encodable (lower_cp c) = true.
Proof.
  unfold encodable, lower_cp. intros H.
  destruct (in_range 65 90 c) eqn:E1.
  - unfold in_range in *. apply andb_true_iff in E1 as [_ E1].
    apply N.leb_le in E1. apply negb_true_iff, andb_false_iff. left.
    apply N.leb_gt. lia.
  - destruct (in_range 192 222 c && negb (c =? 215)%N) eqn:E2; [|exact H].
    unfold in_range in *. apply andb_true_iff in E2 as [E2 _].
    apply andb_true_iff in E2 as [_ E2].
    apply N.leb_le in E2. apply negb_true_iff, andb_false_iff. left.
    apply N.leb_gt. lia.
Qed.

Lemma lower_encodable s :
  Forall (fun c => encodable c = true) s ->
  Forall (fun c => encodable c = true) (lower s).
Proof.
  unfold lower. induction 1; simpl; constructor; auto using lower_cp_encodable.
Qed.

(** The steps keep a property that holds for the characters they put in. *)
Lemma clean_steps_Forall (P : N -> Prop) s :
  P 32%N -> P 34%N -> P 39%N -> P 45%N -> P 46%N ->
  Forall P s -> Forall P (clean_steps s).
Proof.
  intros H32 H34 H39 H45 H46 Hs. rewrite clean_steps_eq.
  apply strip_Forall, join_Forall; [by repeat constructor|].
  apply split_Forall, strip_controls_Forall.
  rewrite apply_replacements_eq.
  repeat (apply replace_Forall; [done | by repeat constructor |]).
  exact Hs.
Qed.

Lemma clean_text_Forall (P : N -> Prop) v :
  P 32%N -> P 34%N -> P 39%N -> P 45%N -> P 46%N ->
  Forall P (py "Text cleaning failed") ->
  (forall s, py_str v = Some s -> Forall P s) ->
  Forall P (clean_text_for_db v).
Proof.
  intros H32 H34 H39 H45 H46 Hf Hs. unfold clean_text_for_db.
  destruct (truthy v); simpl; [|constructor].
  destruct (py_str v) as [s|]; [|exact Hf].
  apply clean_steps_Forall; auto.
Qed.

Lemma clean_text_encodable s :
  Forall (fun c => encodable c = true) s ->
  Forall (fun c => encodable c = true) (clean_text_for_db (VStr s)).
Proof.
  intros H. apply clean_text_Forall; try reflexivity.
  - apply (bool_decide_unpack _). vm_compute. reflexivity.
  - by intros s' [= <-].
Qed.

Lemma plain_ascii_encodable c : plain_ascii c = true -> encodable c = true.
Proof.
  unfold plain_ascii, encodable, in_range.
  rewrite andb_true_iff, negb_true_iff. intros [_ H].
  apply N.ltb_lt in H.
  destruct (N.leb_spec 55296 c); [lia|reflexivity].
Qed.

(** The hash of a save exists when title and content can be encoded. *)
Lemma save_content_hash_encodable title content :
  Forall (fun c => encodable c = true) title ->
  Forall (fun c => encodable c = true) content ->
  exists h, save_content_hash (VStr title) (VStr content) = Some h.
Proof.
  intros Ht Hc. unfold save_content_hash. apply md5_hex_encodable.
  assert (Forall (fun c => encodable c = true) (clean_title (VStr title))) as Ht'.
  { unfold clean_title, clean_bounded. destruct (truthy (VStr title)).
    - unfold slice_to. apply Forall_take. by apply clean_text_encodable.
    - apply (bool_decide_unpack _). vm_compute. reflexivity. }
  rewrite save_hash_input_eq. apply Forall_app. split.
  - by apply strip_Forall, lower_encodable.
  - apply strip_Forall, lower_encodable.
    pose proof (clean_text_encodable content Hc) as Hc'.
    destruct (clean_text_for_db (VStr content)) as [|c r]; [exact Ht'|].
    unfold slice_to. by apply Forall_take.
Qed.

End Encoding.

(** ** Orchestrator *)

Section Orchestrator.

Local Open Scope nat_scope.

Lemma zero_padded_length width n : length (zero_padded width n) = width.
Proof.
  revert n; induction width as [|w IH]; intros n; simpl; [done|].
  rewrite length_app, IH. simpl. lia.
Qed.

Lemma digit_plain k : plain_ascii (48 + N.of_nat (k mod 10)) = true.
Proof.
  pose proof (Nat.mod_upper_bound k 10 ltac:(lia)) as H.
  destruct (k mod 10) as [|[|[|[|[|[|[|[|[|[|d]]]]]]]]]]; try reflexivity.
  lia.
Qed.

Lemma zero_padded_plain width n :
  Forall (fun c => plain_ascii c = true) (zero_padded width n).
Proof.
  revert n; induction width as [|w IH]; intros n; simpl; [constructor|].
  apply Forall_app. split; [apply IH|].
  constructor; [apply digit_plain|constructor].
Qed.

Lemma zero_padded_word width n : 0 < width -> plain_word (zero_padded width n).
Proof.
  intros H. split; [|apply zero_padded_plain].
  intros E. apply (f_equal length) in E. rewrite zero_padded_length in E.
  simpl in E. lia.
Qed.

Lemma month_name_word m :
  1 <= m <= 12 -> plain_word (month_name m) /\ length (month_name m) <= 9.
Proof.
  intros H. unfold month_name.
  assert (Forall (fun w => (w <> [] /\ Forall (fun c => plain_ascii c = true) w)
                           /\ length w <= 9) month_names) as HF.
  { unfold month_names.
    repeat (constructor;
            [split; [split; [discriminate|];
                     apply (bool_decide_unpack _); vm_compute; reflexivity
                    | vm_compute; lia]|]).
    constructor. }
  rewrite Forall_forall in HF. apply HF.
  apply list_elem_of_In, nth_In.
  change (length month_names) with 12. lia.
Qed.

Lemma plain_word_py_app w1 w2 :
  plain_word w1 -> Forall (fun c => plain_ascii c = true) w2 ->
  plain_word (w1 ++ w2).
Proof.
  intros [Hne H1] H2. split; [by destruct w1|]. by apply Forall_app.
Qed.

Lemma plain_word_word w : plain_word w -> w <> [] /\ Forall (fun c => plain c = true) w.
Proof.
  intros [Hne H]. split; [done|]. eapply Forall_impl; [exact H|].
  intros c Hc. unfold plain_ascii in Hc. by apply andb_true_iff in Hc as [? _].
Qed.

(** The normalizer leaves plain words joined by single spaces alone, and
    the bound too when they fit. *)
Lemma clean_bounded_fixed n dflt ws :
  ws <> [] -> Forall plain_word ws -> length (join [32%N] ws) <= n ->
  clean_bounded n dflt (VStr (join [32%N] ws)) = join [32%N] ws.
Proof.
  intros Hne Hw Hl.
  assert (join [32%N] ws <> []) as HJ.
  { destruct Hw as [|w ws [Hw _] _]; [done|].
    destruct w; [done|]. by destruct ws. }
  unfold clean_bounded, clean_text_for_db. cbn [truthy py_str].
  destruct (join [32%N] ws) as [|c r] eqn:E; [done|].
  cbn [length Nat.eqb negb]. rewrite <- E.
  rewrite clean_steps_plain.
  - unfold slice_to. by rewrite take_ge by (rewrite E; exact Hl).
  - eapply Forall_impl; [exact Hw|]. apply plain_word_word.
Qed.

Lemma join_plain_encodable ws :
  Forall plain_word ws ->
  Forall (fun c => encodable c = true) (join [32%N] ws).
Proof.
  intros H. apply join_Forall; [by repeat constructor|].
  eapply Forall_impl; [exact H|]. intros w [_ Hw].
  eapply Forall_impl; [exact Hw|]. apply plain_ascii_encodable.
Qed.

Lemma time_based_title_words M D Y :
  py "AI Technology Update - " ++ M ++ py " " ++ D ++ py ", " ++ Y
  = join [32%N] [py "AI"; py "Technology"; py "Update"; py "-"; M;
                 D ++ py ","; Y].
Proof.
  cbn [join]. change (py ", ") with (py "," ++ [32%N]).
  change (py " ") with [32%N].
  change (py "AI Technology Update - ")
    with (py "AI" ++ [32%N] ++ py "Technology" ++ [32%N] ++ py "Update"
          ++ [32%N] ++ py "-" ++ [32%N]).
  by rewrite <- !app_assoc.
Qed.

Lemma literal_word (w : pystr) :
  bool_decide (w <> [] /\ Forall (fun c => plain_ascii c = true) w) = true ->
  plain_word w.
Proof. intros H. by apply bool_decide_eq_true in H. Qed.

(** The title of the time-based article, as words. *)
Lemma time_based_title_tidy t :
  valid_date t ->
  exists ws, py "AI Technology Update - " ++ strftime_B_d_Y t = join [32%N] ws
    /\ ws <> [] /\ Forall plain_word ws /\ length (join [32%N] ws) <= 500.
Proof.
  intros Hv. unfold strftime_B_d_Y.
  destruct (month_name_word (dt_month t) Hv) as [HM HMl].
  eexists. split; [apply time_based_title_words|].
  split; [done|]. split.
  - do 4 (apply Forall_cons; split;
            [apply literal_word; vm_compute; reflexivity|]).
    apply Forall_cons; split; [exact HM|].
    apply Forall_cons; split.
    { apply plain_word_py_app; [apply zero_padded_word; lia|].
      constructor; [reflexivity|constructor]. }
    apply Forall_cons; split; [apply zero_padded_word; lia|constructor].
  - rewrite <- time_based_title_words. rewrite !length_app.
    rewrite !zero_padded_length.
    change (length (py "AI Technology Update - ")) with 23.
    change (length (py " ")) with 1. change (length (py ", ")) with 2. lia.
Qed.

(** The url of the time-based article, one word. *)
Lemma time_based_url_tidy t :
  exists ws, py "https://ai-update.com/" ++ strftime_Ymd t = join [32%N] ws
    /\ ws <> [] /\ Forall plain_word ws /\ length (join [32%N] ws) <= 1000.
Proof.
  exists [py "https://ai-update.com/" ++ strftime_Ymd t].
  split; [reflexivity|]. split; [done|]. split.
  - constructor; [|constructor]. apply plain_word_py_app.
    + apply literal_word. vm_compute. reflexivity.
    + unfold strftime_Ymd. rewrite !Forall_app.
      repeat split; apply zero_padded_plain.
  - cbn [join]. unfold strftime_Ymd. rewrite !length_app, !zero_padded_length.
    change (length (py "https://ai-update.com/")) with 22. lia.
Qed.

Lemma initialised_columns t :
  initialised t -> add_missing_columns t = t /\ has_column "content_hash" t = true.
Proof.
  unfold initialised, insert_columns. cbn [forallb].
  rewrite !andb_true_iff. intros (_ & _ & _ & Hs & _ & _ & Hh & _).
  unfold add_missing_columns. by rewrite Hs, Hh.
Qed.

Lemma has_column_add c c' t :
  has_column c t = true -> has_column c (add_column c' t) = true.
Proof.
  unfold has_column, add_column. cbn [t_columns].
  intros H%bool_decide_eq_true. apply bool_decide_eq_true.
  apply elem_of_app. by left.
Qed.

Lemma has_column_added c t : has_column c (add_column c t) = true.
Proof.
  unfold has_column, add_column. cbn [t_columns].
  apply bool_decide_eq_true, elem_of_app. right. left.
Qed.

Lemma has_column_add_missing c t :
  has_column c t = true -> has_column c (add_missing_columns t) = true.
Proof.
  intros H. unfold add_missing_columns.
  destruct (has_column "summarize" t);
    match goal with |- context [has_column "content_hash" ?u] =>
      destruct (has_column "content_hash" u) end;
    auto using has_column_add.
Qed.

(** The repairs make a table initialised when it has the five columns
    that both [CREATE TABLE] statements give it. *)
Lemma add_missing_columns_initialises t :
  forallb (fun c => has_column c t)
          ["title"; "url"; "content"; "source"; "scraped_date"]%string = true ->
  initialised (add_missing_columns t).
Proof.
  cbn [forallb]. rewrite !andb_true_iff.
  intros (H1 & H2 & H3 & H4 & H5 & _).
  assert (has_column "content_hash" (add_missing_columns t) = true
          /\ has_column "summarize" (add_missing_columns t) = true) as [Hh Hs].
  { unfold add_missing_columns.
    destruct (has_column "summarize" t) eqn:Es.
    - destruct (has_column "content_hash" t) eqn:Eh; [done|].
      split; [apply has_column_added|by apply has_column_add].
    - destruct (has_column "content_hash" (add_column "summarize" t)) eqn:Eh.
      + split; [done|apply has_column_added].
      + split; [apply has_column_added|].
        apply has_column_add, has_column_added. }
  unfold initialised, insert_columns. cbn [forallb].
  rewrite Hs, Hh, !has_column_add_missing by done. reflexivity.
Qed.

(** Without fault, [init_database] leaves an initialised table, whether it
    finds no file, no table, the table of [AI.py] or its own. *)
Lemma init_database_initialises (fuel : nat) (e : env) (w : world) :
  fault_at e (w_tick w) = None ->
  forallb (fun c => has_column c (table_or_fresh (w_db w)))
          ["title"; "url"; "content"; "source"; "scraped_date"]%string = true ->
  exists w' t, init_database fuel e w = Some w'
    /\ w_db w' = DbFile (Some t) /\ initialised t
    /\ t_rows t = t_rows (table_or_fresh (w_db w)).
Proof.
  intros Hf Hc. unfold init_database. rewrite Hf.
  eexists _, _. split; [reflexivity|]. split; [reflexivity|]. split.
  - by apply add_missing_columns_initialises.
  - apply add_missing_columns_rows.
Qed.

Lemma filter_sublist {A} (p : A -> bool) (l : list A) :
  List.filter p l `sublist_of` l.
Proof.
  induction l as [|x l IH]; simpl; [constructor|].
  destruct (p x); by constructor.
Qed.

(** A save of a tidy title and url, into an initialised table and without
    fault, adds one row that holds them as they are. *)
Lemma save_news_tidy e w t title_words url_words content summarize source :
  w_db w = DbFile (Some t) -> initialised t ->
  fault_at e (w_tick w) = None ->
  title_words <> [] -> Forall plain_word title_words ->
  length (join [32%N] title_words) <= 500 ->
  url_words <> [] -> Forall plain_word url_words ->
  length (join [32%N] url_words) <= 1000 ->
  Forall (fun c => encodable c = true) content ->
  exists w' kept r,
    save_news 1 e w (VStr (join [32%N] title_words))
      (VStr (join [32%N] url_words)) (VStr content) summarize source
    = Some (true, w')
    /\ stored w' = kept ++ [r] /\ kept `sublist_of` t_rows t
    /\ r_title r = join [32%N] title_words
    /\ r_url r = join [32%N] url_words.
Proof.
  intros Hdb Hinit Hf Ht0 Htw Htl Hu0 Huw Hul Hc.
  destruct (initialised_columns t Hinit) as [Hamc Hcol].
  destruct (save_content_hash_encodable (join [32%N] title_words) content)
    as [h Hh]; [by apply join_plain_encodable|done|].
  assert (insertable t = true) as Hins.
  { unfold insertable. by rewrite Hamc. }
  destruct (save_attempt_calm e w (VStr (join [32%N] title_words))
              (VStr (join [32%N] url_words)) (VStr content) summarize source
              t h Hdb Hh Hf Hins) as [t' Ha].
  rewrite save_news_eq, Ha.
  apply save_attempt_ok in Ha as (t0 & h0 & t1 & Hdb0 & Hh0 & Hi & Hdb1).
  rewrite Hdb in Hdb0. injection Hdb0 as <-.
  apply insert_or_replace_inv in Hi as (_ & _ & Hrows).
  eexists _, _, _. split; [reflexivity|].
  unfold stored at 1. rewrite Hdb1, Hrows.
  split; [reflexivity|]. split.
  - rewrite add_missing_columns_rows. apply filter_sublist.
  - cbn [r_title r_url save_fields f_title f_url]. split.
    + unfold clean_title. by apply clean_bounded_fixed.
    + by apply clean_bounded_fixed.
Qed.

Lemma is_duplicate_seen e w t title h r :
  fault_at e (w_tick w) = None -> w_db w = DbFile (Some t) ->
  has_column "content_hash" t = true ->
  fingerprint (VStr title) (VStr []) = Some h ->
  r ∈ t_rows t -> r_content_hash r = Some h ->
  is_duplicate e w (VStr title) (VStr []) = (true, tick w).
Proof.
  intros Hf Hdb Hc Hh Hin Hr. unfold is_duplicate, lookup_fingerprint.
  rewrite Hh, Hf. cbv zeta. rewrite db_tick, Hdb.
  destruct (select_by_hash_present t h r Hc Hin Hr) as [id ->].
  reflexivity.
Qed.

Lemma scan_articles_seen e t name : forall articles w,
  (forall n, fault_at e n = None) -> w_db w = DbFile (Some t) ->
  has_column "content_hash" t = true ->
  Forall (seen t) articles ->
  exists w', scan_articles e articles name [] w = (false, [], w')
    /\ w_db w' = DbFile (Some t).
Proof.
  induction articles as [|a articles IH]; intros w Hf Hdb Hc Hs.
  - exists w. done.
  - apply Forall_cons in Hs as [(title & h & r & Ht & Hh & Hin & Hr) Hs].
    cbn [scan_articles]. rewrite Ht.
    rewrite (is_duplicate_seen e w t title h r (Hf _) Hdb Hc Hh Hin Hr).
    cbn [length Nat.leb]. apply IH; done.
Qed.

Lemma scan_sources_seen e f t : forall sources w,
  (forall n, fault_at e n = None) -> w_db w = DbFile (Some t) ->
  has_column "content_hash" t = true ->
  (forall s, Forall (seen t) (listing f s)) ->
  exists w', scan_sources e f sources [] w = ([], w')
    /\ w_db w' = DbFile (Some t).
Proof.
  induction sources as [|s sources IH]; intros w Hf Hdb Hc Hs.
  - exists w. done.
  - cbn [scan_sources].
    destruct (scan_articles_seen e t (src_name s) (listing f s) w Hf Hdb Hc (Hs s))
      as (w1 & -> & Hdb1).
    cbn [length Nat.leb]. apply IH; done.
Qed.

Lemma time_based_article_lookup t :
  time_based_article t !! "title"%string
  = Some (py "AI Technology Update - " ++ strftime_B_d_Y t)
  /\ time_based_article t !! "url"%string
     = Some (py "https://ai-update.com/" ++ strftime_Ymd t)
  /\ time_based_article t !! "source_name"%string
     = Some (py "AI Update Service").
Proof.
  unfold time_based_article. split; [|split].
  - by rewrite lookup_insert_eq.
  - rewrite lookup_insert_ne by done. by rewrite lookup_insert_eq.
  - rewrite !lookup_insert_ne by done. by rewrite lookup_insert_eq.
Qed.

Lemma contains_eq p s :
  contains p s
  = startswith p s || match s with
                      | [] => false
                      | _ :: s' => contains p s'
                      end.
Proof. by destruct s. Qed.

Lemma contains_app_l p s : contains p (p ++ s) = true.
Proof. by rewrite contains_eq, startswith_app. Qed.

Lemma contains_app_r p a s : contains p (a ++ p ++ s) = true.
Proof.
  induction a as [|c a IH]; [exact (contains_app_l p s)|].
  rewrite contains_eq. cbn [app]. rewrite IH. apply orb_true_r.
Qed.

Lemma stock_content_encodable :
  Forall (fun c => encodable c = true) (stock_content (py "AI Update Service")).
Proof. apply (bool_decide_unpack _). vm_compute. reflexivity. Qed.

(** The save of the time-based article, whatever content was fetched. *)
Lemma save_time_based_article (e : env) (w : world) (t : table)
    (content : pystr) (summarize source : pyval) :
  fault_at e (w_tick w) = None -> valid_date (now e w) ->
  w_db w = DbFile (Some t) -> initialised t ->
  Forall (fun c => encodable c = true) content ->
  exists w' kept r,
    save_news 1 e w
      (VStr (py "AI Technology Update - " ++ strftime_B_d_Y (now e w)))
      (VStr (py "https://ai-update.com/" ++ strftime_Ymd (now e w)))
      (VStr (slice_to 3000 (clean_text_for_db (VStr content))))
      summarize source
    = Some (true, w')
    /\ stored w' = kept ++ [r] /\ kept `sublist_of` t_rows t
    /\ r_title r = py "AI Technology Update - " ++ strftime_B_d_Y (now e w)
    /\ r_url r = py "https://ai-update.com/" ++ strftime_Ymd (now e w).
Proof.
  intros Hfault Hdate Hdb Hinit Hcontent.
  destruct (time_based_title_tidy (now e w) Hdate)
    as (tw & Htw & Htw0 & Htww & Htwl).
  destruct (time_based_url_tidy (now e w)) as (uw & Huw & Huw0 & Huww & Huwl).
  rewrite Htw, Huw.
  apply (save_news_tidy e w t tw uw); try done.
  unfold slice_to. apply Forall_take. by apply clean_text_encodable.
Qed.

(** When the browser starts: the time-based article is saved. *)
Lemma search_saves_time_based_article
    (e : env) (f : fetcher) (w : world) (t : table) :
  launch_ok f = true -> close_ok f = true ->
  (forall s, Forall (seen t) (listing f s)) ->
  (forall n, fault_at e n = None) ->
  (forall n, valid_date (now_at e n)) ->
  (forall url content source,
     full_content f url = Some (content, source) ->
     Forall (fun c => encodable c = true) content) ->
  w_db w = DbFile (Some t) -> initialised t ->
  exists w' kept r today,
    search_fresh_ai_news 1 e f w = Some w'
    /\ stored w' = kept ++ [r] /\ kept `sublist_of` t_rows t
    /\ r_title r = py "AI Technology Update - " ++ strftime_B_d_Y today
    /\ r_url r = py "https://ai-update.com/" ++ strftime_Ymd today
    /\ contains (strftime_B_d_Y today) (r_title r) = true
    /\ contains (strftime_Ymd today) (r_url r) = true
    /\ r_title r <> [] /\ r_url r <> [].
Proof.
  intros Hlaunch Hclose Hseen Hfault Hdate Henc Hdb Hinit.
  destruct (initialised_columns t Hinit) as [_ Hcol].
  unfold search_fresh_ai_news. rewrite Hlaunch.
  destruct (scan_sources_seen e f t AI_NEWS_SOURCES w Hfault Hdb Hcol Hseen)
    as (w1 & -> & Hdb1).
  set (today := now e w1).
  destruct (time_based_article_lookup today) as (Htitle & Hurl & Hname).
  unfold process_found. fold today. rewrite Htitle, Hname, Hurl.
  set (title := py "AI Technology Update - " ++ strftime_B_d_Y today).
  set (url := py "https://ai-update.com/" ++ strftime_Ymd today).
  assert (exists content source,
    match full_content f url with
    | Some p => Some p
    | None => option_map (fun source_name =>
                            (stock_content source_name, source_name))
                         (Some (py "AI Update Service"))
    end = Some (content, source)
    /\ Forall (fun c => encodable c = true) content)
    as (content & source & -> & Hcontent).
  { destruct (full_content f url) as [[c s']|] eqn:Hfc.
    - exists c, s'. eauto.
    - eexists _, _. split; [reflexivity|]. apply stock_content_encodable. }
  rewrite create_crispy_summary_str.
  destruct (save_time_based_article e w1 t content
              (VStr (truncate_summary
                       (summary_text (title_or_default title)
                          (slice_to 3000 (clean_text_for_db (VStr content))))))
              (VStr source) (Hfault _) (Hdate _) Hdb1 Hinit Hcontent)
    as (w' & kept & r & Hsave & Hstored & Hkept & Hrt & Hru).
  fold today title url in Hsave, Hrt, Hru. rewrite Hsave.
  rewrite bool_decide_eq_true_2 by (by eexists).
  cbn [andb negb]. rewrite Hclose.
  exists w', kept, r, today.
  split; [reflexivity|]. split; [exact Hstored|]. split; [exact Hkept|].
  split; [exact Hrt|]. split; [exact Hru|].
  rewrite Hrt, Hru. subst title url.
  split; [|split; [|split]].
  - rewrite <- (app_nil_r (strftime_B_d_Y today)) at 2. apply contains_app_r.
  - rewrite <- (app_nil_r (strftime_Ymd today)) at 2. apply contains_app_r.
  - discriminate.
  - discriminate.
Qed.

Lemma fallback_title_words M D Y H Mi :
  py "AI Industry Update - " ++ (M ++ py " " ++ D ++ py ", " ++ Y) ++ py " at "
    ++ H ++ py ":" ++ Mi
  = join [32%N] [py "AI"; py "Industry"; py "Update"; py "-"; M;
                 D ++ py ","; Y; py "at"; H ++ py ":" ++ Mi].
Proof.
  cbn [join]. change (py ", ") with (py "," ++ [32%N]).
  change (py " ") with [32%N].
  change (py " at ") with ([32%N] ++ py "at" ++ [32%N]).
  change (py "AI Industry Update - ")
    with (py "AI" ++ [32%N] ++ py "Industry" ++ [32%N] ++ py "Update"
          ++ [32%N] ++ py "-" ++ [32%N]).
  by rewrite <- !app_assoc.
Qed.

(** The title of the fallback article, as words. *)
Lemma fallback_title_tidy t :
  valid_date t ->
  exists ws, fallback_title t = join [32%N] ws
    /\ ws <> [] /\ Forall plain_word ws /\ length (join [32%N] ws) <= 500.
Proof.
  intros Hv. unfold fallback_title, strftime_B_d_Y_at_HM, strftime_B_d_Y.
  destruct (month_name_word (dt_month t) Hv) as [HM HMl].
  eexists. split; [apply fallback_title_words|].
  split; [done|]. split.
  - do 4 (apply Forall_cons; split;
            [apply literal_word; vm_compute; reflexivity|]).
    apply Forall_cons; split; [exact HM|].
    apply Forall_cons; split.
    { apply plain_word_py_app; [apply zero_padded_word; lia|].
      constructor; [reflexivity|constructor]. }
    apply Forall_cons; split; [apply zero_padded_word; lia|].
    apply Forall_cons; split; [apply literal_word; vm_compute; reflexivity|].
    apply Forall_cons; split; [|constructor].
    apply plain_word_py_app; [apply zero_padded_word; lia|].
    apply Forall_app. split; [|apply zero_padded_plain].
    constructor; [reflexivity|constructor].
  - rewrite <- fallback_title_words. rewrite !length_app.
    rewrite !zero_padded_length.
    change (length (py "AI Industry Update - ")) with 21.
    change (length (py " ")) with 1. change (length (py ", ")) with 2.
    change (length (py " at ")) with 4. change (length (py ":")) with 1. lia.
Qed.

(** The url of the fallback article, one word. *)
Lemma fallback_url_tidy t :
  exists ws, fallback_url t = join [32%N] ws
    /\ ws <> [] /\ Forall plain_word ws /\ length (join [32%N] ws) <= 1000.
Proof.
  exists [fallback_url t].
  split; [reflexivity|]. split; [done|]. split.
  - constructor; [|constructor]. apply plain_word_py_app.
    + apply literal_word. vm_compute. reflexivity.
    + unfold strftime_YmdHM, strftime_Ymd. rewrite !Forall_app.
      repeat split; apply zero_padded_plain.
  - cbn [join]. unfold fallback_url, strftime_YmdHM, strftime_Ymd.
    rewrite !length_app, !zero_padded_length.
    change (length (py "https://ai-update.com/fallback/")) with 31. lia.
Qed.

Lemma fallback_content_encodable :
  Forall (fun c => encodable c = true) (strip fallback_content).
Proof. apply (bool_decide_unpack _). vm_compute. reflexivity. Qed.

(** [create_fallback_article] saves one record, the fallback article. *)
Lemma create_fallback_article_saves (e : env) (w : world) (t : table) :
  fault_at e (w_tick w) = None -> valid_date (now e w) ->
  w_db w = DbFile (Some t) -> initialised t ->
  exists w' kept r,
    create_fallback_article 1 e w = Some w'
    /\ stored w' = kept ++ [r] /\ kept `sublist_of` t_rows t
    /\ r_title r = fallback_title (now e w)
    /\ r_url r = fallback_url (now e w).
Proof.
  intros Hfault Hdate Hdb Hinit. unfold create_fallback_article.
  destruct (fallback_title_tidy (now e w) Hdate)
    as (tw & Htw & Htw0 & Htww & Htwl).
  destruct (fallback_url_tidy (now e w)) as (uw & Huw & Huw0 & Huww & Huwl).
  rewrite Htw, Huw.
  destruct (save_news_tidy e w t tw uw (strip fallback_content)
              (VStr fallback_summary) (VStr (py "AI Update Service"))
              Hdb Hinit Hfault Htw0 Htww Htwl Huw0 Huww Huwl
              fallback_content_encodable)
    as (w' & kept & r & -> & Hstored & Hkept & Hrt & Hru).
  exists w', kept, r. done.
Qed.



End Orchestrator.

(** * Further properties *)

(** ** Text normalizer: the shape of the result *)

Section NormalizerShape.

Local Open Scope nat_scope.

Lemma clean_text_words (v : pyval) :
  exists ws, clean_text_for_db v = join [32%N] ws
    /\ Forall word ws /\ Forall (Forall settled) ws.
Proof.
  unfold clean_text_for_db. destruct (truthy v); cbn [negb].
  - destruct (py_str v) as [s|]; [apply clean_steps_shape|].
    exists [py "Text"; py "cleaning"; py "failed"].
    split; [reflexivity|].
    split; apply (bool_decide_unpack _); vm_compute; reflexivity.
  - by exists [].
Qed.

Lemma contains_skip p c w s :
  Forall (fun b => b <> c) w ->
  contains (c :: p) (w ++ s) = contains (c :: p) s.
Proof.
  induction 1 as [|b w Hb _ IH]; [done|].
  cbn [app]. rewrite contains_eq. cbn [startswith].
  replace (c =? b)%N with false; [done|].
  symmetry. apply N.eqb_neq. congruence.
Qed.

Lemma word_no_space w : word w -> Forall (fun b => b <> 32%N) w.
Proof.
  intros [_ H]. eapply Forall_impl; [exact H|].
  intros b Hb ->. vm_compute in Hb. discriminate.
Qed.

Lemma join_single_spaced ws :
  Forall word ws -> contains [32%N; 32%N] (join [32%N] ws) = false.
Proof.
  induction 1 as [|w ws Hw Hws IH]; [done|].
  destruct ws as [|w' ws'].
  - cbn [join]. rewrite <- (app_nil_r w).
    rewrite contains_skip by by apply word_no_space. done.
  - change (join [32%N] (w :: w' :: ws'))
      with (w ++ 32%N :: join [32%N] (w' :: ws')).
    rewrite contains_skip by by apply word_no_space.
    rewrite contains_eq, IH, orb_false_r.
    apply Forall_cons in Hws as [Hw' _].
    pose proof (join_head w' ws' Hw') as Hh.
    destruct (join [32%N] (w' :: ws')) as [|c r]; [done|].
    cbn [startswith]. replace (32 =? c)%N with false; [done|].
    symmetry. apply N.eqb_neq. intros <-. vm_compute in Hh. discriminate.
Qed.

(** X1.  Whatever it is given, [clean_text_for_db] returns words separated
    by single spaces: no control character of the class it removes, no
    whitespace but the space, no dash or ellipsis of the table, nothing to
    strip at either end and no two spaces in a row. *)
Theorem clean_text_single_spaced (v : pyval) :
  let s := clean_text_for_db v in
  (exists ws, s = join [32%N] ws /\ Forall word ws)
  /\ Forall (fun c => is_control c = false
                      /\ (is_space c = true -> c = 32%N)
                      /\ c <> 8211%N /\ c <> 8212%N /\ c <> 8230%N) s
  /\ strip s = s
  /\ contains [32%N; 32%N] s = false.
Proof.
  cbn zeta. destruct (clean_text_words v) as (ws & -> & Hw & Hs).
  split; [by exists ws|].
  split; [|split; [by apply strip_join | by apply join_single_spaced]].
  apply join_Forall.
  - repeat constructor; done.
  - rewrite Forall_forall in *. intros w Hin.
    specialize (Hw w Hin) as [_ Hw]. specialize (Hs w Hin).
    rewrite Forall_forall in *. intros c Hc.
    destruct (Hs c Hc) as (? & ? & ? & ?).
    repeat split; try done.
    intros Hsp. rewrite (Hw c Hc) in Hsp. discriminate.
Qed.

(** X2.  Cleaning a cleaned text again changes nothing, unless the first
    pass has produced the seven-character key of the table. *)
Theorem clean_text_idempotent_without_key (v : pyval) :
  contains replacement_key (clean_text_for_db v) = false ->
  clean_text_for_db (VStr (clean_text_for_db v)) = clean_text_for_db v.
Proof. apply clean_text_idempotent_off_key. Qed.

Lemma clean_text_idempotent_without_key_witness :
  clean_text_for_db (VStr (clean_text_for_db sample_content))
  = clean_text_for_db sample_content.
Proof.
  apply (clean_text_idempotent_without_key sample_content).
  vm_compute. reflexivity.
Defined.

Lemma words_from_blank s :
  Forall (fun c => is_space c = true) s -> words_from s = ([], []).
Proof.
  induction 1 as [|c s Hc _ IH]; [done|].
  cbn [words_from]. by rewrite IH, Hc.
Qed.

Lemma Forall_not_elem (P : N -> Prop) (c : N) (s : pystr) :
  Forall P s -> ~ P c -> c ∉ s.
Proof. intros H Hc Hin. rewrite Forall_forall in H. by apply Hc, H. Qed.

Lemma clean_blank (s : pystr) :
  Forall (fun c => is_space c || is_control c = true) s ->
  clean_text_for_db (VStr s) = [].
Proof.
  intros H. unfold clean_text_for_db.
  destruct (truthy (VStr s)); [|done]. cbn [negb py_str].
  rewrite clean_steps_eq.
  set (P := fun c => is_space c || is_control c = true) in *.
  set (x := replace [9%N] _ _).
  assert (Forall P x) as Hx.
  { subst x. repeat apply replace_char_Forall; try done; by repeat constructor. }
  assert (apply_replacements x = x) as ->.
  { rewrite apply_replacements_eq, replace_same.
    rewrite (replace_absent replacement_key); [|done|].
    2:{ apply (contains_without 34%N); [set_solver|].
        apply (Forall_not_elem P); [done | by vm_compute]. }
    rewrite (replace_absent [8211%N]); [|done|].
    2:{ apply (contains_without 8211%N); [set_solver|].
        apply (Forall_not_elem P); [done | by vm_compute]. }
    rewrite (replace_absent [8212%N]); [|done|].
    2:{ apply (contains_without 8212%N); [set_solver|].
        apply (Forall_not_elem P); [done | by vm_compute]. }
    rewrite (replace_absent [8230%N]); [done|done|].
    apply (contains_without 8230%N); [set_solver|].
    apply (Forall_not_elem P); [done | by vm_compute]. }
  assert (Forall (fun c => is_space c = true) (strip_controls x)) as Hb.
  { clear -Hx. induction Hx as [|c x Hc _ IH]; [constructor|].
    unfold strip_controls in *. cbn [List.filter].
    destruct (is_control c) eqn:E; cbn [negb]; [done|].
    constructor; [|done]. unfold P in Hc. by rewrite E, orb_false_r in Hc. }
  unfold split. by rewrite (words_from_blank _ Hb).
Qed.

(** X3.  A text of whitespace and control characters only is cleaned to
    the empty string. *)
Theorem clean_text_blank (s : pystr) :
  Forall (fun c => is_space c || is_control c = true) s ->
  clean_text_for_db (VStr s) = [].
Proof. apply clean_blank. Qed.

Lemma clean_text_blank_witness :
  clean_text_for_db (VStr [32; 9; 10; 0; 31; 160; 8232; 127]%N) = [].
Proof.
  apply clean_text_blank.
  apply (bool_decide_unpack _). vm_compute. reflexivity.
Defined.

(** X4.  A text of words separated by single spaces, whose characters are
    none of those the steps touch, is returned as it is. *)
Theorem clean_text_keeps_tidy_text (ws : list pystr) :
  Forall (fun w => w <> [] /\ Forall (fun c => plain c = true) w) ws ->
  clean_text_for_db (VStr (join [32%N] ws)) = join [32%N] ws.
Proof.
  intros H. unfold clean_text_for_db.
  destruct (truthy (VStr (join [32%N] ws))) eqn:E; cbn [negb py_str].
  - by apply clean_steps_plain.
  - cbn [truthy] in E. by destruct (join [32%N] ws).
Qed.

Lemma clean_text_keeps_tidy_text_witness :
  clean_text_for_db (VStr (join [32%N] [py "OpenAI"; py "update,"; py "revised"]))
  = join [32%N] [py "OpenAI"; py "update,"; py "revised"].
Proof.
  apply clean_text_keeps_tidy_text.
  apply (bool_decide_unpack _). vm_compute. reflexivity.
Defined.

End NormalizerShape.

(** ** Letter case *)

Section LetterCase.

Lemma lower_cp_fixed x :
  x < 65 \/ 90 < x -> x < 192 \/ 222 < x \/ x = 215 -> lower_cp x = x.
Proof.
  intros H1 H2. unfold lower_cp, in_range.
  destruct (N.leb_spec 65 x), (N.leb_spec x 90); cbn [andb]; try lia.
  all: destruct (N.leb_spec 192 x), (N.leb_spec x 222), (N.eqb_spec x 215);
    cbn [andb negb]; try reflexivity; lia.
Qed.

Lemma lower_cp_lower_cp c : lower_cp (lower_cp c) = lower_cp c.
Proof.
  unfold lower_cp at 2 3. destruct (in_range 65 90 c) eqn:A.
  - unfold in_range in A. apply andb_true_iff in A as [A B].
    apply N.leb_le in A, B. apply lower_cp_fixed; lia.
  - destruct (in_range 192 222 c && negb (c =? 215)) eqn:B.
    + apply andb_true_iff in B as [B _].
      unfold in_range in B. apply andb_true_iff in B as [B C].
      apply N.leb_le in B, C. apply lower_cp_fixed; lia.
    + unfold lower_cp. by rewrite A, B.
Qed.

Lemma lower_lower s : lower (lower s) = lower s.
Proof.
  unfold lower. rewrite map_map. apply map_ext. apply lower_cp_lower_cp.
Qed.

Lemma lower_app a b : lower (a ++ b) = lower a ++ lower b.
Proof. apply map_app. Qed.

Lemma lower_length s : length (lower s) = length s.
Proof. apply length_map. Qed.

Lemma is_space_letter x :
  33 <= x <= 132 \/ 161 <= x <= 5759 -> is_space x = false.
Proof.
  intros H. unfold is_space, in_range.
  repeat apply orb_false_intro;
    first [ apply N.eqb_neq; lia
          | apply andb_false_iff;
            first [ left; apply N.leb_gt; lia | right; apply N.leb_gt; lia ] ].
Qed.

Lemma is_space_lower_cp c : is_space (lower_cp c) = is_space c.
Proof.
  unfold lower_cp. destruct (in_range 65 90 c) eqn:A.
  - unfold in_range in A. apply andb_true_iff in A as [A B].
    apply N.leb_le in A, B.
    rewrite !is_space_letter; [done | lia | lia].
  - destruct (in_range 192 222 c && negb (c =? 215)) eqn:B; [|done].
    apply andb_true_iff in B as [B _].
    unfold in_range in B. apply andb_true_iff in B as [B C].
    apply N.leb_le in B, C.
    rewrite !is_space_letter; [done | lia | lia].
Qed.

Lemma lstrip_lower s : lstrip (lower s) = lower (lstrip s).
Proof.
  induction s as [|c s IH]; [done|].
  cbn [lower List.map lstrip]. rewrite is_space_lower_cp.
  by destruct (is_space c).
Qed.

Lemma lower_rev s : lower (rev s) = rev (lower s).
Proof. unfold lower. by rewrite map_rev. Qed.

Lemma strip_lower s : strip (lower s) = lower (strip s).
Proof.
  unfold strip, rstrip.
  by rewrite lstrip_lower, <- lower_rev, lstrip_lower, lower_rev.
Qed.

End LetterCase.

(** ** Summary synthesizer: letter case and other types *)

Section SummaryCases.

Lemma summary_text_lower t c :
  summary_text (lower t) (lower c) = summary_text t c.
Proof. unfold summary_text. by rewrite !lower_lower. Qed.

Lemma title_or_default_lower t :
  lower (title_or_default (lower t)) = lower (title_or_default t).
Proof.
  unfold title_or_default. rewrite lower_length.
  destruct (length t =? 0)%nat; [done|]. apply lower_lower.
Qed.




End SummaryCases.

(** ** Trending scorer: bounds, letter case, longer titles *)

Section ScorerBounds.

Local Open Scope Z_scope.

Lemma score_formula (article : gmap string pystr) :
  calculate_trending_score article
  = 20 * Z.of_nat (length (matched trending_keywords (lower (dict_get article "title"))))
    + 15 * Z.of_nat (length (matched ai_companies (lower (dict_get article "title"))))
    + 10 * Z.of_nat (length (matched hot_topics (lower (dict_get article "title"))))
    + source_bonus (lower (dict_get article "source")).
Proof.
  unfold calculate_trending_score. rewrite !score_keywords_count. lia.
Qed.

Lemma matched_length keys title : (length (matched keys title) <= length keys)%nat.
Proof. unfold matched. apply List.filter_length_le. Qed.

Lemma source_bonus_range s : 0 <= source_bonus s <= 15.
Proof. unfold source_bonus. repeat case_match; lia. Qed.

(** An article whose title names every keyword. *)
Lemma score_575 :
  calculate_trending_score
    (<["title"%string := join [32%N] (trending_keywords ++ ai_companies ++ hot_topics)]>
       (<["source"%string := py "Google News"]> ∅)) = 575.
Proof. vm_compute. reflexivity. Qed.

(** X7.  The score lies between 0 and 575; an article without title and
    source scores 0, and 575 is reached. *)
Theorem trending_score_bounds :
  (forall article : gmap string pystr,
     0 <= calculate_trending_score article <= 575)
  /\ calculate_trending_score ∅ = 0
  /\ exists article : gmap string pystr, calculate_trending_score article = 575.
Proof.
  split; [|split].
  - intros article. rewrite score_formula.
    pose proof (matched_length trending_keywords (lower (dict_get article "title"))) as H1.
    pose proof (matched_length ai_companies (lower (dict_get article "title"))) as H2.
    pose proof (matched_length hot_topics (lower (dict_get article "title"))) as H3.
    pose proof (source_bonus_range (lower (dict_get article "source"))) as H4.
    change (length trending_keywords) with 15%nat in H1.
    change (length ai_companies) with 10%nat in H2.
    change (length hot_topics) with 11%nat in H3.
    revert H1 H2 H3 H4.
    generalize (length (matched trending_keywords (lower (dict_get article "title")))).
    generalize (length (matched ai_companies (lower (dict_get article "title")))).
    generalize (length (matched hot_topics (lower (dict_get article "title")))).
    generalize (source_bonus (lower (dict_get article "source"))).
    intros. lia.
  - vm_compute. reflexivity.
  - eexists. apply score_575.
Qed.

Lemma dict_get_insert (d : gmap string pystr) k v :
  dict_get (<[k := v]> d) k = v.
Proof. unfold dict_get. by rewrite lookup_insert_eq. Qed.

Lemma dict_get_insert_ne (d : gmap string pystr) k k' v :
  k <> k' -> dict_get (<[k := v]> d) k' = dict_get d k'.
Proof. intros H. unfold dict_get. by rewrite lookup_insert_ne. Qed.


Lemma startswith_app_r p s q :
  startswith p s = true -> startswith p (s ++ q) = true.
Proof.
  revert s. induction p as [|a p IH]; intros [|b s]; cbn; try done.
  intros [-> ?]%andb_true_iff. by rewrite IH.
Qed.

Lemma contains_app_right p s q :
  contains p s = true -> contains p (s ++ q) = true.
Proof.
  induction s as [|b s IH].
  - cbn [contains]. rewrite orb_false_r. intros H.
    destruct p; [|done]. by destruct q.
  - rewrite contains_eq. intros [H|H]%orb_true_iff.
    + cbn [app]. rewrite contains_eq.
      change (b :: s ++ q) with ((b :: s) ++ q).
      by rewrite (startswith_app_r _ _ _ H).
    + cbn [app]. rewrite contains_eq. rewrite (IH H). apply orb_true_r.
Qed.

Lemma contains_app_left p a s :
  contains p s = true -> contains p (a ++ s) = true.
Proof.
  intros H. induction a as [|b a IH]; [done|].
  cbn [app]. rewrite contains_eq, IH. apply orb_true_r.
Qed.

Lemma filter_length_mono {A} (p q : A -> bool) (l : list A) :
  (forall x, p x = true -> q x = true) ->
  (length (List.filter p l) <= length (List.filter q l))%nat.
Proof.
  intros H. induction l as [|x l IH]; [done|].
  cbn [List.filter]. destruct (p x) eqn:E.
  - rewrite (H x E). cbn [length]. lia.
  - destruct (q x); cbn [length]; lia.
Qed.

Lemma matched_mono keys a t b :
  (length (matched keys (lower t))
   <= length (matched keys (lower (a ++ t ++ b))))%nat.
Proof.
  apply filter_length_mono. intros k H.
  rewrite !lower_app. by apply contains_app_left, contains_app_right.
Qed.


End ScorerBounds.

(** ** Duplicate detector: what a lookup leaves and what it finds *)

Section Detector.

Local Open Scope nat_scope.

Lemma is_duplicate_keeps (e : env) (w : world) (title content : pyval) :
  stored (snd (is_duplicate e w title content)) = stored w
  /\ w_backups (snd (is_duplicate e w title content)) = w_backups w
  /\ (forall t, w_db w = DbFile (Some t) ->
       w_db (snd (is_duplicate e w title content)) = DbFile (Some t)).
Proof.
  unfold is_duplicate, lookup_fingerprint, stored.
  destruct (fingerprint title content) as [h|]; [|done].
  destruct (fault_at e (w_tick w)); [done|].
  change (w_db (tick w)) with (w_db w).
  destruct (w_db w) as [|[t|]] eqn:E; cbn; try done.
  destruct (select_by_hash t h) as [[id|]|]; cbn; by rewrite ?E.
Qed.

(** X10.  A duplicate check changes neither the rows of the table nor the
    backups, whatever its arguments and however it ends. *)
Theorem is_duplicate_reads_only (e : env) (w : world) (title content : pyval) :
  stored (snd (is_duplicate e w title content)) = stored w
  /\ w_backups (snd (is_duplicate e w title content)) = w_backups w.
Proof.
  destruct (is_duplicate_keeps e w title content) as (H1 & H2 & _). by split.
Qed.

Lemma lstrip_lstrip s : lstrip (lstrip s) = lstrip s.
Proof.
  induction s as [|c s IH]; [done|].
  cbn [lstrip]. destruct (is_space c) eqn:E; [done|].
  cbn [lstrip]. by rewrite E.
Qed.

Lemma lstrip_head_not_space s :
  match lstrip s with
  | [] => True
  | c :: _ => is_space c = false
  end.
Proof.
  induction s as [|c s IH]; [done|].
  cbn [lstrip]. by destruct (is_space c) eqn:E.
Qed.

Lemma rstrip_rstrip s : rstrip (rstrip s) = rstrip s.
Proof. unfold rstrip. by rewrite rev_involutive, lstrip_lstrip. Qed.

Lemma lstrip_rstrip_lstrip s : lstrip (rstrip (lstrip s)) = rstrip (lstrip s).
Proof.
  apply lstrip_head. pose proof (lstrip_head_not_space s) as H.
  destruct (rstrip_prefix (lstrip s)) as [q Hq].
  destruct (rstrip (lstrip s)) as [|c r]; [done|].
  rewrite Hq in H. exact H.
Qed.

Lemma strip_strip s : strip (strip s) = strip s.
Proof. unfold strip. by rewrite lstrip_rstrip_lstrip, rstrip_rstrip. Qed.


Lemma is_duplicate_present e w t title content h r :
  fault_at e (w_tick w) = None -> w_db w = DbFile (Some t) ->
  has_column "content_hash" t = true ->
  fingerprint title content = Some h ->
  r ∈ t_rows t -> r_content_hash r = Some h ->
  is_duplicate e w title content = (true, tick w).
Proof.
  intros Hf Hdb Hc Hh Hr Hrh.
  unfold is_duplicate, lookup_fingerprint. rewrite Hh, Hf.
  change (w_db (tick w)) with (w_db w). rewrite Hdb.
  destruct (select_by_hash_present t h r Hc Hr Hrh) as [id ->]. done.
Qed.

End Detector.

(** ** Saving: the row written, the rows kept *)

Section SavedRow.

Local Open Scope nat_scope.

Lemma kept_trivially : kept_by_repairs (fun _ => True).
Proof. by repeat split. Qed.

(** The table a successful save leaves: the table [t] the last attempt
    found, repaired, without the rows in conflict, and the new row. *)
Lemma save_news_last_row fuel e w title url content summarize source w1 :
  save_news fuel e w title url content summarize source = Some (true, w1) ->
  exists w0 t h t',
    w_db w0 = DbFile (Some t)
    /\ save_content_hash title content = Some h
    /\ w_db w1 = DbFile (Some t')
    /\ initialised t'
    /\ t_rows t'
       = List.filter
           (fun old => negb (conflicts (add_missing_columns t)
                               (save_fields title url content summarize source
                                            (now e w0) h) old))
           (t_rows t)
         ++ [mk_row (t_seq (add_missing_columns t) + 1)%N (clean_title title)
               (clean_url url) (clean_content content)
               (Some (clean_bounded 500 (py "AI technology news update.") summarize))
               (clean_bounded 200 (py "Unknown Source") source)
               (isoformat (now e w0)) (Some h) (now e w0)].
Proof.
  intros H.
  assert (on_db (fun _ => True) w) as Hw.
  { unfold on_db. by destruct (w_db w). }
  destruct (save_news_true (fun _ => True) _ _ _ _ _ _ _ _ _ kept_trivially Hw H)
    as (w0 & _ & Ha).
  destruct (save_attempt_ok _ _ _ _ _ _ _ _ Ha) as (t & h & t' & Hdb & Hh & Hi & Hdb').
  exists w0, t, h, t'. repeat (split; [done|]).
  destruct (insert_or_replace_inv _ _ _ _ Hi) as (_ & Hcols & Hrows).
  split.
  - unfold insert_or_replace in Hi.
    destruct (forallb _ insert_columns) eqn:E; [|done].
    unfold initialised. clear Hi. revert E. unfold has_column.
    by rewrite Hcols.
  - rewrite Hrows, add_missing_columns_rows. reflexivity.
Qed.

Lemma save_hash_input_content title content :
  clean_content content <> [] ->
  duplicate_hash_input (VStr (clean_title title)) (VStr (clean_content content))
  = Some (save_hash_input title content).
Proof.
  intros H. unfold duplicate_hash_input, save_hash_input. cbn [as_str truthy].
  destruct (clean_content content) as [|c r]; [done|]. reflexivity.
Qed.

(** X12.  Round trip: once an article is saved with some content left
    after cleaning, a check on the title and the content of its row
    answers [True]. *)
Theorem saved_row_is_duplicate (fuel : nat) (e : env) (w w1 : world)
    (title url content summarize source : pyval) :
  save_news fuel e w title url content summarize source = Some (true, w1) ->
  clean_content content <> [] ->
  fault_at e (w_tick w1) = None ->
  fst (is_duplicate e w1 (VStr (clean_title title))
         (VStr (clean_content content))) = true.
Proof.
  intros Hs Hc Hf.
  destruct (save_news_last_row _ _ _ _ _ _ _ _ _ Hs)
    as (w0 & t & h & t' & _ & Hh & Hdb & Hi & Hrows).
  erewrite (is_duplicate_present e w1 t' _ _ h); [done|done|done| | | |].
  - by apply initialised_columns in Hi as [_ ?].
  - unfold fingerprint. by rewrite save_hash_input_content.
  - rewrite Hrows. apply elem_of_app. right. apply list_elem_of_singleton.
    reflexivity.
  - reflexivity.
Qed.

Lemma saved_row_is_duplicate_witness :
  fst (is_duplicate calm
         (after_save 1 calm fresh_world sample_title sample_url sample_content
                     sample_summary sample_source)
         (VStr (clean_title sample_title))
         (VStr (clean_content sample_content))) = true.
Proof.
  apply (saved_row_is_duplicate 1 calm fresh_world _ sample_title sample_url
           sample_content sample_summary sample_source).
  - vm_compute. reflexivity.
  - vm_compute. discriminate.
  - reflexivity.
Defined.

Lemma clean_bounded_length n dflt v :
  length dflt <= n -> length (clean_bounded n dflt v) <= n.
Proof.
  intros H. unfold clean_bounded, slice_to.
  destruct (truthy v); [|done]. rewrite length_take. lia.
Qed.

(** X13.  The row a successful save writes is the last one of the table,
    and its fields respect the bounds of the slices: 500 characters of
    title, 1000 of url, 5000 of content, 500 of summary, 200 of source;
    its summary and its hash are not NULL. *)
Theorem saved_row_within_bounds (fuel : nat) (e : env) (w w1 : world)
    (title url content summarize source : pyval) :
  save_news fuel e w title url content summarize source = Some (true, w1) ->
  exists kept r summary h,
    stored w1 = kept ++ [r]
    /\ length (r_title r) <= 500 /\ length (r_url r) <= 1000
    /\ length (r_content r) <= 5000
    /\ r_summarize r = Some summary /\ length summary <= 500
    /\ length (r_source r) <= 200
    /\ r_content_hash r = Some h /\ save_content_hash title content = Some h.
Proof.
  intros Hs.
  destruct (save_news_last_row _ _ _ _ _ _ _ _ _ Hs)
    as (w0 & t & h & t' & _ & Hh & Hdb & _ & Hrows).
  unfold stored. rewrite Hdb, Hrows.
  eexists _, _, _, h. split; [reflexivity|]. cbn.
  repeat split; try done; apply clean_bounded_length; vm_compute; lia.
Qed.

Lemma saved_row_within_bounds_witness :
  exists kept r summary h,
    stored (after_save 1 calm fresh_world long_title sample_url sample_content
                       sample_summary sample_source) = kept ++ [r]
    /\ length (r_title r) <= 500 /\ length (r_url r) <= 1000
    /\ length (r_content r) <= 5000
    /\ r_summarize r = Some summary /\ length summary <= 500
    /\ length (r_source r) <= 200
    /\ r_content_hash r = Some h
    /\ save_content_hash long_title sample_content = Some h.
Proof.
  apply (saved_row_within_bounds 1 calm fresh_world _ long_title sample_url
           sample_content sample_summary sample_source).
  vm_compute. reflexivity.
Defined.

End SavedRow.

(** ** Saving: failures, repairs and the UNIQUE columns *)

Section SaveOutcomes.

Local Open Scope nat_scope.

Lemma backups_added_columns t w :
  w_backups (log_added_columns t w) = w_backups w.
Proof.
  unfold log_added_columns.
  by destruct (has_column "summarize" t), (has_column "content_hash" t).
Qed.

Lemma stored_set_db t w : stored (set_db (DbFile (Some t)) w) = t_rows t.
Proof. reflexivity. Qed.

(** A failed attempt leaves the rows and the backups as they were. *)
Lemma save_attempt_failed e w title url content summarize source x w0 :
  save_attempt e w title url content summarize source = (Some x, w0) ->
  stored w0 = stored w /\ w_backups w0 = w_backups w.
Proof.
  unfold save_attempt.
  destruct (save_content_hash title content) as [h|]; [|by intros [= _ <-]].
  change (w_db (tick w)) with (w_db w).
  unfold stored at 2.
  destruct (w_db w) as [|[t|]] eqn:Hdb; [by intros [= _ <-]| |by intros [= _ <-]].
  destruct (fault_at e (w_tick w)) as [y|].
  - intros [= _ <-]. rewrite stored_set_db, add_missing_columns_rows.
    split; [done|]. cbn [w_backups set_db]. by rewrite backups_added_columns.
  - destruct (insert_or_replace _ _ _); [done|].
    intros [= _ <-]. rewrite stored_set_db, add_missing_columns_rows.
    split; [done|]. cbn [w_backups set_db]. by rewrite backups_added_columns.
Qed.

(** X14.  A save whose attempt ends with an exception other than the
    missing column returns [False] and leaves the rows and the backups as
    they were: nothing of the article is stored. *)
Theorem failed_save_keeps_rows (fuel : nat) (e : env) (w w0 : world)
    (title url content summarize source : pyval) (x : exn) :
  save_attempt e w title url content summarize source = (Some x, w0) ->
  x <> OperationalError true ->
  exists w1,
    save_news (S fuel) e w title url content summarize source
    = Some (false, w1)
    /\ stored w1 = stored w /\ w_backups w1 = w_backups w.
Proof.
  intros Ha Hx.
  destruct (save_news_no_retry fuel _ _ _ _ _ _ _ _ _ Ha Hx) as (l & -> & _).
  destruct (save_attempt_failed _ _ _ _ _ _ _ _ _ Ha) as [H1 H2].
  eexists. split; [reflexivity|]. by split.
Qed.

Lemma failed_save_keeps_rows_witness :
  exists w1,
    save_news 1 (gale 2)
      (after_save 1 calm fresh_world sample_title sample_url sample_content
                  sample_summary sample_source)
      other_title other_url sample_content sample_summary sample_source
    = Some (false, w1)
    /\ stored w1
       = stored (after_save 1 calm fresh_world sample_title sample_url
                            sample_content sample_summary sample_source)
    /\ w_backups w1
       = w_backups (after_save 1 calm fresh_world sample_title sample_url
                               sample_content sample_summary sample_source).
Proof.
  eapply (failed_save_keeps_rows 0 (gale 2) _ _ other_title other_url
            sample_content sample_summary sample_source
            OtherError).
  - vm_compute. reflexivity.
  - discriminate.
Defined.

End SaveOutcomes.

Section UniqueColumns.

Local Open Scope nat_scope.

Lemma elem_of_filter_list {A} (p : A -> bool) (l : list A) (x : A) :
  x ∈ List.filter p l <-> x ∈ l /\ p x = true.
Proof. rewrite !list_elem_of_In. apply filter_In. Qed.

Lemma NoDup_map_filter {A B} (f : A -> B) (p : A -> bool) (l : list A) :
  NoDup (List.map f l) -> NoDup (List.map f (List.filter p l)).
Proof.
  induction l as [|x l IH]; [done|].
  cbn [List.map List.filter]. intros [Hx Hl]%NoDup_cons.
  destruct (p x); [|by apply IH].
  cbn [List.map]. apply NoDup_cons. split; [|by apply IH].
  intros Hin. apply Hx.
  apply list_elem_of_In, in_map_iff in Hin as (y & Hy & Hin).
  apply list_elem_of_In, in_map_iff. exists y. split; [done|].
  apply filter_In in Hin as [? _]. done.
Qed.

Lemma NoDup_omap_filter {A B} (f : A -> option B) (p : A -> bool) (l : list A) :
  NoDup (omap f l) -> NoDup (omap f (List.filter p l)).
Proof.
  induction l as [|x l IH]; [done|].
  cbn [List.filter omap list_omap]. destruct (f x) as [y|] eqn:E.
  - intros [Hx Hl]%NoDup_cons.
    destruct (p x); [|by apply IH].
    cbn [omap list_omap]. rewrite E. apply NoDup_cons. split; [|by apply IH].
    intros Hin. apply Hx.
    apply list_elem_of_omap in Hin as (z & Hz & Hfz).
    apply list_elem_of_omap. exists z. split; [|done].
    by apply elem_of_filter_list in Hz as [? _].
  - intros Hl. destruct (p x); [|by apply IH].
    cbn [omap list_omap]. rewrite E. by apply IH.
Qed.

Lemma is_unique_add_missing c t :
  is_unique c (add_missing_columns t) = is_unique c t.
Proof. unfold is_unique. by rewrite add_missing_columns_unique. Qed.

Lemma distinct_urls_kept : kept_by_repairs distinct_urls.
Proof.
  split; [done|]. split; [split; [done|constructor]|]. split.
  - intros t [Hu Hn]. split.
    + by rewrite is_unique_add_missing.
    + by rewrite add_missing_columns_rows.
  - intros t t' f d [Hu Hn] Hi.
    destruct (insert_or_replace_inv _ _ _ _ Hi) as (Hun & _ & Hrows).
    split; [unfold is_unique in *; by rewrite Hun|].
    rewrite Hrows, map_app. apply NoDup_app.
    split; [by apply NoDup_map_filter|]. split; [|apply NoDup_singleton].
    intros u Hin Hnew. cbn in Hnew. apply list_elem_of_singleton in Hnew as ->.
    apply list_elem_of_In, in_map_iff in Hin as (r & Hr & Hin).
    apply filter_In in Hin as [_ Hc].
    unfold conflicts in Hc. rewrite Hu, Hr, str_eqb_refl in Hc. done.
Qed.

Lemma distinct_hashes_kept : kept_by_repairs distinct_hashes.
Proof.
  split; [done|]. split; [split; [done|constructor]|]. split.
  - intros t [Hu Hn]. split.
    + by rewrite is_unique_add_missing.
    + by rewrite add_missing_columns_rows.
  - intros t t' f d [Hu Hn] Hi.
    destruct (insert_or_replace_inv _ _ _ _ Hi) as (Hun & _ & Hrows).
    split; [unfold is_unique in *; by rewrite Hun|].
    rewrite Hrows, omap_app. apply NoDup_app.
    split; [by apply NoDup_omap_filter|]. split; [|apply NoDup_singleton].
    intros u Hin Hnew. cbn in Hnew. apply list_elem_of_singleton in Hnew as ->.
    apply list_elem_of_omap in Hin as (r & Hin & Hr).
    apply elem_of_filter_list in Hin as [_ Hc].
    unfold conflicts in Hc. rewrite Hu, Hr, str_eqb_refl in Hc.
    by rewrite orb_true_r in Hc.
Qed.



(** X16.  A save that goes through at once deletes the rows in conflict and
    nothing else: each earlier row with another url and another hash is
    still there, in the same order, before the new row. *)
Theorem save_keeps_other_rows (fuel : nat) (e : env) (w w1 : world) (t : table)
    (title url content summarize source : pyval) :
  w_db w = DbFile (Some t) -> fault_at e (w_tick w) = None ->
  save_news fuel e w title url content summarize source = Some (true, w1) ->
  exists kept new,
    stored w1 = kept ++ [new] /\ kept `sublist_of` t_rows t
    /\ r_url new = clean_url url
    /\ r_content_hash new = save_content_hash title content
    /\ forall r, r ∈ t_rows t -> r_url r <> r_url new ->
                 r_content_hash r <> r_content_hash new -> r ∈ kept.
Proof.
  intros Hdb Hf. destruct fuel as [|fuel]; [done|].
  rewrite save_news_eq. unfold save_attempt.
  destruct (save_content_hash title content) as [h|]; [|done].
  change (w_db (tick w)) with (w_db w). rewrite Hdb, Hf.
  destruct (insert_or_replace _ _ _) as [t'|] eqn:Hi; [|done].
  intros [= <-].
  destruct (insert_or_replace_inv _ _ _ _ Hi) as (_ & _ & Hrows).
  unfold stored. cbn [w_db log set_db]. rewrite Hrows.
  eexists _, _. split; [reflexivity|].
  rewrite add_missing_columns_rows.
  split; [apply filter_sublist|]. split; [reflexivity|]. split; [reflexivity|].
  cbn [r_url r_content_hash]. intros r Hr Hu Hh.
  apply elem_of_filter_list. split; [done|].
  unfold conflicts. apply negb_true_iff, orb_false_iff. split.
  - apply andb_false_iff. right.
    destruct (str_eqb _ _) eqn:E; [|done]. by apply str_eqb_eq in E.
  - apply andb_false_iff. right.
    destruct (r_content_hash r) as [h'|]; [|done].
    destruct (str_eqb _ _) eqn:E; [|done]. apply str_eqb_eq in E. by subst.
Qed.

Lemma save_keeps_other_rows_witness :
  exists kept new,
    stored (after_save 1 calm
              (after_save 1 calm fresh_world sample_title sample_url
                          sample_content sample_summary sample_source)
              other_title other_url sample_content sample_summary sample_source)
    = kept ++ [new]
    /\ kept `sublist_of`
         t_rows (table_or_fresh
                   (w_db (after_save 1 calm fresh_world sample_title sample_url
                                     sample_content sample_summary sample_source)))
    /\ r_url new = clean_url other_url
    /\ r_content_hash new = save_content_hash other_title sample_content
    /\ forall r,
         r ∈ t_rows (table_or_fresh
                       (w_db (after_save 1 calm fresh_world sample_title
                                sample_url sample_content sample_summary
                                sample_source))) ->
         r_url r <> r_url new ->
         r_content_hash r <> r_content_hash new -> r ∈ kept.
Proof.
  apply (save_keeps_other_rows 1 calm
           (after_save 1 calm fresh_world sample_title sample_url sample_content
                       sample_summary sample_source) _ _
           other_title other_url sample_content sample_summary sample_source).
  - vm_compute. reflexivity.
  - reflexivity.
  - vm_compute. reflexivity.
Defined.

End UniqueColumns.

(** ** The life of the file: repair, migration, fresh start *)

Section Lifecycle.

Local Open Scope nat_scope.

Create Rewrite HintDb steps.
#[local] Hint Rewrite tick_log tick_tick tick_set_db tick_rename
  tick_added_columns db_log db_tick db_set_db db_added_columns : steps.

Lemma add_missing_columns_seq t : t_seq (add_missing_columns t) = t_seq t.
Proof.
  unfold add_missing_columns.
  destruct (has_column "summarize" t);
    by destruct (has_column "content_hash" _).
Qed.

(** The row the save writes at the clock reading [d] into an empty table. *)
Lemma save_into_empty e w t title url content summarize source h :
  save_content_hash title content = Some h ->
  w_db w = DbFile (Some t) -> insertable t = true ->
  t_rows t = [] -> fault_at e (w_tick w) = None ->
  exists w1,
    save_attempt e w title url content summarize source = (None, w1)
    /\ stored w1
       = [mk_row (t_seq t + 1)%N (clean_title title) (clean_url url)
            (clean_content content)
            (Some (clean_bounded 500 (py "AI technology news update.") summarize))
            (clean_bounded 200 (py "Unknown Source") source)
            (isoformat (now e w)) (Some h) (now e w)]
    /\ w_backups w1 = w_backups w.
Proof.
  intros Hh Hdb Hins Hrows Hf. unfold save_attempt.
  rewrite Hh. change (w_db (tick w)) with (w_db w). rewrite Hdb, Hf.
  unfold insert_or_replace. unfold insertable in Hins. rewrite Hins.
  eexists. split; [reflexivity|].
  unfold stored. cbn [w_db log set_db t_rows w_backups].
  rewrite add_missing_columns_rows, Hrows, add_missing_columns_seq.
  split; [reflexivity|]. by rewrite backups_added_columns.
Qed.

Lemma save_after_rounds e title url content summarize source h n :
  save_content_hash title content = Some h ->
  forall w t fuel,
  w_db w = DbFile (Some t) -> insertable t = true ->
  rounds e w n -> n < fuel ->
  (n = 0 -> t_rows t = [] /\ t_seq t = 0%N) ->
  exists w1,
    save_news fuel e w title url content summarize source = Some (true, w1)
    /\ stored w1
       = [mk_row 1 (clean_title title) (clean_url url) (clean_content content)
            (Some (clean_bounded 500 (py "AI technology news update.") summarize))
            (clean_bounded 200 (py "Unknown Source") source)
            (isoformat (now_at e (w_tick w + 2 * n))) (Some h)
            (now_at e (w_tick w + 2 * n))].
Proof.
  intros Hh. induction n as [|n IH];
    intros w t fuel Hdb Hins [Hr Hlast] Hfuel Hempty;
    (destruct fuel as [|fuel]; [lia|]); rewrite save_news_eq.
  - rewrite Nat.add_0_r in Hlast. destruct (Hempty eq_refl) as [Hrows Hseq].
    destruct (save_into_empty e w t title url content summarize source h
                Hh Hdb Hins Hrows Hlast) as (w1 & -> & Hst & _).
    exists w1. split; [reflexivity|].
    rewrite Hst, Hseq. unfold now. by rewrite Nat.add_0_r.
  - destruct (Hr 0 ltac:(lia)) as [H0 H1].
    rewrite Nat.add_0_r in H0. simpl in H1. rewrite Nat.add_0_r in H1.
    rewrite (save_attempt_fault e w title url content summarize source t h _
               Hdb Hh H0).
    unfold fix_database_and_retry.
    set (w1 := log LogFixing (log LogColumnMissing _)).
    destruct (create_fresh_database_returns e 0 w1 fuel)
      as (w2 & -> & _ & _ & Ht & Hd).
    { intros i Hi. lia. }
    { subst w1. autorewrite with steps.
      replace (S (w_tick w) + 0) with (w_tick w + 1) by lia. exact H1. }
    { lia. }
    assert (w_tick w2 = w_tick w + 2) as Ht2.
    { rewrite Ht. subst w1. autorewrite with steps. lia. }
    destruct (IH w2 fresh_table fuel Hd eq_refl) as (w' & Hs & Hst).
    { split.
      - intros i Hi. rewrite Ht2.
        replace (w_tick w + 2 + 2 * i) with (w_tick w + 2 * S i) by lia.
        apply Hr. lia.
      - rewrite Ht2.
        replace (w_tick w + 2 + 2 * n) with (w_tick w + 2 * S n) by lia.
        exact Hlast. }
    { lia. }
    { done. }
    exists w'. split; [exact Hs|].
    rewrite Hst, Ht2.
    by replace (w_tick w + 2 + 2 * n) with (w_tick w + 2 * S n) by lia.
Qed.

Lemma repair_once_backup e w t fuel title url content summarize source h :
  save_content_hash title content = Some h ->
  w_db w = DbFile (Some t) -> rounds e w 1 ->
  exists w1,
    save_news (S (S fuel)) e w title url content summarize source
    = Some (true, w1)
    /\ w_backups w1 !! backup_path (now_at e (S (w_tick w)))
       = Some (DbFile (Some (add_missing_columns t))).
Proof.
  intros Hh Hdb [Hr Hlast].
  destruct (Hr 0 ltac:(lia)) as [H0 H1].
  rewrite Nat.add_0_r in H0. simpl in H1. rewrite Nat.add_0_r in H1.
  replace (w_tick w + 1) with (S (w_tick w)) in H1 by lia.
  replace (w_tick w + 2 * 1) with (S (S (w_tick w))) in Hlast by lia.
  rewrite save_news_eq.
  rewrite (save_attempt_fault e w title url content summarize source t h _
             Hdb Hh H0).
  unfold fix_database_and_retry.
  set (w0 := log LogFixing (log LogColumnMissing _)).
  assert (w_tick w0 = S (w_tick w)) as Ht0.
  { subst w0. by autorewrite with steps. }
  assert (w_db w0 = DbFile (Some (add_missing_columns t))) as Hd0 by done.
  rewrite create_fresh_database_eq. rewrite Ht0, H1.
  set (w2 := log LogFreshCreated _).
  assert (w_tick w2 = S (S (w_tick w))) as Ht2.
  { subst w2. autorewrite with steps. by rewrite Ht0. }
  assert (w_backups w2 !! backup_path (now_at e (S (w_tick w)))
          = Some (DbFile (Some (add_missing_columns t)))) as Hb2.
  { subst w2. unfold now. rewrite Ht0.
    cbn [w_backups log set_db]. unfold rename_aside.
    change (w_db (log LogCreatingFresh (tick w0))) with (w_db w0).
    rewrite Hd0. cbn [w_backups log]. by rewrite lookup_insert_eq. }
  destruct (save_into_empty e w2 fresh_table title url content summarize
              source h Hh eq_refl eq_refl eq_refl)
    as (w1 & Ha & _ & Hb).
  { by rewrite Ht2. }
  rewrite save_news_eq, Ha. exists w1. split; [reflexivity|].
  by rewrite Hb.
Qed.


Lemma storm_once (w : world) : w_tick w = 0 -> rounds (storm 1) w 1.
Proof.
  intros H. split.
  - intros i Hi. assert (i = 0) as -> by lia. rewrite H. by split.
  - by rewrite H.
Qed.


Lemma has_both_columns t :
  has_column "summarize" (add_missing_columns t) = true
  /\ has_column "content_hash" (add_missing_columns t) = true.
Proof.
  unfold add_missing_columns.
  destruct (has_column "summarize" t) eqn:A.
  - destruct (has_column "content_hash" t) eqn:B; [done|].
    split; [by apply has_column_add | apply has_column_added].
  - destruct (has_column "content_hash" (add_column "summarize" t)) eqn:B.
    + split; [apply has_column_added | done].
    + split; [apply has_column_add, has_column_added | apply has_column_added].
Qed.

Lemma add_missing_columns_twice t :
  add_missing_columns (add_missing_columns t) = add_missing_columns t.
Proof.
  destruct (has_both_columns t) as [A B].
  unfold add_missing_columns at 1. by rewrite A, B.
Qed.

(** X18.  [init_database] only adds: without a fault it keeps every row
    and every backup, and running it again changes nothing in the file. *)
Theorem init_database_twice (fuel : nat) (e : env) (w : world) :
  fault_at e (w_tick w) = None -> fault_at e (S (w_tick w)) = None ->
  exists w1 w2,
    init_database fuel e w = Some w1 /\ init_database fuel e w1 = Some w2
    /\ stored w1 = stored w /\ w_backups w1 = w_backups w
    /\ w_db w2 = w_db w1 /\ w_backups w2 = w_backups w.
Proof.
  intros H0 H1.
  set (t := table_or_fresh (w_db w)).
  set (w1 := log LogDatabaseReady
               (set_db (DbFile (Some (add_missing_columns t)))
                       (log_added_columns t (tick w)))).
  set (w2 := log LogDatabaseReady
               (set_db (DbFile (Some (add_missing_columns t)))
                       (log_added_columns (add_missing_columns t) (tick w1)))).
  assert (w_tick w1 = S (w_tick w)) as Ht.
  { subst w1. by autorewrite with steps. }
  exists w1, w2. split; [|split; [|split; [|split; [|split]]]].
  - unfold init_database. by rewrite H0.
  - unfold init_database. rewrite Ht, H1.
    change (w_db (tick w1)) with (DbFile (Some (add_missing_columns t))).
    cbn [table_or_fresh]. by rewrite add_missing_columns_twice.
  - unfold stored. cbn [w_db log set_db w1]. rewrite add_missing_columns_rows.
    subst t. by destruct (w_db w) as [|[t|]].
  - subst w1. cbn [w_backups log set_db]. by rewrite backups_added_columns.
  - reflexivity.
  - subst w2. cbn [w_backups log set_db]. rewrite backups_added_columns.
    subst w1. cbn [w_backups log set_db tick]. by rewrite backups_added_columns.
Qed.

Lemma init_database_twice_witness :
  exists w1 w2,
    init_database 1 calm legacy_world = Some w1
    /\ init_database 1 calm w1 = Some w2
    /\ stored w1 = stored legacy_world /\ w_backups w1 = w_backups legacy_world
    /\ w_db w2 = w_db w1 /\ w_backups w2 = w_backups legacy_world.
Proof.
  apply (init_database_twice 1 calm legacy_world); reflexivity.
Defined.

(** X19.  When [init_database] fails on an existing file, the file is not
    repaired but set aside: once the fresh database is created, the table
    is empty and the file as it was lies under the backup name. *)
Theorem init_failure_starts_afresh (fuel : nat) (e : env) (w : world)
    (x : exn) (f : option table) :
  w_db w = DbFile f ->
  fault_at e (w_tick w) = Some x -> fault_at e (S (w_tick w)) = None ->
  exists w1,
    init_database (S fuel) e w = Some w1
    /\ w_db w1 = DbFile (Some fresh_table) /\ stored w1 = []
    /\ w_backups w1 !! backup_path (now_at e (S (w_tick w))) = Some (DbFile f).
Proof.
  intros Hdb H0 H1. unfold init_database. rewrite H0.
  rewrite create_fresh_database_eq.
  change (w_tick (log LogDatabaseError (tick w))) with (S (w_tick w)).
  rewrite H1. eexists. split; [reflexivity|].
  split; [reflexivity|]. split; [reflexivity|].
  cbn [w_backups log set_db]. unfold rename_aside.
  change (w_db (log LogCreatingFresh (tick (log LogDatabaseError (tick w)))))
    with (w_db w).
  rewrite Hdb. cbn [w_backups log]. by rewrite lookup_insert_eq.
Qed.

Lemma init_failure_starts_afresh_witness :
  exists w1,
    init_database 1 (gale 2)
      (after_save 1 calm fresh_world sample_title sample_url sample_content
                  sample_summary sample_source) = Some w1
    /\ w_db w1 = DbFile (Some fresh_table) /\ stored w1 = []
    /\ w_backups w1 !! backup_path (now_at (gale 2) 2)
       = Some (w_db (after_save 1 calm fresh_world sample_title sample_url
                                sample_content sample_summary sample_source)).
Proof.
  eapply (init_failure_starts_afresh 0 (gale 2) _ OtherError).
  - vm_compute. reflexivity.
  - vm_compute. reflexivity.
  - reflexivity.
Defined.

End Lifecycle.

(** ** The search: what the loops collect and what the run saves *)

Section Search.

Local Open Scope nat_scope.

(** What the loop over the articles of a source keeps. *)
Lemma scan_articles_keeps e name : forall articles found w,
  let r := scan_articles e articles name found w in
  stored (snd r) = stored w
  /\ w_backups (snd r) = w_backups w
  /\ (forall t, w_db w = DbFile (Some t) -> w_db (snd r) = DbFile (Some t))
  /\ (length found <= 2 ->
      length (snd (fst r)) <= 3
      /\ (fst (fst r) = true -> length (snd (fst r)) <= 2))
  /\ (Forall collected found -> Forall collected (snd (fst r)))
  /\ (forall x l, found = x :: l -> exists l', snd (fst r) = x :: l').
Proof.
  induction articles as [|a articles IH]; intros found w; cbn zeta.
  - cbn [scan_articles fst snd]. repeat split; try done; try lia.
    intros x l ->. by exists l.
  - cbn [scan_articles]. destruct (a !! "title"%string) as [title|] eqn:Ht.
    + destruct (is_duplicate_keeps e w (VStr title) (VStr []))
        as (Hs & Hb & Hd).
      destruct (is_duplicate e w (VStr title) (VStr [])) as [dup w2].
      cbn [snd] in Hs, Hb, Hd.
      set (found2 := if dup then found
                     else found ++ [<["source_name"%string := name]> a]).
      assert (length found <= 2 -> length found2 <= 3) as Hlen.
      { subst found2. destruct dup; [lia|]. rewrite length_app. cbn. lia. }
      assert (Forall collected found -> Forall collected found2) as Hcol.
      { subst found2. destruct dup; [done|]. intros H.
        apply Forall_app. split; [done|]. constructor; [|done]. split.
        - rewrite lookup_insert_ne by done. by rewrite Ht.
        - by rewrite lookup_insert_eq. }
      assert (forall x l, found = x :: l -> exists l', found2 = x :: l') as Hhd.
      { subst found2. intros x l ->. destruct dup; [by exists l|].
        by exists (l ++ [<["source_name"%string := name]> a]). }
      destruct (3 <=? length found2) eqn:E3.
      * cbn [fst snd]. repeat split; try done; auto.
      * apply Nat.leb_gt in E3.
        specialize (IH found2 w2). cbn zeta in IH.
        destruct IH as (I1 & I2 & I3 & I4 & I5 & I6).
        split; [congruence|]. split; [congruence|].
        split; [auto|]. split; [intros _; apply I4; lia|].
        split; [auto|].
        intros x l Hx. destruct (Hhd x l Hx) as [l' Hl']. eauto.
    + cbn [fst snd]. repeat split; try done; try lia.
      intros x l ->. by exists l.
Qed.

Lemma scan_sources_keeps e f : forall sources found w,
  let r := scan_sources e f sources found w in
  stored (snd r) = stored w
  /\ w_backups (snd r) = w_backups w
  /\ (forall t, w_db w = DbFile (Some t) -> w_db (snd r) = DbFile (Some t))
  /\ (length found <= 2 -> length (fst r) <= 3)
  /\ (Forall collected found -> Forall collected (fst r))
  /\ (forall x l, found = x :: l -> exists l', fst r = x :: l').
Proof.
  induction sources as [|s sources IH]; intros found w; cbn zeta.
  - cbn [scan_sources fst snd]. repeat split; try done; try lia.
    intros x l ->. by exists l.
  - cbn [scan_sources].
    pose proof (scan_articles_keeps e (src_name s) (listing f s) found w) as H.
    cbn zeta in H.
    destruct (scan_articles e (listing f s) (src_name s) found w)
      as [[raised found1] w1].
    cbn [fst snd] in H. destruct H as (H1 & H2 & H3 & H4 & H5 & H6).
    assert (stored (snd (scan_sources e f sources found1 w1)) = stored w
            /\ w_backups (snd (scan_sources e f sources found1 w1)) = w_backups w
            /\ (forall t, w_db w = DbFile (Some t) ->
                  w_db (snd (scan_sources e f sources found1 w1)) = DbFile (Some t))
            /\ (length found1 <= 2 ->
                length (fst (scan_sources e f sources found1 w1)) <= 3)
            /\ (Forall collected found ->
                Forall collected (fst (scan_sources e f sources found1 w1)))
            /\ (forall x l, found = x :: l ->
                  exists l', fst (scan_sources e f sources found1 w1) = x :: l'))
      as (J1 & J2 & J3 & J4 & J5 & J6).
    { specialize (IH found1 w1). cbn zeta in IH.
      destruct IH as (I1 & I2 & I3 & I4 & I5 & I6).
      split; [congruence|]. split; [congruence|]. split; [auto|].
      split; [auto|]. split; [auto|].
      intros x l Hx. destruct (H6 x l Hx) as [l' Hl']. eauto. }
    destruct raised.
    + repeat split; try done.
      intros Hf. apply J4. by apply H4.
    + destruct (1 <=? length found1) eqn:E1.
      * cbn [fst snd]. repeat split; try done; auto.
        intros Hf. by apply H4.
      * apply Nat.leb_gt in E1. repeat split; try done.
        intros _. apply J4. lia.
Qed.

(** X20.  The loops over the sources collect at most three articles, each
    with its title and the name of its source, and leave the rows and the
    backups of the store as they were. *)
Theorem scan_sources_collects_at_most_three
    (e : env) (f : fetcher) (sources : list source) (w : world) :
  length (fst (scan_sources e f sources [] w)) <= 3
  /\ Forall collected (fst (scan_sources e f sources [] w))
  /\ stored (snd (scan_sources e f sources [] w)) = stored w
  /\ w_backups (snd (scan_sources e f sources [] w)) = w_backups w.
Proof.
  pose proof (scan_sources_keeps e f sources [] w) as H. cbn zeta in H.
  destruct H as (H1 & H2 & _ & H4 & H5 & _).
  split; [apply H4; cbn; lia|]. split; [by apply H5|]. by split.
Qed.

Lemma select_by_hash_absent t h :
  has_column "content_hash" t = true ->
  (forall r, r ∈ t_rows t -> r_content_hash r <> Some h) ->
  select_by_hash t h = Some None.
Proof.
  intros Hc Hn. unfold select_by_hash. rewrite Hc.
  assert (List.find (fun r => match r_content_hash r with
                              | Some h' => str_eqb h' h
                              | None => false
                              end) (t_rows t) = None) as ->; [|done].
  induction (t_rows t) as [|r l IH]; [done|].
  cbn [List.find]. destruct (r_content_hash r) as [h'|] eqn:E.
  - destruct (str_eqb h' h) eqn:Eq.
    + apply str_eqb_eq in Eq as ->. exfalso. eapply Hn; [|exact E]. left.
    + apply IH. intros r' Hr'. apply Hn. by right.
  - apply IH. intros r' Hr'. apply Hn. by right.
Qed.

Lemma is_duplicate_unseen e w t title :
  fault_at e (w_tick w) = None -> w_db w = DbFile (Some t) ->
  has_column "content_hash" t = true -> unseen t title ->
  exists w2, is_duplicate e w (VStr title) (VStr []) = (false, w2).
Proof.
  intros Hf Hdb Hc Hu. unfold is_duplicate, lookup_fingerprint.
  destruct (fingerprint (VStr title) (VStr [])) as [h|] eqn:Hh; [|by eexists].
  rewrite Hf. change (w_db (tick w)) with (w_db w). rewrite Hdb.
  rewrite select_by_hash_absent; [by eexists|done|]. intros r. by apply Hu.
Qed.

Lemma scan_articles_first_fresh e t name a title rest : forall dups w,
  (forall n, fault_at e n = None) -> w_db w = DbFile (Some t) ->
  has_column "content_hash" t = true ->
  Forall (seen t) dups ->
  a !! "title"%string = Some title -> unseen t title ->
  exists l,
    snd (fst (scan_articles e (dups ++ a :: rest) name [] w))
    = <["source_name"%string := name]> a :: l.
Proof.
  induction dups as [|d dups IH]; intros w Hf Hdb Hc Hs Ht Hu.
  - cbn [app scan_articles]. rewrite Ht.
    destruct (is_duplicate_unseen e w t title (Hf _) Hdb Hc Hu) as [w2 ->].
    cbn [app length Nat.leb].
    pose proof (scan_articles_keeps e name rest
                  [<["source_name"%string := name]> a] w2) as H.
    cbn zeta in H. destruct H as (_ & _ & _ & _ & _ & H).
    by apply (H _ []).
  - apply Forall_cons in Hs as [(dt & h & r & Hdt & Hh & Hin & Hr) Hs].
    cbn [app scan_articles]. rewrite Hdt.
    rewrite (is_duplicate_seen e w t dt h r (Hf _) Hdb Hc Hh Hin Hr).
    cbn [length Nat.leb]. by apply IH.
Qed.

Lemma scan_sources_first_fresh e f t s post dups a rest title : forall pre w,
  (forall n, fault_at e n = None) -> w_db w = DbFile (Some t) ->
  has_column "content_hash" t = true ->
  (forall s', s' ∈ pre -> Forall (seen t) (listing f s')) ->
  listing f s = dups ++ a :: rest -> Forall (seen t) dups ->
  a !! "title"%string = Some title -> unseen t title ->
  exists l,
    fst (scan_sources e f (pre ++ s :: post) [] w)
    = <["source_name"%string := src_name s]> a :: l.
Proof.
  induction pre as [|p pre IH]; intros w Hf Hdb Hc Hpre Hl Hd Ht Hu.
  - cbn [app scan_sources].
    destruct (scan_articles_first_fresh e t (src_name s) a title rest dups w
                Hf Hdb Hc Hd Ht Hu) as [l Hfound].
    rewrite <- Hl in Hfound.
    destruct (scan_articles e (listing f s) (src_name s) [] w)
      as [[raised found1] w1].
    cbn [fst snd] in Hfound. subst found1.
    destruct raised.
    + pose proof (scan_sources_keeps e f post
                    (<["source_name"%string := src_name s]> a :: l) w1) as H.
      cbn zeta in H. destruct H as (_ & _ & _ & _ & _ & H). by apply (H _ l).
    + cbn [length Nat.leb fst]. by exists l.
  - cbn [app scan_sources].
    destruct (scan_articles_seen e t (src_name p) (listing f p) w Hf Hdb Hc)
      as (w1 & -> & Hdb1).
    { apply Hpre. left. }
    cbn [length Nat.leb]. apply IH; try done.
    intros s' Hs'. apply Hpre. by right.
Qed.

Lemma stock_contents_encodable :
  Forall (fun s => Forall (fun c => encodable c = true)
                          (stock_content (src_name s))) AI_NEWS_SOURCES.
Proof. apply (bool_decide_unpack _). vm_compute. reflexivity. Qed.

(** A save on a table with every column, without fault: the row is
    added after the rows that stay. *)
Lemma save_news_calm fuel e w t title url content summarize source h :
  save_content_hash title content = Some h ->
  w_db w = DbFile (Some t) -> initialised t ->
  fault_at e (w_tick w) = None ->
  exists w1 kept,
    save_news (S fuel) e w title url content summarize source = Some (true, w1)
    /\ stored w1
       = kept ++ [mk_row (t_seq t + 1)%N (clean_title title) (clean_url url)
                    (clean_content content)
                    (Some (clean_bounded 500 (py "AI technology news update.")
                             summarize))
                    (clean_bounded 200 (py "Unknown Source") source)
                    (isoformat (now e w)) (Some h) (now e w)]
    /\ kept `sublist_of` t_rows t.
Proof.
  intros Hh Hdb Hi Hf. rewrite save_news_eq. unfold save_attempt.
  rewrite Hh. change (w_db (tick w)) with (w_db w). rewrite Hdb, Hf.
  destruct (initialised_columns t Hi) as [-> _].
  unfold insert_or_replace. unfold initialised in Hi. rewrite Hi.
  eexists _, _. split; [reflexivity|].
  unfold stored. cbn [w_db log set_db t_rows].
  split; [reflexivity|]. apply filter_sublist.
Qed.



End Search.

(** ** The trending search of [AI.py] *)

Section Trending.

Local Open Scope Z_scope.

Lemma best_of_snoc b sources s best :
  AI.best_of b (sources ++ [s]) best
  = AI.consider (src_name s) (AI.extract b s) (AI.best_of b sources best).
Proof. unfold AI.best_of. by rewrite fold_left_app. Qed.

(** One turn of the loop, by what the source contributes. *)
Lemma consider_candidate b s best :
  AI.consider (src_name s) (AI.extract b s) best
  = match trending_candidate b s, best with
    | None, _ => best
    | Some c, None => Some c
    | Some c, Some b0 => if AI.s_score b0 <? AI.s_score c then Some c else best
    end.
Proof.
  unfold trending_candidate, AI.consider.
  destruct (AI.extract b s) as [a|]; [|done].
  destruct (bool_decide (a = ∅)); [done|]. by destruct best.
Qed.

(** X22.  The article the loop over the sources ends with is the one of
    highest score among those the sources gave, and among equals the one
    of the earliest source; it ends with none only when no source gave
    any. *)
Theorem best_article_is_first_maximum (b : AI.browser) :
  forall sources : list source,
  match AI.best_of b sources None with
  | None => forall s, s ∈ sources -> trending_candidate b s = None
  | Some best =>
      exists pre s post,
        sources = pre ++ s :: post
        /\ trending_candidate b s = Some best
        /\ (forall s' c, s' ∈ pre -> trending_candidate b s' = Some c ->
              AI.s_score c < AI.s_score best)
        /\ (forall s' c, s' ∈ post -> trending_candidate b s' = Some c ->
              AI.s_score c <= AI.s_score best)
  end.
Proof.
  induction sources as [|s sources IH] using rev_ind.
  - cbn. intros s H. by apply elem_of_nil in H.
  - rewrite best_of_snoc, consider_candidate.
    destruct (trending_candidate b s) as [c|] eqn:Hc.
    + destruct (AI.best_of b sources None) as [b0|].
      * destruct IH as (pre & s0 & post & -> & H0 & Hpre & Hpost).
        destruct (Z.ltb_spec (AI.s_score b0) (AI.s_score c)) as [Hlt|Hge].
        -- exists (pre ++ s0 :: post), s, []. split; [done|]. split; [done|].
           split; [|intros s' c' H; by apply elem_of_nil in H].
           intros s' c' Hin Hc'.
           apply elem_of_app in Hin as [Hin|Hin].
           ++ specialize (Hpre s' c' Hin Hc'). lia.
           ++ apply elem_of_cons in Hin as [->|Hin].
              ** rewrite H0 in Hc'. injection Hc' as <-. lia.
              ** specialize (Hpost s' c' Hin Hc'). lia.
        -- exists pre, s0, (post ++ [s]).
           split; [by rewrite <- app_assoc|]. split; [done|].
           split; [done|].
           intros s' c' Hin Hc'. apply elem_of_app in Hin as [Hin|Hin].
           ++ by apply (Hpost s' c').
           ++ apply list_elem_of_singleton in Hin as ->.
              rewrite Hc in Hc'. injection Hc' as <-. lia.
      * exists sources, s, []. split; [done|]. split; [done|].
        split; [|intros s' c' H; by apply elem_of_nil in H].
        intros s' c' Hin Hc'. by rewrite (IH s' Hin) in Hc'.
    + destruct (AI.best_of b sources None) as [b0|].
      * destruct IH as (pre & s0 & post & -> & H0 & Hpre & Hpost).
        exists pre, s0, (post ++ [s]).
        split; [by rewrite <- app_assoc|]. split; [done|]. split; [done|].
        intros s' c' Hin Hc'. apply elem_of_app in Hin as [Hin|Hin].
        -- by apply (Hpost s' c').
        -- apply list_elem_of_singleton in Hin as ->. congruence.
      * intros s' Hin. apply elem_of_app in Hin as [Hin|Hin]; [by apply IH|].
        by apply list_elem_of_singleton in Hin as ->.
Qed.

Lemma best_of_none b : forall sources,
  (forall s, s ∈ sources -> trending_candidate b s = None) ->
  AI.best_of b sources None = None.
Proof.
  induction sources as [|s sources IH] using rev_ind; [done|].
  intros H. rewrite best_of_snoc, consider_candidate.
  rewrite (H s) by (apply elem_of_app; right; left).
  apply IH. intros s' Hs'. apply H, elem_of_app. by left.
Qed.

(** X23.  When the browser does not start, or no source gives an article,
    the trending search returns without a save: the world is as it was, and
    no article is made up. *)
Theorem no_article_nothing_saved (e : env) (b : AI.browser) (w : world) :
  AI.launch_ok b = false
  \/ (forall s, s ∈ AI.trending_sources -> trending_candidate b s = None) ->
  AI.search_trending_ai_news e b w = w.
Proof.
  intros [H|H]; unfold AI.search_trending_ai_news.
  - by rewrite H.
  - rewrite (best_of_none b _ H). by destruct (AI.launch_ok b).
Qed.

Lemma no_article_nothing_saved_witness :
  AI.search_trending_ai_news calm
    (AI.mk_browser true (fun _ => None) (fun _ => None)) fresh_world
  = fresh_world.
Proof.
  apply no_article_nothing_saved. right. intros s _. reflexivity.
Defined.

End Trending.

(** ** The store as [AI.py] writes it *)

Section LegacySave.

Local Open Scope nat_scope.

Lemma encode_app_encodable (s : pystr) :
  Forall (fun c => encodable c = true) s -> is_Some (encode s).
Proof. intros H. destruct (encode_encodable s H) as [bs ->]. by eexists. Qed.

(** What a save of [AI.py] leaves. *)
Lemma legacy_save_result e w title url content source :
  (fst (AI.save_news e w title url content source) = false
   /\ stored (snd (AI.save_news e w title url content source)) = stored w
   /\ w_backups (snd (AI.save_news e w title url content source)) = w_backups w)
  \/ (fst (AI.save_news e w title url content source) = true
      /\ exists t,
           w_db w = DbFile (Some t)
           /\ stored (snd (AI.save_news e w title url content source))
              = List.filter
                  (fun old => negb (is_unique "url" t && str_eqb (r_url old) url))
                  (t_rows t)
                ++ [mk_row (t_seq t + 1)%N title url content None source
                           (isoformat (now e w)) None (now e w)]).
Proof.
  unfold AI.save_news. change (w_db (tick w)) with (w_db w).
  destruct (fault_at e (w_tick w)); [by left|].
  destruct (w_db w) as [|[t|]] eqn:Hdb.
  - left. unfold stored. cbn. by rewrite Hdb.
  - destruct (encode _).
    + unfold AI.insert_or_replace.
      destruct (forallb _ AI.insert_columns).
      * right. split; [done|]. exists t. done.
      * left. unfold stored. cbn. by rewrite Hdb.
    + left. unfold stored. cbn. by rewrite Hdb.
  - left. unfold stored. cbn. by rewrite Hdb.
Qed.


Lemma is_duplicate_true_row e w title content :
  fst (is_duplicate e w title content) = true ->
  exists h r, fingerprint title content = Some h
    /\ r ∈ stored w /\ r_content_hash r = Some h.
Proof.
  unfold is_duplicate, lookup_fingerprint, stored.
  destruct (fingerprint title content) as [h|]; [|done].
  destruct (fault_at e (w_tick w)); [done|].
  change (w_db (tick w)) with (w_db w).
  destruct (w_db w) as [|[t|]]; [done| |done].
  destruct (select_by_hash t h) as [[id|]|] eqn:E; [|done|done].
  intros _. apply select_by_hash_found in E as (r & Hr & Hh & _). eauto.
Qed.

(** X25.  A row written by [AI.py] carries no hash, so that it never
    answers a duplicate check of [Agent.py]: a check that finds a row
    after a save of [AI.py] finds one that was there before. *)
Theorem legacy_rows_never_duplicates (e e' : env) (w : world)
    (title url content source : pystr) (title' content' : pyval) :
  fst (is_duplicate e' (snd (AI.save_news e w title url content source))
         title' content') = true ->
  exists h r, fingerprint title' content' = Some h
    /\ r ∈ stored w /\ r_content_hash r = Some h.
Proof.
  intros H. apply is_duplicate_true_row in H as (h & r & Hh & Hr & Hrh).
  exists h, r. split; [done|]. split; [|done].
  destruct (legacy_save_result e w title url content source)
    as [(_ & Hs & _)|(_ & t & Hdb & Hs)]; rewrite Hs in Hr; [done|].
  apply elem_of_app in Hr as [Hr|Hr].
  - apply elem_of_filter_list in Hr as [Hr _]. unfold stored. by rewrite Hdb.
  - apply list_elem_of_singleton in Hr as ->. done.
Qed.

Lemma legacy_rows_never_duplicates_witness :
  exists h r,
    fingerprint sample_title sample_content = Some h
    /\ r ∈ stored (after_save 1 calm fresh_world sample_title sample_url
                              sample_content sample_summary sample_source)
    /\ r_content_hash r = Some h.
Proof.
  apply (legacy_rows_never_duplicates calm calm _ (py "Another title")
           (py "https://example.org/b") (py "Text") (py "example.org")).
  vm_compute. reflexivity.
Defined.

Lemma limit_content_length content :
  length (AI.limit_content content) <= 3003.
Proof.
  unfold AI.limit_content. destruct (3000 <? length content) eqn:E.
  - rewrite length_app. unfold slice_to. rewrite length_take.
    change (length (py "...")) with 3. lia.
  - apply Nat.ltb_ge in E. lia.
Qed.

(** X26.  The trending search saves the article the loop ended with: its
    title and its url as the extractor gave them; as content, the text of
    its page, cut after 3000 characters and then marked with three dots
    (so at most 3003 characters), or the fixed sentence naming the source
    when the page cannot be read; as source, the host of the page, or the
    source of the article. *)
Theorem trending_search_saves_best (e : env) (b : AI.browser) (w : world)
    (t : table) (best : AI.scored) (title url : pystr) :
  AI.launch_ok b = true ->
  AI.best_of b AI.trending_sources None = Some best ->
  AI.s_article best !! "title"%string = Some title ->
  AI.s_article best !! "url"%string = Some url ->
  let content :=
    match AI.page_text b url with
    | Some (text, _) => AI.limit_content text
    | None => AI.extraction_failed (AI.s_article best)
    end in
  let source :=
    match AI.page_text b url with
    | Some (_, host) => host
    | None => default (py "Unknown") (AI.s_article best !! "source"%string)
    end in
  Forall (fun c => encodable c = true) (title ++ url ++ content ++ source) ->
  fault_at e (w_tick w) = None ->
  w_db w = DbFile (Some t) ->
  forallb (fun c => has_column c t) AI.insert_columns = true ->
  exists kept,
    stored (AI.search_trending_ai_news e b w)
    = kept ++ [mk_row (t_seq t + 1)%N title url content None source
                      (isoformat (now e w)) None (now e w)]
    /\ kept `sublist_of` t_rows t
    /\ (is_Some (AI.page_text b url) -> length content <= 3003).
Proof.
  intros Hl Hb Ht Hu content source Henc Hf Hdb Hcols.
  assert (exists article,
            AI.get_full_article_content b (AI.s_article best) = Some article
            /\ article !! "title"%string = Some title
            /\ article !! "url"%string = Some url
            /\ dict_get article "content" = content
            /\ default (py "Unknown") (article !! "source"%string) = source)
    as (article & Hg & Hat & Hau & Hac & Has).
  { unfold AI.get_full_article_content. rewrite Ht, Hu.
    subst content source.
    destruct (AI.page_text b url) as [[text host]|]; eexists;
      (split; [reflexivity|]).
    - rewrite !(lookup_insert_ne _ "source" "title") by done.
      rewrite !(lookup_insert_ne _ "content" "title") by done.
      rewrite !(lookup_insert_ne _ "source" "url") by done.
      rewrite !(lookup_insert_ne _ "content" "url") by done.
      rewrite lookup_insert_eq. unfold dict_get.
      rewrite (lookup_insert_ne _ "source" "content") by done.
      by rewrite lookup_insert_eq.
    - rewrite !(lookup_insert_ne _ "content" "title") by done.
      rewrite !(lookup_insert_ne _ "content" "url") by done.
      rewrite !(lookup_insert_ne _ "content" "source") by done.
      unfold dict_get. by rewrite lookup_insert_eq. }
  unfold AI.search_trending_ai_news. rewrite Hl, Hb, Hg, Hat, Hau, Hac, Has.
  unfold AI.save_news. change (w_db (tick w)) with (w_db w).
  rewrite Hf, Hdb.
  destruct (encode_app_encodable _ Henc) as [bs ->].
  unfold AI.insert_or_replace. rewrite Hcols.
  eexists. split; [reflexivity|]. split; [apply filter_sublist|].
  intros [[text host] Hp]. subst content. rewrite Hp.
  apply limit_content_length.
Qed.

Lemma trending_search_saves_best_witness :
  exists kept,
    stored (AI.search_trending_ai_news calm one_article_browser legacy_world)
    = kept ++ [mk_row 1 (py "OpenAI update") (py "https://example.com/a")
                      (py "OpenAI shipped an update today.") None
                      (py "example.com") (isoformat noon) None noon]
    /\ kept `sublist_of` t_rows legacy_table
    /\ (is_Some (AI.page_text one_article_browser (py "https://example.com/a")) ->
        length (py "OpenAI shipped an update today.") <= 3003).
Proof.
  eapply (trending_search_saves_best calm one_article_browser legacy_world
            legacy_table _ (py "OpenAI update") (py "https://example.com/a")).
  - reflexivity.
  - vm_compute. reflexivity.
  - vm_compute. reflexivity.
  - vm_compute. reflexivity.
  - apply (bool_decide_unpack _). vm_compute. reflexivity.
  - reflexivity.
  - reflexivity.
  - reflexivity.
Defined.

End LegacySave.

(** ** Text normalizer: the length of the result *)

Section NormalizerLength.

Local Open Scope nat_scope.

Lemma startswith_length p s : startswith p s = true -> length p <= length s.
Proof.
  revert s. induction p as [|a p IH]; intros [|b s]; cbn; try done; try lia.
  intros [_ H]%andb_true_iff. specialize (IH s H). lia.
Qed.

Lemma replace_from_length old new : forall s k,
  length new <= length old ->
  length (replace_from old new k s) + min k (length s) <= length s.
Proof.
  intros s k Hn. revert k. induction s as [|c s IH]; intros k; [by destruct k|].
  cbn [replace_from]. destruct k as [|k].
  - destruct (startswith old (c :: s)) eqn:E.
    + apply startswith_length in E. cbn [length] in *.
      specialize (IH (length old - 1)). rewrite length_app. lia.
    + specialize (IH 0). cbn [length]. lia.
  - specialize (IH k). cbn [length]. lia.
Qed.

Lemma replace_length old new s :
  old <> [] -> length new <= length old ->
  length (replace old new s) <= length s.
Proof.
  intros Ho Hn. destruct old as [|a old]; [done|]. cbn [replace].
  pose proof (replace_from_length (a :: old) new s 0 Hn). lia.
Qed.

Lemma replace_char_length c new s :
  length (replace [c] new s)
  <= length s + (length new - 1) * length (List.filter (N.eqb c) s).
Proof.
  cbn [replace]. rewrite replace_from_char.
  induction s as [|b s IH]; [cbn; lia|].
  cbn [flat_map List.filter]. rewrite length_app.
  destruct (c =? b)%N; cbn [length]; lia.
Qed.

Lemma filter_none_length (c : N) (s : pystr) :
  c ∉ s -> length (List.filter (N.eqb c) s) = 0.
Proof.
  induction s as [|b s IH]; [done|].
  intros H. apply not_elem_of_cons in H as [Hb Hs].
  cbn [List.filter]. destruct (N.eqb_spec c b); [done|]. by apply IH.
Qed.

(** The characters a source line counts for each word after the first. *)
Lemma words_from_length s :
  length (fst (words_from s))
  + list_sum (List.map (fun x => S (length x)) (snd (words_from s)))
  <= length s.
Proof.
  induction s as [|c s IH]; [done|].
  cbn [words_from]. destruct (words_from s) as [w ws]. cbn [fst snd] in IH.
  destruct (is_space c); cbn [fst snd length].
  - destruct w as [|a w]; simpl in *; lia.
  - lia.
Qed.

Lemma join_length ws :
  length (join [32%N] ws) + match ws with [] => 0 | _ :: _ => 1 end
  <= list_sum (List.map (fun x => S (length x)) ws).
Proof.
  induction ws as [|w ws IH]; [done|].
  destruct ws as [|w' ws'].
  - cbn. lia.
  - change (join [32%N] (w :: w' :: ws'))
      with (w ++ 32%N :: join [32%N] (w' :: ws')).
    rewrite length_app.
    set (J := join [32%N] (w' :: ws')) in *.
    simpl in *. lia.
Qed.

Lemma join_split_length s : length (join [32%N] (split s)) <= length s.
Proof.
  pose proof (words_from_length s) as H. unfold split.
  destruct (words_from s) as [w ws]. cbn [fst snd] in H.
  destruct w as [|a w]; cbn [cons_word].
  - pose proof (join_length ws). simpl in H. lia.
  - destruct ws as [|w' ws'].
    + cbn [join]. simpl in H. simpl. lia.
    + change (join [32%N] ((a :: w) :: w' :: ws'))
        with ((a :: w) ++ 32%N :: join [32%N] (w' :: ws')).
      pose proof (join_length (w' :: ws')) as H2.
      rewrite length_app.
      set (J := join [32%N] (w' :: ws')) in *.
      simpl in *. lia.
Qed.

Lemma lstrip_length s : length (lstrip s) <= length s.
Proof.
  destruct (lstrip_suffix s) as [p Hp]. rewrite Hp at 2.
  rewrite length_app. lia.
Qed.

Lemma strip_length s : length (strip s) <= length s.
Proof.
  unfold strip, rstrip. rewrite length_rev.
  etrans; [apply lstrip_length|]. rewrite length_rev. apply lstrip_length.
Qed.

Lemma strip_controls_length s : length (strip_controls s) <= length s.
Proof. apply List.filter_length_le. Qed.

Lemma filter_eqb_replace_char (c a b : N) (s : pystr) :
  a <> c ->
  length (List.filter (N.eqb c) (replace [a] [b] s))
  <= length (List.filter (N.eqb c) s) + length (List.filter (N.eqb a) s).
Proof.
  intros Hac. cbn [replace]. rewrite replace_from_char.
  induction s as [|x s IH]; [done|].
  cbn [flat_map List.filter]. destruct (N.eqb_spec a x) as [->|Hax].
  - cbn [app List.filter]. destruct (N.eqb_spec c x); [congruence|].
    destruct (c =? b)%N; cbn [length]; lia.
  - cbn [app List.filter]. destruct (c =? x)%N; cbn [length]; lia.
Qed.

(** The steps before the table of replacements never lengthen. *)
Lemma first_steps_length s :
  length (replace [9%N] [32%N] (replace [10%N] [32%N]
            (replace [13%N] [32%N] (replace [0%N] [] s))))
  <= length s.
Proof.
  etrans; [apply replace_length; [done|cbn; lia]|].
  etrans; [apply replace_length; [done|cbn; lia]|].
  etrans; [apply replace_length; [done|cbn; lia]|].
  apply replace_length; [done|cbn; lia].
Qed.

Lemma clean_steps_length_3 s : length (clean_steps s) <= 3 * length s.
Proof.
  rewrite clean_steps_eq.
  etrans; [apply strip_length|].
  etrans; [apply join_split_length|].
  etrans; [apply strip_controls_length|].
  rewrite apply_replacements_eq.
  set (x := replace [9%N] _ _).
  pose proof (first_steps_length s) as Hx. fold x in Hx.
  set (y := replace [8212%N] _ _).
  assert (length y <= length x) as Hy.
  { subst y.
    etrans; [apply replace_length; [done|cbn; lia]|].
    etrans; [apply replace_length; [done|cbn; lia]|].
    etrans; [apply replace_length; [done|cbn; lia]|].
    rewrite replace_same. lia. }
  pose proof (replace_char_length 8230%N (py "...") y) as H.
  pose proof (List.filter_length_le (N.eqb 8230%N) y) as H'.
  change (length (py "...")) with 3 in H. lia.
Qed.

Lemma Forall_replace_ne (c : N) old new s :
  old <> [] -> Forall (fun b => b <> c) new -> c ∉ s ->
  c ∉ replace old new s.
Proof.
  intros Ho Hn Hs Hin.
  assert (Forall (fun b => b <> c) (replace old new s)) as H.
  { apply replace_Forall; [done|done|]. by apply not_elem_Forall. }
  rewrite Forall_forall in H. by apply (H c).
Qed.

Lemma clean_steps_length_1 s :
  8230%N ∉ s -> length (clean_steps s) <= length s.
Proof.
  intros Hs. rewrite clean_steps_eq.
  etrans; [apply strip_length|].
  etrans; [apply join_split_length|].
  etrans; [apply strip_controls_length|].
  rewrite apply_replacements_eq.
  set (x := replace [9%N] _ _).
  pose proof (first_steps_length s) as Hx. fold x in Hx.
  assert (8230%N ∉ x) as Hnx.
  { subst x. repeat apply Forall_replace_ne; try done;
      repeat constructor; done. }
  set (y := replace [8212%N] _ _).
  assert (length y <= length x) as Hy.
  { subst y.
    etrans; [apply replace_length; [done|cbn; lia]|].
    etrans; [apply replace_length; [done|cbn; lia]|].
    etrans; [apply replace_length; [done|cbn; lia]|].
    rewrite replace_same. lia. }
  assert (8230%N ∉ y) as Hny.
  { subst y. repeat apply Forall_replace_ne; try done;
      repeat constructor; done. }
  pose proof (replace_char_length 8230%N (py "...") y) as H.
  rewrite (filter_none_length _ _ Hny) in H. lia.
Qed.

Lemma clean_text_no_ellipsis v : 8230%N ∉ clean_text_for_db v.
Proof.
  destruct (clean_text_words v) as (ws & -> & _ & Hs).
  assert (Forall (fun c => c <> 8230%N) (join [32%N] ws)) as H.
  { apply join_Forall; [by repeat constructor|].
    eapply Forall_impl; [exact Hs|]. intros w Hw.
    eapply Forall_impl; [exact Hw|]. by intros c (_ & _ & _ & ?). }
  rewrite Forall_forall in H. intros Hin. by apply (H _ Hin).
Qed.

(** X27.  Cleaning lengthens a string only through the ellipsis, which
    becomes three dots: the result has at most three times the length of
    the string, and at most its length when it holds no ellipsis.  So the
    content the search hands to the save, cleaned and cut at 3000
    characters, is stored on at most 3000 characters. *)
Theorem clean_text_length (s : pystr) (v : pyval) :
  length (clean_text_for_db (VStr s)) <= 3 * length s
  /\ (8230%N ∉ s -> length (clean_text_for_db (VStr s)) <= length s)
  /\ length (clean_content (VStr (slice_to 3000 (clean_text_for_db v)))) <= 3000.
Proof.
  assert (forall x, length (clean_text_for_db (VStr x)) <= 3 * length x) as H3.
  { intros x. unfold clean_text_for_db.
    destruct (truthy (VStr x)); cbn [negb py_str length]; [|lia].
    apply clean_steps_length_3. }
  assert (forall x, 8230%N ∉ x ->
            length (clean_text_for_db (VStr x)) <= length x) as H1.
  { intros x Hx. unfold clean_text_for_db.
    destruct (truthy (VStr x)); cbn [negb py_str length]; [|lia].
    by apply clean_steps_length_1. }
  split; [apply H3|]. split; [apply H1|].
  rewrite clean_content_take. unfold slice_to. rewrite length_take.
  etrans; [apply Nat.le_min_r|].
  etrans; [apply H1|].
  - intros Hin. apply (clean_text_no_ellipsis v).
    apply elem_of_take in Hin as (i & Hi & _).
    apply list_elem_of_lookup. by exists i.
  - rewrite length_take. lia.
Qed.

End NormalizerLength.

(** ** Saving: blank titles, equal texts *)

Section SaveEdges.

Local Open Scope nat_scope.

Lemma blank_encodable c :
  is_space c || is_control c = true -> encodable c = true.
Proof.
  intros H. unfold encodable, in_range.
  destruct (N.leb_spec 55296 c) as [Hc|Hc]; [|done].
  exfalso. revert H. apply not_true_iff_false.
  unfold is_space, is_control, in_range.
  repeat apply orb_false_intro;
    first [ apply N.eqb_neq; lia
          | apply andb_false_iff;
            first [ left; apply N.leb_gt; lia | right; apply N.leb_gt; lia ] ].
Qed.



(** X29.  On a table that declares content_hash UNIQUE, as the one
    [Agent.py] creates, an article saved again with the same title and the
    same content under another url replaces the first: one row carries the
    hash, with the later url. *)
Theorem same_text_replaces_under_unique_hash
    (fuel1 fuel2 : nat) (e : env) (w w1 w2 : world)
    (title content url1 summarize1 source1 url2 summarize2 source2 : pyval)
    (h : pystr) :
  hash_constraint w ->
  save_content_hash title content = Some h ->
  save_news fuel1 e w title url1 content summarize1 source1 = Some (true, w1) ->
  save_news fuel2 e w1 title url2 content summarize2 source2 = Some (true, w2) ->
  exists r, rows_with_hash h w2 = [r] /\ r_url r = clean_url url2.
Proof. apply equal_hash_replaces. Qed.

Lemma same_text_replaces_under_unique_hash_witness :
  exists r,
    rows_with_hash (py "7ed685aa28d79ca86f27e466e7b03469")
      (after_save 1 calm
         (after_save 1 calm fresh_world sample_title sample_url sample_content
                     sample_summary sample_source)
         sample_title other_url sample_content sample_summary sample_source)
    = [r]
    /\ r_url r = clean_url other_url.
Proof.
  apply (same_text_replaces_under_unique_hash 1 1 calm fresh_world
           (after_save 1 calm fresh_world sample_title sample_url sample_content
                       sample_summary sample_source)
           _ sample_title sample_content sample_url sample_summary sample_source
           other_url sample_summary sample_source).
  - reflexivity.
  - vm_compute. reflexivity.
  - vm_compute. reflexivity.
  - vm_compute. reflexivity.
Defined.

End SaveEdges.
